(** * uvm_message_search: the log scanner of [SearchFile.search]

    A shallow embedding of [SearchFile.search] (uvm_message_search.py,
    lines 634-872) and of the module constants it reads (lines 69-78),
    followed by the properties of the scanner.

    Conventions of the model
    - a Python [str] is a [string]; its characters are the code points
      below 256, which is where the markers, the separator and the escape
      sequences live;
    - a Python [int] is a [Z] when it may be negative (the context count)
      and a [nat] when it only counts (line numbers, lengths);
    - the option dictionary is a [gmap string pyval], its values being
      [None], booleans and integers;
    - the file is the list of lines that [readlines] returns;
    - the local variable [match] is called [matched];
    - [re.search] belongs to Python's library: the scanner is parametric in
      it, and a pattern that does not compile makes it raise;
    - an exception aborts the call: [search] returns a [result]. *)

From Stdlib Require Import ZArith Ascii String List Lia DecimalString DecimalFacts.
From stdpp Require Import base gmap strings list.
Import ListNotations.

Local Open Scope string_scope.
Local Open Scope Z_scope.

(** ** Exceptions *)

Inductive exn : Type :=
| TypeError   (* int(None) *)
| ReError.    (* re.error: the pattern does not compile *)

Inductive result (A : Type) : Type :=
| Ok (a : A)
| Raise (e : exn).

Arguments Ok {A} a.
Arguments Raise {A} e.

#[global] Instance result_ret : MRet result := fun _ a => Ok a.

#[global] Instance result_bind : MBind result := fun _ _ k m =>
  match m with
  | Ok a => k a
  | Raise e => Raise e
  end.

(** ** Python strings *)

Module Str.

Definition nl : string := String "010" EmptyString.

(** [str.isspace] on one character: tab to carriage return, the four
    separators, space, NEL and the no-break space. *)
Definition isspace (c : ascii) : bool :=
  let n := N_of_ascii c in
  ((9 <=? n) && (n <=? 13) || (28 <=? n) && (n <=? 32) || (n =? 133) || (n =? 160))%N.

(** [str.lower] on one character: A-Z and the accented capitals À-Þ
    (the multiplication sign excepted) move up by 32. *)
Definition lower_char (c : ascii) : ascii :=
  let n := N_of_ascii c in
  if ((65 <=? n) && (n <=? 90) || (192 <=? n) && (n <=? 222) && negb (n =? 215))%N
  then ascii_of_N (n + 32)
  else c.

Fixpoint lower (s : string) : string :=
  match s with
  | EmptyString => EmptyString
  | String c r => String (lower_char c) (lower r)
  end.

(** [s.rstrip()] *)
Fixpoint rstrip (s : string) : string :=
  match s with
  | EmptyString => EmptyString
  | String c r =>
      match rstrip r with
      | EmptyString => if isspace c then EmptyString else String c EmptyString
      | r' => String c r'
      end
  end.

(** [s.startswith(p)] *)
Definition startswith (s p : string) : bool := String.prefix p s.

(** [p in s] *)
Fixpoint contains (p s : string) : bool :=
  String.prefix p s ||
  match s with
  | EmptyString => false
  | String _ r => contains p r
  end.

(** [str(n)] for a count *)
Definition of_nat (n : nat) : string := NilEmpty.string_of_uint (Nat.to_uint n).

Fixpoint spaces (n : nat) : string :=
  match n with
  | O => EmptyString
  | S k => String " " (spaces k)
  end.

(** ['{number:<{number_size}}'.format(number=n, number_size=w)] *)
Definition ljust (n w : nat) : string :=
  let s := of_nat n in
  s ++ spaces (w - String.length s)%nat.

(** [.*?m] from the current position: an "m" lies ahead on this line. *)
Fixpoint closes (s : string) : bool :=
  match s with
  | EmptyString => false
  | String c r =>
      if Ascii.eqb c "m" then true
      else if Ascii.eqb c "010" then false
      else closes r
  end.

(** [re.sub(r"\x1b(?:\[.*?m)", "", s)], left to right.  [inside] holds
    while the characters of a match that is known to close are dropped. *)
Fixpoint sub_escapes (inside : bool) (s : string) : string :=
  match s with
  | EmptyString => EmptyString
  | String c r =>
      if inside then
        sub_escapes (negb (Ascii.eqb c "m")) r
      else
        match r with
        | String "[" r' =>
            if Ascii.eqb c "027" && closes r'
            then sub_escapes true r
            else String c (sub_escapes false r)
        | _ => String c (sub_escapes false r)
        end
  end.

End Str.

(** ** Global attributes (lines 69-78) *)

Definition SEPERATION  : string := "...".
Definition END_OF_TEST : string := "# --- UVM Report Summary ---".
Definition UVM_MESSAGE : string := "# UVM_".
Definition UVM_WARNING : string := "# UVM_WARNING".
Definition UVM_ERROR   : string := "# UVM_ERROR".
Definition UVM_FATAL   : string := "# UVM_FATAL".

(** ** Option dictionary (lines 657-693) *)

(** The values an option entry holds. *)
Inductive pyval : Type :=
| PyNone
| PyBool (b : bool)
| PyInt (z : Z).

(** [v == True]: [bool] is a subclass of [int], so [1 == True] holds. *)
Definition eq_True (v : pyval) : bool :=
  match v with
  | PyBool b => b
  | PyInt z => z =? 1
  | PyNone => false
  end.

(** [int(v)] *)
Definition py_int (v : pyval) : result Z :=
  match v with
  | PyBool b => Ok (if b then 1 else 0)
  | PyInt z => Ok z
  | PyNone => Raise TypeError
  end.

Record options : Type := {
  search_regex          : bool;
  search_case_sensitive : bool;
  search_exclusive      : bool;
  always_show_errors    : bool;
  always_show_warnings  : bool;
  show_line_numbers     : bool;
  search_context        : Z
}.

(** [key in search_options.keys() and search_options[key] == True] *)
Definition enabled (search_options : gmap string pyval) (key : string) : bool :=
  match search_options !! key with
  | Some v => eq_True v
  | None => false
  end.

Definition decode_options (search_options : gmap string pyval) : result options :=
  let case_sensitive := enabled search_options "SEARCH_CASE_SENSITIVE" in
  let exclusive      := enabled search_options "SEARCH_EXCLUSIVE" in
  let show_errors    := enabled search_options "SHOW_ERRORS" in
  let show_warnings  := enabled search_options "SHOW_WARNINGS" in
  let line_numbers   := enabled search_options "SHOW_LINE_NUMBERS" in
  let regex          := enabled search_options "SEARCH_REGEX" in
  let case_sensitive := if regex then true else case_sensitive in
  ctx ← match search_options !! "SEARCH_CONTEXT" with
        | Some v => py_int v
        | None => Ok 0
        end;
  Ok {| search_regex          := regex;
        search_case_sensitive := case_sensitive;
        search_exclusive      := exclusive;
        always_show_errors    := show_errors;
        always_show_warnings  := show_warnings;
        show_line_numbers     := line_numbers;
        search_context        := ctx |}.

(** ** The scanner (lines 640-656 and 704-872) *)

Local Open Scope list_scope.

(** [l[k:]] *)
Definition slice_from {A : Type} (k : Z) (l : list A) : list A :=
  if k <? 0
  then drop (Z.to_nat (Z.max (Z.of_nat (length l) + k) 0)) l
  else drop (Z.to_nat k) l.

(** Lower-casing of a marker, a term or a line when the search is not
    case sensitive (lines 720-728 and 744-745). *)
Definition fold_case (o : options) (s : string) : string :=
  if search_case_sensitive o then s else Str.lower s.

(** Local matching strings (lines 651-655, 720-725). *)
Definition end_of_test_string (o : options) : string := fold_case o END_OF_TEST.
Definition uvm_message_string (o : options) : string := fold_case o UVM_MESSAGE.
Definition uvm_warning_string (o : options) : string := fold_case o UVM_WARNING.
Definition uvm_error_string   (o : options) : string := fold_case o UVM_ERROR.
Definition uvm_fatal_string   (o : options) : string := fold_case o UVM_FATAL.

(** The width of the number of lines (lines 708-714). *)
Definition line_number_width (file : list string) : nat :=
  String.length (Str.of_nat (length file)).

(** A stored line: its formatted line number and its text. *)
Abbreviation entry := (string * string)%type.

(** The local variables of [search] that change while the file is read. *)
Record state {T : Type} : Type := {
  messages    : list (list entry);
  buffer      : list entry;
  text        : list T;
  matches     : gmap string Z;
  matched     : bool;             (* the variable [match] *)
  last        : bool;
  context     : Z;
  line_number : nat
}.
Arguments state T : clear implicits.

(** What one turn of the [for] loop leaves: the next state, or the list
    that [return text] hands back. *)
Inductive outcome (T : Type) : Type :=
| Continue (st : state T)
| Return (out : list T).
Arguments Continue {T} st.
Arguments Return {T} out.

Section Scanner.

(** [re.search(pattern, line)]: [Some true] for a match object, [Some
    false] for [None], and [None] when [re.error] is raised. *)
Variable re_search : string -> string -> option bool.

(** What is appended to [text]: the separation line, and a stored line.
    [search] appends strings; the properties of the separator are read
    off the same scanner appending tagged entries. *)
Context {T : Type}.
Variable separation : T.
Variable emit : entry -> T.

Definition initial : state T :=
  {| messages := []; buffer := []; text := []; matches := ∅;
     matched := false; last := false; context := 0; line_number := 0 |}.

(** [for message in messages: for (location, entry) in message: ...] *)
Definition print_messages (ms : list (list entry)) : list T :=
  concat (map (map emit) ms).

(** The body of the boundary test (lines 751-790). *)
Definition close_block (o : options) (st : state T) : state T :=
  let messages1 :=
    if (0 <? length (buffer st))%nat then messages st ++ [buffer st]
    else messages st in
  let messages2 := slice_from ((search_context o + 1) * -1) messages1 in
  let printing := matched st || (0 <? context st) in
  let text1 :=
    if printing
    then (if last st then text st else text st ++ [separation])
           ++ print_messages messages2
    else text st in
  let context1 := if 0 <? context st then context st - 1 else context st in
  let context2 := if matched st then search_context o else context1 in
  {| messages    := if printing then [] else messages2;
     buffer      := [];
     text        := text1;
     matches     := matches st;
     matched     := false;
     last        := printing;
     context     := context2;
     line_number := line_number st |}.

(** One term against the current line (lines 820-825, 831-836). *)
Definition term_hit (o : options) (search_string line fline : string)
  : result bool :=
  if search_regex o then
    match re_search search_string line with
    | Some b => Ok b
    | None => Raise ReError
    end
  else Ok (Str.contains search_string fline).

(** The [for] loop of the exclusive branch (lines 819-825). *)
Fixpoint mark_matches (o : options) (search_strings : list string)
    (line fline : string) (m : gmap string Z) : result (gmap string Z) :=
  match search_strings with
  | [] => Ok m
  | s :: rest =>
      hit ← term_hit o s line fline;
      mark_matches o rest line fline
                   (if hit : bool then <[s := 1]> m else m)
  end.

(** The [for] loop of the inclusive branch (lines 830-836). *)
Fixpoint any_match (o : options) (search_strings : list string)
    (line fline : string) (mt : bool) : result bool :=
  match search_strings with
  | [] => Ok mt
  | s :: rest =>
      hit ← term_hit o s line fline;
      any_match o rest line fline (if hit : bool then true else mt)
  end.

(** The always-shown messages (lines 805-815). *)
Definition force_match (o : options) (fline : string) (mt : bool) : bool :=
  let mt := if Str.startswith fline (uvm_fatal_string o) then true else mt in
  let mt := if always_show_errors o && Str.startswith fline (uvm_error_string o)
            then true else mt in
  let mt := if always_show_warnings o && Str.startswith fline (uvm_warning_string o)
            then true else mt in
  mt.

(** The search for a match in the current line (lines 817-836): the
    dictionary [matches] and the flag [match] after it. *)
Definition match_terms (o : options) (search_strings : list string)
    (line fline : string) (m : gmap string Z) (mt : bool)
  : result (gmap string Z * bool) :=
  if search_exclusive o then
    m1 ← mark_matches o search_strings line fline m;
    Ok (m1, if (size m1 =? length search_strings)%nat
               && (0 <? length search_strings)%nat
            then true else mt)
  else
    mt1 ← any_match o search_strings line fline mt;
    Ok (m, mt1).

(** The line as it is stored and printed (lines 735-738), and the copy
    the markers and the plain terms are compared with (lines 741-745). *)
Definition stored_line (raw : string) : string :=
  Str.sub_escapes false (Str.rstrip raw).

Definition compared_line (o : options) (raw : string) : string :=
  fold_case o (stored_line raw).

(** The two tests of line 748, and the test of line 793. *)
Definition starts_message (o : options) (raw : string) : bool :=
  Str.startswith (compared_line o raw) (uvm_message_string o).

Definition ends_test (o : options) (raw : string) : bool :=
  Str.contains (end_of_test_string o) (compared_line o raw).

(** The boundary test with its body (lines 747-790). *)
Definition boundary (o : options) (st : state T) (raw : string) : state T :=
  if starts_message o raw || ends_test o raw then close_block o st else st.

(** One turn of the loop (lines 732-836). *)
Definition step (o : options) (search_strings : list string)
    (line_number_width : nat) (st : state T) (raw : string)
  : result (outcome T) :=
  let number := S (line_number st) in
  let line := stored_line raw in
  let fline := compared_line o raw in
  let st1 := boundary o st raw in
  if ends_test o raw then Ok (Return (text st1))
  else
    let buffer1 := buffer st1 ++ [(Str.ljust number line_number_width, line)] in
    let match1 := force_match o fline (matched st1) in
    '(matches1, match2) ← match_terms o search_strings line fline
                                       (matches st1) match1;
    Ok (Continue {| messages := messages st1; buffer := buffer1;
                    text := text st1; matches := matches1;
                    matched := match2; last := last st1;
                    context := context st1; line_number := number |}).

(** After the loop (lines 838-872). *)
Definition finish (o : options) (st : state T) : list T :=
  if matched st || (0 <? context st) then
    let text1 := if last st then text st else text st ++ [separation] in
    let messages1 := match messages st with
                     | [] => []
                     | _ :: rest => rest
                     end in
    let messages2 := slice_from ((search_context o + 1) * -1) messages1 in
    text1 ++ print_messages messages2 ++ map emit (buffer st)
  else text st.

(** [for line in file: ...] followed by the closing flush. *)
Fixpoint loop (o : options) (search_strings : list string)
    (line_number_width : nat) (st : state T) (file : list string)
  : result (list T) :=
  match file with
  | [] => Ok (finish o st)
  | raw :: rest =>
      r ← step o search_strings line_number_width st raw;
      match r with
      | Return out => Ok out
      | Continue st' => loop o search_strings line_number_width st' rest
      end
  end.

(** [search] once the options are decoded and the file is read
    (lines 707-872); [file] is what [readlines] returned. *)
Definition scan (o : options) (file : list string)
    (search_strings : list string) : result (list T) :=
  let search_strings := map (fold_case o) search_strings in
  loop o search_strings (line_number_width file) initial file.

End Scanner.

(** [str(location) + ": " + entry + "\n"] or [entry + "\n"]
    (lines 771-774, 855-858, 862-865). *)
Definition render_entry (show : bool) (e : entry) : string :=
  if show then fst e +:+ ": " +:+ snd e +:+ Str.nl else snd e +:+ Str.nl.

(** [SearchFile.search(file_name, search_strings, search_options)], with
    the lines of the file in place of its name. *)
Definition search (re_search : string -> string -> option bool)
    (file : list string) (search_strings : list string)
    (search_options : gmap string pyval) : result (list string) :=
  o ← decode_options search_options;
  scan re_search (SEPERATION +:+ Str.nl) (render_entry (show_line_numbers o))
       o file search_strings.

(** The same scanner keeping apart what it appends: a separation line or
    a stored line. *)
Inductive event : Type :=
| Separation
| Stored (e : entry).

Definition render (show : bool) (ev : event) : string :=
  match ev with
  | Separation => SEPERATION +:+ Str.nl
  | Stored e => render_entry show e
  end.

Definition search_events (re_search : string -> string -> option bool)
    (file : list string) (search_strings : list string)
    (search_options : gmap string pyval) : result (list event) :=
  o ← decode_options search_options;
  scan re_search Separation Stored o file search_strings.

(** A stand-in for [re.search] on patterns without metacharacters, where
    it is substring search. *)
Definition literal_search (pattern line : string) : option bool :=
  Some (Str.contains pattern line).

Definition example_file : list string :=
  ["# UVM_INFO hello"; "line X"; "# UVM_ERROR bad thing";
   "# --- UVM Report Summary ---"].

(** [n] lines as [text] holds them, each closed by a newline. *)
Definition with_newlines (l : list string) : list string :=
  map (fun s => s +:+ Str.nl) l.

(** The option keys [search] looks up. *)
Definition recognized_keys : list string :=
  ["SEARCH_CASE_SENSITIVE"; "SEARCH_EXCLUSIVE"; "SHOW_ERRORS"; "SHOW_WARNINGS";
   "SHOW_LINE_NUMBERS"; "SEARCH_REGEX"; "SEARCH_CONTEXT"].


(** ** Auxiliary definitions *)

Definition map_result {A B : Type} (g : A -> B) (r : result A) : result B :=
  match r with
  | Ok a => Ok (g a)
  | Raise e => Raise e
  end.

(** The options with another [search_exclusive]. *)
Definition with_exclusive (x : bool) (o : options) : options :=
  {| search_regex          := search_regex o;
     search_case_sensitive := search_case_sensitive o;
     search_exclusive      := x;
     always_show_errors    := always_show_errors o;
     always_show_warnings  := always_show_warnings o;
     show_line_numbers     := show_line_numbers o;
     search_context        := search_context o |}.

(** A second file of messages: two matches, three lines apart. *)
Definition adjacent_runs_file : list string :=
  ["# UVM_FATAL one"; "# UVM_INFO two"; "# UVM_INFO three"; "# UVM_FATAL four";
   "# UVM_INFO five"].

Section MapText.

Context {T U : Type}.
Variable f : T -> U.

(** The state and an outcome with [f] applied to what is printed. *)
Definition map_text (st : state T) : state U :=
  {| messages := messages st; buffer := buffer st; text := map f (text st);
     matches := matches st; matched := matched st; last := last st;
     context := context st; line_number := line_number st |}.

Definition map_outcome (r : outcome T) : outcome U :=
  match r with
  | Continue st => Continue (map_text st)
  | Return out => Return (map f out)
  end.

End MapText.

Definition is_stored (ev : event) : bool :=
  match ev with
  | Stored _ => true
  | Separation => false
  end.

(** Every separation line is followed by a stored line. *)
Fixpoint separated (evs : list event) : bool :=
  match evs with
  | [] => true
  | Stored _ :: rest => separated rest
  | Separation :: rest =>
      match rest with
      | Stored _ :: _ => separated rest
      | _ => false
      end
  end.

(** The first thing printed, if any, is a separation line. *)
Definition opens_separated (evs : list event) : bool :=
  match evs with
  | Stored _ :: _ => false
  | _ => true
  end.

(** What holds of the state of [search_events] between two turns. *)
Definition separation_invariant (st : state event) : Prop :=
  separated (text st) = true
  /\ opens_separated (text st) = true
  /\ (last st = true -> text st <> [])
  /\ (matched st = true \/ 0 < context st -> buffer st <> []).

(** The line [e] waits in the buffer of a block that has matched, or is
    printed already. *)
Definition kept {T : Type} (emit : entry -> T) (e : entry) (st : state T) : Prop :=
  (In e (buffer st) /\ matched st = true) \/ In (emit e) (text st).

(** The turns of the loop over the first lines of a file: the state they
    leave, or what the loop has returned or raised on the way. *)
Fixpoint run (re_search : string -> string -> option bool) {T : Type}
    (separation : T) (emit : entry -> T) (o : options)
    (search_strings : list string) (line_number_width : nat)
    (st : state T) (file : list string) : result (outcome T) :=
  match file with
  | [] => Ok (Continue st)
  | raw :: rest =>
      r ← step re_search separation emit o search_strings line_number_width st raw;
      match r with
      | Return out => Ok (Return out)
      | Continue st' =>
          run re_search separation emit o search_strings line_number_width st' rest
      end
  end.

(** Two states that differ in the formatted line numbers only. *)
Definition same_lines {T : Type} (st st' : state T) : Prop :=
  map (map snd) (messages st) = map (map snd) (messages st')
  /\ map snd (buffer st) = map snd (buffer st')
  /\ text st = text st'
  /\ matches st = matches st'
  /\ matched st = matched st'
  /\ last st = last st'
  /\ context st = context st'.

(** ** The stored lines of a file *)

(** The lines of a file as the loop stores them, numbered from [n + 1]. *)
Fixpoint stored_entries (w n : nat) (file : list string) : list entry :=
  match file with
  | [] => []
  | raw :: rest => (Str.ljust (S n) w, stored_line raw) :: stored_entries w (S n) rest
  end.

(** The lines in front of the first line that ends the test. *)
Fixpoint scanned_lines (o : options) (file : list string) : list string :=
  match file with
  | [] => []
  | raw :: rest => if ends_test o raw then [] else raw :: scanned_lines o rest
  end.

(** The stored lines among what is printed. *)
Fixpoint stored_of (evs : list event) : list entry :=
  match evs with
  | [] => []
  | Separation :: rest => stored_of rest
  | Stored e :: rest => e :: stored_of rest
  end.

(** The lines read so far are printed, dropped from the history, waiting in
    the history or waiting in the buffer, in this order. *)
Definition accounted (w : nat) (read : list string) (st : state event) : Prop :=
  line_number st = length read
  /\ exists gone : list entry,
      stored_entries w 0 read = gone ++ concat (messages st) ++ buffer st
      /\ stored_of (text st) `sublist_of` gone.

(** The options with another [show_line_numbers]. *)
Definition with_line_numbers (x : bool) (o : options) : options :=
  {| search_regex          := search_regex o;
     search_case_sensitive := search_case_sensitive o;
     search_exclusive      := search_exclusive o;
     always_show_errors    := always_show_errors o;
     always_show_warnings  := always_show_warnings o;
     show_line_numbers     := x;
     search_context        := search_context o |}.

(** No always-show rule accepts the line and no term hits it. *)
Definition unmatched (re_search : string -> string -> option bool) (o : options)
    (search_strings : list string) (raw : string) : Prop :=
  force_match o (compared_line o raw) false = false
  /\ Forall (fun s => term_hit re_search o (fold_case o s) (stored_line raw)
                        (compared_line o raw) = Ok false) search_strings.

(** An always-show rule accepts the line, or the search is inclusive and
    a term hits it. *)
Definition line_matches (re_search : string -> string -> option bool)
    (o : options) (search_strings : list string) (raw : string) : Prop :=
  force_match o (compared_line o raw) false = true
  \/ (search_exclusive o = false
      /\ Exists (fun s => term_hit re_search o s (stored_line raw)
                           (compared_line o raw) = Ok true) search_strings).

(** The line neither opens a message nor ends the test. *)
Definition continues_block (o : options) (raw : string) : Prop :=
  starts_message o raw = false /\ ends_test o raw = false.

(** A stand-in for [re.search] in which the pattern "(" does not compile
    (a parenthesis that is never closed) and the other patterns are
    literal. *)
Definition failing_search (pattern line : string) : option bool :=
  if String.eqb pattern "(" then None else literal_search pattern line.

(** The history holds at most [search_context + 1] messages and the count
    of pending context messages lies between 0 and [search_context]. *)
Definition within_context {T : Type} (o : options) (st : state T) : Prop :=
  Z.of_nat (length (messages st)) <= search_context o + 1
  /\ 0 <= context st <= search_context o.

(** The options that the empty dictionary decodes to. *)
Definition default_options : options :=
  {| search_regex := false; search_case_sensitive := false;
     search_exclusive := false; always_show_errors := false;
     always_show_warnings := false; show_line_numbers := false;
     search_context := 0 |}.

(** ** The search form (class [SearchGUI], lines 84-588)

    Of the form, the attributes that [search_file] reads and the functions
    that change them; the widgets are left out, but for the dictionary of
    the additional search rows and the state of the "+" button. *)

Module SearchGUI.

(** [d[key] = v] on a dictionary kept in insertion order. *)
Fixpoint dict_set {V : Type} (key : nat) (v : V) (d : list (nat * V))
  : list (nat * V) :=
  match d with
  | [] => [(key, v)]
  | (k, v') :: rest =>
      if (k =? key)%nat then (k, v) :: rest else (k, v') :: dict_set key v rest
  end.

(** [del d[key]]; [None] stands for the [KeyError]. *)
Fixpoint dict_del {V : Type} (key : nat) (d : list (nat * V))
  : option (list (nat * V)) :=
  match d with
  | [] => None
  | (k, v) :: rest =>
      if (k =? key)%nat then Some rest
      else match dict_del key rest with
           | Some rest' => Some ((k, v) :: rest')
           | None => None
           end
  end.

Definition keys {V : Type} (d : list (nat * V)) : list nat := map fst d.

Record form : Type := {
  file_name_entry             : string;
  search_string_entries       : list (nat * string);
  search_frame_next           : nat;
  search_inclusivity          : string;
  search_case_sensitive       : bool;
  search_type                 : string;
  search_context              : Z;
  search_always_show_errors   : bool;
  search_always_show_warnings : bool;
  search_show_line_numbers    : bool;
  SEARCH_OR                   : list (nat * unit);   (* the additional rows *)
  BUTTON_ADD_SEARCH           : bool                 (* its state is 'normal' *)
}.

(** The form that [__init__] leaves (lines 93-116, 266-268, 299): one
    empty search field, with key 0. *)
Definition init : form :=
  {| file_name_entry := "";
     search_string_entries := [(0%nat, "")];
     search_frame_next := 1;
     search_inclusivity := "Or";
     search_case_sensitive := false;
     search_type := "text_search";
     search_context := 0;
     search_always_show_errors := true;
     search_always_show_warnings := true;
     search_show_line_numbers := true;
     SEARCH_OR := [];
     BUTTON_ADD_SEARCH := true |}.

(** Lines 307-355. *)
Definition search_additional_fields (f : form) : form :=
  let key := search_frame_next f in
  let sfe := dict_set key tt (SEARCH_OR f) in
  {| file_name_entry := file_name_entry f;
     search_string_entries := dict_set key "" (search_string_entries f);
     search_frame_next := S key;
     search_inclusivity := search_inclusivity f;
     search_case_sensitive := search_case_sensitive f;
     search_type := search_type f;
     search_context := search_context f;
     search_always_show_errors := search_always_show_errors f;
     search_always_show_warnings := search_always_show_warnings f;
     search_show_line_numbers := search_show_line_numbers f;
     SEARCH_OR := sfe;
     BUTTON_ADD_SEARCH :=
       if (9 <=? length sfe)%nat then false else BUTTON_ADD_SEARCH f |}.

(** Lines 364-378; [None] when a [del] raises [KeyError]. *)
Definition search_fewer_fields (key : nat) (f : form) : option form :=
  match dict_del key (SEARCH_OR f) with
  | None => None
  | Some sfe =>
      match dict_del key (search_string_entries f) with
      | None => None
      | Some entries =>
          Some {| file_name_entry := file_name_entry f;
                  search_string_entries := entries;
                  search_frame_next := search_frame_next f;
                  search_inclusivity := search_inclusivity f;
                  search_case_sensitive := search_case_sensitive f;
                  search_type := search_type f;
                  search_context := search_context f;
                  search_always_show_errors := search_always_show_errors f;
                  search_always_show_warnings := search_always_show_warnings f;
                  search_show_line_numbers := search_show_line_numbers f;
                  SEARCH_OR := sfe;
                  BUTTON_ADD_SEARCH :=
                    if (length sfe <? 9)%nat then true else BUTTON_ADD_SEARCH f |}
      end
  end.

(** Lines 394-398. *)
Definition toggle_search_inclusivity (f : form) : form :=
  {| file_name_entry := file_name_entry f;
     search_string_entries := search_string_entries f;
     search_frame_next := search_frame_next f;
     search_inclusivity :=
       if String.eqb (search_inclusivity f) "Or" then "And" else "Or";
     search_case_sensitive := search_case_sensitive f;
     search_type := search_type f;
     search_context := search_context f;
     search_always_show_errors := search_always_show_errors f;
     search_always_show_warnings := search_always_show_warnings f;
     search_show_line_numbers := search_show_line_numbers f;
     SEARCH_OR := SEARCH_OR f;
     BUTTON_ADD_SEARCH := BUTTON_ADD_SEARCH f |}.

(** The options dictionary that [search_file] builds (lines 540-572). *)
Definition search_options (f : form) : gmap string pyval :=
  let d : gmap string pyval := ∅ in
  let d := <["SEARCH_CASE_SENSITIVE" := PyBool (search_case_sensitive f)]> d in
  let d := <["SEARCH_EXCLUSIVE" :=
               PyBool (String.eqb (search_inclusivity f) "And")]> d in
  let d := <["SHOW_ERRORS" := PyBool (search_always_show_errors f)]> d in
  let d := <["SHOW_WARNINGS" := PyBool (search_always_show_warnings f)]> d in
  let d := <["SHOW_LINE_NUMBERS" := PyBool (search_show_line_numbers f)]> d in
  let d := if String.eqb (search_type f) "regex_search"
           then <["SEARCH_CASE_SENSITIVE" := PyBool true]>
                  (<["SEARCH_REGEX" := PyBool true]> d)
           else <["SEARCH_REGEX" := PyBool false]> d in
  <["SEARCH_CONTEXT" := PyInt (search_context f)]> d.

(** The terms that [search_file] collects (lines 574-578): the fields that
    are not empty, in the order of the dictionary. *)
Fixpoint filled (entries : list (nat * string)) : list string :=
  match entries with
  | [] => []
  | (_, value) :: rest =>
      if String.eqb value "" then filled rest else value :: filled rest
  end.

Definition search_strings (f : form) : list string :=
  filled (search_string_entries f).

(** What the functions above keep: the search fields are the first field
    (key 0) and one field for each additional row, under keys that are
    pairwise distinct and below the next key; there are at most 9
    additional rows, and the "+" button is disabled exactly when there are
    9; the inclusivity reads "Or" or "And". *)
Definition form_ok (f : form) : Prop :=
  keys (search_string_entries f) = 0%nat :: keys (SEARCH_OR f)
  /\ NoDup (keys (search_string_entries f))
  /\ Forall (fun k => (k < search_frame_next f)%nat) (keys (search_string_entries f))
  /\ (length (SEARCH_OR f) <= 9)%nat
  /\ (BUTTON_ADD_SEARCH f = false <-> length (SEARCH_OR f) = 9%nat)
  /\ (search_inclusivity f = "Or" \/ search_inclusivity f = "And").

End SearchGUI.

(** A list of keys without the first occurrence of [key]. *)
Fixpoint del_first (key : nat) (l : list nat) : list nat :=
  match l with
  | [] => []
  | k :: rest => if (k =? key)%nat then rest else k :: del_first key rest
  end.



(** Every character of the string is white space. *)
Fixpoint all_space (s : string) : bool :=
  match s with
  | EmptyString => true
  | String c r => Str.isspace c && all_space r
  end.

(** The string holds no escape character. *)
Fixpoint escape_free (s : string) : bool :=
  match s with
  | EmptyString => true
  | String c r => negb (Ascii.eqb c "027") && escape_free r
  end.

(** ** Messages and the context around them *)

(** The number of message lines among [lines]. *)
Fixpoint count_messages (o : options) (lines : list string) : nat :=
  match lines with
  | [] => 0
  | raw :: rest =>
      ((if starts_message o raw then 1 else 0) + count_messages o rest)%nat
  end.

(** The index of the message that line [i] (counted from 0) of [lines]
    belongs to: the first line opens message 0, whatever it holds, and
    every later message line opens the next message. *)
Definition block_index (o : options) (lines : list string) (i : nat) : nat :=
  count_messages o (take i (tail lines)).

(** The index of the message that the last of [lines] belongs to. *)
Definition current_block (o : options) (lines : list string) : nat :=
  count_messages o (tail lines).

(** [e] is the stored line of a line of message [b]. *)
Definition in_block (o : options) (w : nat) (lines : list string) (b : nat)
    (e : entry) : Prop :=
  exists i raw, lines !! i = Some raw
                /\ e = (Str.ljust (S i) w, stored_line raw)
                /\ block_index o lines i = b.

(** An always-show rule accepts a line of message [b]. *)
Definition block_forced (o : options) (lines : list string) (b : nat) : Prop :=
  exists j raw, lines !! j = Some raw
                /\ force_match o (compared_line o raw) false = true
                /\ block_index o lines j = b.

(** [e] is the stored line of a line of a message that an always-show
    rule accepts, or of one of the [search_context] messages before or
    behind such a message. *)
Definition near_forced (o : options) (w : nat) (lines : list string) (e : entry)
  : Prop :=
  exists b f, in_block o w lines b e /\ block_forced o lines f
              /\ Z.of_nat b <= Z.of_nat f + search_context o
              /\ Z.of_nat f <= Z.of_nat b + search_context o.

(** [t] is the separation line, or what is printed for a stored line that
    satisfies [P]. *)
Definition allowed {T : Type} (separation : T) (emit : entry -> T)
    (P : entry -> Prop) (t : T) : Prop :=
  t = separation \/ exists e, t = emit e /\ P e.

(** What holds between two turns of a search without terms, [read] being
    the lines read so far: the buffer holds lines of the current message,
    the history the messages right in front of it, what is printed lies
    near a message that an always-show rule accepts, and so does the
    current message when the flag is set or context is pending. *)
Definition bounded {T : Type} (separation : T) (emit : entry -> T) (o : options)
    (w : nat) (read : list string) (st : state T) : Prop :=
  line_number st = length read
  /\ buffer st <> []
  /\ Forall (in_block o w read (current_block o read)) (buffer st)
  /\ (forall ms1 m ms2, messages st = ms1 ++ m :: ms2 ->
        Forall (fun e => exists b, in_block o w read b e
                                   /\ (b + S (length ms2))%nat = current_block o read) m)
  /\ Z.of_nat (length (messages st)) <= search_context o + 1
  /\ Forall (allowed separation emit (near_forced o w read)) (text st)
  /\ (matched st = true -> block_forced o read (current_block o read))
  /\ (0 < context st ->
      exists f, block_forced o read f /\ (f <= current_block o read)%nat
                /\ Z.of_nat (current_block o read) + context st
                   <= Z.of_nat f + search_context o + 1).

(** ** A negative context count *)

(** The line [e] is printed, or waits in the history or in the buffer. *)
Definition retained {T : Type} (emit : entry -> T) (e : entry) (st : state T)
  : Prop :=
  In (emit e) (text st) \/ In e (concat (messages st)) \/ In e (buffer st).

(** The history is empty and nothing but separation lines is printed. *)
Definition only_separations {T : Type} (separation : T) (st : state T) : Prop :=
  messages st = [] /\ Forall (fun t => t = separation) (text st).

(** * Properties *)

(** ** The string functions on examples *)

Example rstrip_example :
  Str.rstrip ("  a b " +:+ String "009" (String "013" Str.nl)) = "  a b".
Proof. reflexivity. Qed.

Example lower_example : Str.lower "# UVM_Error [x]" = "# uvm_error [x]".
Proof. reflexivity. Qed.

Example contains_example :
  Str.contains "warn" "a warning" = true /\ Str.contains "WARN" "a warning" = false
  /\ Str.contains "" "" = true.
Proof. repeat split; reflexivity. Qed.

Example ljust_example : Str.ljust 7 3 = "7  " /\ Str.ljust 1234 2 = "1234".
Proof. split; reflexivity. Qed.

(** Colour codes are removed; an escape that no "m" closes is kept. *)
Example sub_escapes_example :
  Str.sub_escapes false
    (String "027" "[31mred" +:+ String "027" "[0m x" +:+ String "027" "[ no")
  = "red x" +:+ String "027" "[ no".
Proof. reflexivity. Qed.

Example slice_from_example :
  slice_from (-2) [1; 2; 3; 4] = [3; 4] /\ slice_from 0 [1; 2; 3; 4] = [1; 2; 3; 4]
  /\ slice_from 1 [1; 2; 3; 4] = [2; 3; 4] /\ slice_from (-9) [1; 2; 3; 4] = [1; 2; 3; 4]
  /\ slice_from 7 [1; 2; 3; 4] = [].
Proof. repeat split; reflexivity. Qed.

(** The second example of the specification: the match, then one message
    of context behind it. *)
Example context_example (re : string -> string -> option bool) :
  search re example_file ["hello"]
    {[ "SEARCH_EXCLUSIVE" := PyBool false; "SEARCH_CONTEXT" := PyInt 1;
       "SHOW_LINE_NUMBERS" := PyBool false ]}
  = Ok (with_newlines
          ["..."; "# UVM_INFO hello"; "line X"; "# UVM_ERROR bad thing"]).
Proof. reflexivity. Qed.

(** ** The option dictionary *)

Lemma enabled_insert_ne (opts : gmap string pyval) (key key' : string) (v : pyval) :
  key <> key' -> enabled (<[key := v]> opts) key' = enabled opts key'.
Proof.
  intros Hne. unfold enabled. by rewrite lookup_insert_ne.
Qed.

Lemma enabled_insert_eq (opts : gmap string pyval) (key : string) (v : pyval) :
  enabled (<[key := v]> opts) key = eq_True v.
Proof.
  unfold enabled. by rewrite lookup_insert_eq.
Qed.

Lemma decode_options_unrecognized (opts : gmap string pyval) (key : string) (v : pyval) :
  key ∉ recognized_keys ->
  decode_options (<[key := v]> opts) = decode_options opts.
Proof.
  intros Hkey. unfold decode_options.
  assert (Hk : forall k, k ∈ recognized_keys -> key <> k)
    by (intros k Hk ->; contradiction).
  rewrite !enabled_insert_ne, lookup_insert_ne;
    first reflexivity; apply Hk; unfold recognized_keys; set_solver.
Qed.

Lemma decode_options_flags (opts : gmap string pyval) (o : options) :
  decode_options opts = Ok o ->
  search_regex o = enabled opts "SEARCH_REGEX"
  /\ search_case_sensitive o
     = enabled opts "SEARCH_CASE_SENSITIVE" || enabled opts "SEARCH_REGEX"
  /\ search_exclusive o = enabled opts "SEARCH_EXCLUSIVE"
  /\ always_show_errors o = enabled opts "SHOW_ERRORS"
  /\ always_show_warnings o = enabled opts "SHOW_WARNINGS"
  /\ show_line_numbers o = enabled opts "SHOW_LINE_NUMBERS".
Proof.
  unfold decode_options. intros H.
  destruct (opts !! "SEARCH_CONTEXT") as [v|]; [destruct v|]; simplify_eq/=;
    repeat split;
    by destruct (enabled opts "SEARCH_REGEX"), (enabled opts "SEARCH_CASE_SENSITIVE").
Qed.

Lemma fold_case_sensitive (o : options) (s : string) :
  search_case_sensitive o = true -> fold_case o s = s.
Proof. unfold fold_case. by intros ->. Qed.

(** C10 (counterexample).  [SHOW_ERRORS] holding the integer 1, a value
    other than [True], is not treated as the disabled default: [1 == True]
    holds, the error message is shown, while without the entry nothing is. *)
Lemma integer_one_enables_option :
  PyInt 1 <> PyBool true
  /\ (forall re, search re example_file [] {[ "SHOW_ERRORS" := PyInt 1 ]}
                 = Ok (with_newlines ["..."; "# UVM_ERROR bad thing"]))
  /\ (forall re, search re example_file [] ∅ = Ok []).
Proof.
  split; [discriminate|]. split; intros re; reflexivity.
Qed.

(** C10 (amended).  For every option dictionary: a boolean option whose
    key is absent, or present with a value that does not compare equal to
    [True], is disabled; the decoded options are what the six boolean
    entries say (the case sensitivity also what [SEARCH_REGEX] says); when
    [SEARCH_CONTEXT] is absent the options decode without failure and the
    context count is 0; keys that [search] does not look up change nothing;
    and decoding fails only on a [SEARCH_CONTEXT] entry that [int]
    refuses. *)
Theorem options_default_when_absent_or_unequal (opts : gmap string pyval) :
  (forall key,
      (forall v, opts !! key = Some v -> eq_True v = false) ->
      enabled opts key = false)
  /\ (forall o, decode_options opts = Ok o ->
      search_regex o = enabled opts "SEARCH_REGEX"
      /\ search_case_sensitive o
         = enabled opts "SEARCH_CASE_SENSITIVE" || enabled opts "SEARCH_REGEX"
      /\ search_exclusive o = enabled opts "SEARCH_EXCLUSIVE"
      /\ always_show_errors o = enabled opts "SHOW_ERRORS"
      /\ always_show_warnings o = enabled opts "SHOW_WARNINGS"
      /\ show_line_numbers o = enabled opts "SHOW_LINE_NUMBERS")
  /\ (opts !! "SEARCH_CONTEXT" = None ->
      exists o, decode_options opts = Ok o /\ search_context o = 0)
  /\ (forall key v re file terms,
      key ∉ recognized_keys ->
      search re file terms (<[key := v]> opts) = search re file terms opts)
  /\ (forall e, decode_options opts = Raise e ->
      e = TypeError /\ opts !! "SEARCH_CONTEXT" = Some PyNone).
Proof.
  split; [|split; [|split; [|split]]].
  - intros key Hkey. unfold enabled.
    destruct (opts !! key) as [v|] eqn:Hv; [by apply Hkey | reflexivity].
  - apply decode_options_flags.
  - intros Hctx. unfold decode_options. rewrite Hctx. simpl. by eexists.
  - intros key v re file terms Hkey. unfold search.
    by rewrite decode_options_unrecognized.
  - intros e. unfold decode_options.
    destruct (opts !! "SEARCH_CONTEXT") as [[]|]; simpl; try done.
    by intros [= <-].
Qed.

Lemma options_default_witness :
  (forall v, ({[ "SHOW_WARNINGS" := PyInt 2 ]} : gmap string pyval) !! "SHOW_WARNINGS"
             = Some v -> eq_True v = false)
  /\ enabled {[ "SHOW_WARNINGS" := PyInt 2 ]} "SHOW_WARNINGS" = false
  /\ ({[ "SHOW_WARNINGS" := PyInt 2 ]} : gmap string pyval) !! "SEARCH_CONTEXT" = None
  /\ (exists o, decode_options {[ "SHOW_WARNINGS" := PyInt 2 ]} = Ok o
                /\ search_context o = 0)
  /\ ("VERBOSE" ∉ recognized_keys)
  /\ search literal_search example_file ["hello"]
       (<["VERBOSE" := PyBool true]> {[ "SHOW_WARNINGS" := PyInt 2 ]})
     = search literal_search example_file ["hello"] {[ "SHOW_WARNINGS" := PyInt 2 ]}.
Proof.
  assert (H1 : forall v, ({[ "SHOW_WARNINGS" := PyInt 2 ]} : gmap string pyval)
                           !! "SHOW_WARNINGS" = Some v -> eq_True v = false).
  { intros v Hv. vm_compute in Hv. by simplify_eq. }
  assert (H2 : "VERBOSE" ∉ recognized_keys).
  { unfold recognized_keys. intros H.
    repeat (apply elem_of_cons in H as [H|H]; [discriminate|]).
    by apply elem_of_nil in H. }
  destruct (options_default_when_absent_or_unequal {[ "SHOW_WARNINGS" := PyInt 2 ]})
    as (Hoff & _ & Hctx & Hextra & _).
  split; [exact H1|]. split; [exact (Hoff _ H1)|]. split; [reflexivity|].
  split; [exact (Hctx eq_refl)|].
  split; [exact H2|]. exact (Hextra _ _ _ _ _ H2).
Defined.

(** C5.  The worked example of the specification. *)
Theorem worked_example (re : string -> string -> option bool) :
  search re
    ["# UVM_INFO hello"; "line X"; "# UVM_ERROR bad thing";
     "# --- UVM Report Summary ---"]
    []
    {[ "SHOW_ERRORS" := PyBool true; "SHOW_LINE_NUMBERS" := PyBool false;
       "SEARCH_CONTEXT" := PyInt 0 ]}
  = Ok (with_newlines ["..."; "# UVM_ERROR bad thing"]).
Proof. reflexivity. Qed.

(** C1 (the code at the failing input).  Exclusive search for "A" and
    "B".  A message with "A" on one line and "B" on another is printed, and
    a first message with "A" only is not.  But over four messages none of
    which holds both terms, [matches] is filled by the first two and never
    emptied: the second, third and fourth message are all printed. *)
Theorem exclusive_matches_survive_block (re : string -> string -> option bool) :
  search re
    ["# UVM_INFO one"; "with A"; "with B"; "# --- UVM Report Summary ---"]
    ["A"; "B"]
    {[ "SEARCH_EXCLUSIVE" := PyBool true; "SEARCH_CASE_SENSITIVE" := PyBool true ]}
  = Ok (with_newlines ["..."; "# UVM_INFO one"; "with A"; "with B"])
  /\ search re
       ["# UVM_INFO A"; "# UVM_INFO two"]
       ["A"; "B"]
       {[ "SEARCH_EXCLUSIVE" := PyBool true; "SEARCH_CASE_SENSITIVE" := PyBool true ]}
     = Ok []
  /\ search re
       ["# UVM_INFO A"; "# UVM_INFO B"; "# UVM_INFO A"; "# UVM_INFO done"]
       ["A"; "B"]
       {[ "SEARCH_EXCLUSIVE" := PyBool true; "SEARCH_CASE_SENSITIVE" := PyBool true ]}
     = Ok (with_newlines ["..."; "# UVM_INFO B"; "# UVM_INFO A"; "# UVM_INFO done"]).
Proof. repeat split; reflexivity. Qed.

(** C4 (the code at the failing input).  Context 1 and one matching
    message, the second and last of the file: the closing flush removes
    the first message from the history before printing, so only the match
    is printed; with a line that closes the message inside the loop both
    are. *)
Theorem closing_flush_drops_context (re : string -> string -> option bool) :
  search re ["# UVM_INFO a"; "# UVM_FATAL b"] [] {[ "SEARCH_CONTEXT" := PyInt 1 ]}
  = Ok (with_newlines ["..."; "# UVM_FATAL b"])
  /\ search re ["# UVM_INFO a"; "# UVM_FATAL b"; "# --- UVM Report Summary ---"]
       [] {[ "SEARCH_CONTEXT" := PyInt 1 ]}
     = Ok (with_newlines ["..."; "# UVM_INFO a"; "# UVM_FATAL b"]).
Proof. split; reflexivity. Qed.

(** ** Slices *)

Lemma slice_from_snoc {A : Type} (c : Z) (ms : list A) (b : A) :
  0 <= c ->
  slice_from ((c + 1) * -1) (ms ++ [b])
  = drop (Z.to_nat (Z.of_nat (length ms) - c)) ms ++ [b].
Proof.
  intros Hc. unfold slice_from.
  destruct ((c + 1) * -1 <? 0) eqn:Hneg; [|apply Z.ltb_ge in Hneg; lia].
  rewrite length_app. simpl.
  replace (Z.to_nat (Z.max (Z.of_nat (length ms + 1) + (c + 1) * -1) 0))
    with (Z.to_nat (Z.of_nat (length ms) - c)) by lia.
  apply drop_app_le. lia.
Qed.

Lemma slice_from_negative {A : Type} (c : Z) (ms : list A) :
  c < 0 -> slice_from ((c + 1) * -1) ms = drop (Z.to_nat (- (c + 1))) ms.
Proof.
  intros Hc. unfold slice_from.
  destruct ((c + 1) * -1 <? 0) eqn:Hneg; [apply Z.ltb_lt in Hneg; lia|].
  f_equal. lia.
Qed.

Lemma slice_from_Forall {A : Type} (P : A -> Prop) (k : Z) (ms : list A) :
  Forall P ms -> Forall P (slice_from k ms).
Proof.
  intros H. unfold slice_from. destruct (k <? 0); by apply Forall_drop.
Qed.

(** Closing a block leaves at most [search_context + 1] messages in the
    history, the latest ones. *)
Lemma close_block_trims {T : Type} (separation : T) (emit : entry -> T)
    (o : options) (st : state T) :
  0 <= search_context o ->
  let history := if (0 <? length (buffer st))%nat
                 then messages st ++ [buffer st] else messages st in
  (Z.of_nat (length (messages (close_block separation emit o st)))
   <= search_context o + 1)
  /\ (matched st || (0 <? context st) = false ->
      messages (close_block separation emit o st)
      = drop (length history - Z.to_nat (search_context o + 1)) history).
Proof.
  intros Hc history. unfold close_block. simpl. fold history.
  assert (Hs : slice_from ((search_context o + 1) * -1) history
               = drop (length history - Z.to_nat (search_context o + 1)) history).
  { unfold slice_from.
    destruct ((search_context o + 1) * -1 <? 0) eqn:Hneg;
      [|apply Z.ltb_ge in Hneg; lia].
    f_equal. lia. }
  rewrite Hs. destruct (matched st || (0 <? context st)); simpl.
  - split; [lia|done].
  - split; [|done]. rewrite length_drop. lia.
Qed.

(** ** The scanner does not look at what it appends *)

Section Naturality.

Variable re_search : string -> string -> option bool.
Context {T U : Type}.
Variable f : T -> U.
Variables (separation : T) (emit : entry -> T).
Variables (separation' : U) (emit' : entry -> U).
Hypothesis f_separation : f separation = separation'.
Hypothesis f_emit : forall e, f (emit e) = emit' e.


Lemma print_messages_map (ms : list (list entry)) :
  map f (print_messages emit ms) = print_messages emit' ms.
Proof.
  unfold print_messages. induction ms as [|m ms IH]; [reflexivity|].
  simpl. rewrite map_app, IH. f_equal.
  induction m as [|e m IHm]; [reflexivity|]. simpl. by rewrite f_emit, IHm.
Qed.

Lemma close_block_map (o : options) (st : state T) :
  close_block separation' emit' o (map_text f st)
  = map_text f (close_block separation emit o st).
Proof.
  unfold close_block, map_text. simpl.
  destruct (matched st || (0 <? context st)); simpl; [|reflexivity].
  f_equal. rewrite map_app, print_messages_map.
  destruct (last st); [reflexivity|].
  by rewrite map_app, <- f_separation.
Qed.

Lemma step_map (o : options) (terms : list string) (w : nat)
    (st : state T) (raw : string) :
  step re_search separation' emit' o terms w (map_text f st) raw
  = map_result (map_outcome f) (step re_search separation emit o terms w st raw).
Proof.
  assert (Hb : boundary separation' emit' o (map_text f st) raw
               = map_text f (boundary separation emit o st raw)).
  { unfold boundary.
    destruct (starts_message o raw || ends_test o raw);
      [apply close_block_map | reflexivity]. }
  unfold step. rewrite Hb.
  destruct (ends_test o raw); [reflexivity|]; simpl;
    match goal with
    | |- context [match_terms ?r ?o ?t ?l ?fl ?m ?mt] =>
        destruct (match_terms r o t l fl m mt) as [[m1 mt1]|e]
    end; reflexivity.
Qed.

Lemma finish_map (o : options) (st : state T) :
  finish separation' emit' o (map_text f st)
  = map f (finish separation emit o st).
Proof.
  unfold finish, map_text. simpl.
  destruct (matched st || (0 <? context st)); [|reflexivity].
  rewrite !map_app, print_messages_map, <- f_separation.
  f_equal; [by destruct (last st); rewrite ?map_app|].
  f_equal. rewrite map_map. apply map_ext. intros e. by rewrite f_emit.
Qed.

Lemma loop_map (o : options) (terms : list string) (w : nat)
    (file : list string) (st : state T) :
  loop re_search separation' emit' o terms w (map_text f st) file
  = map_result (map f) (loop re_search separation emit o terms w st file).
Proof.
  revert st. induction file as [|raw file IH]; intros st; simpl.
  - by rewrite finish_map.
  - rewrite step_map.
    destruct (step re_search separation emit o terms w st raw) as [[st'|out]|e];
      simpl; [apply IH | reflexivity | reflexivity].
Qed.

Lemma scan_map (o : options) (file terms : list string) :
  scan re_search separation' emit' o file terms
  = map_result (map f) (scan re_search separation emit o file terms).
Proof.
  unfold scan. rewrite <- loop_map. reflexivity.
Qed.

End Naturality.

(** [search] is [search_events] rendered. *)
Lemma search_renders_events (re : string -> string -> option bool)
    (file terms : list string) (opts : gmap string pyval) (o : options) :
  decode_options opts = Ok o ->
  search re file terms opts
  = map_result (map (render (show_line_numbers o)))
               (search_events re file terms opts).
Proof.
  intros Ho. unfold search, search_events. rewrite Ho. simpl.
  apply scan_map; reflexivity.
Qed.

(** ** One turn of the loop *)

Section Facts.

Variable re_search : string -> string -> option bool.
Context {T : Type}.
Variables (separation : T) (emit : entry -> T).
Variable o : options.

Lemma term_hit_raise (s line fline : string) (e : exn) :
  term_hit re_search o s line fline = Raise e ->
  e = ReError /\ search_regex o = true.
Proof.
  unfold term_hit. destruct (search_regex o); [|discriminate].
  destruct (re_search s line); [discriminate|]. by intros [= <-].
Qed.

Lemma mark_matches_raise (terms : list string) (line fline : string)
    (m : gmap string Z) (e : exn) :
  mark_matches re_search o terms line fline m = Raise e ->
  e = ReError /\ search_regex o = true /\ terms <> [].
Proof.
  revert m. induction terms as [|s terms IH]; intros m; simpl; [discriminate|].
  destruct (term_hit re_search o s line fline) as [hit|e'] eqn:Hhit; simpl.
  - intros H. destruct (IH _ H) as (-> & Hre & _). done.
  - intros [= <-]. destruct (term_hit_raise _ _ _ _ Hhit). done.
Qed.

Lemma any_match_raise (terms : list string) (line fline : string)
    (mt : bool) (e : exn) :
  any_match re_search o terms line fline mt = Raise e ->
  e = ReError /\ search_regex o = true /\ terms <> [].
Proof.
  revert mt. induction terms as [|s terms IH]; intros mt; simpl; [discriminate|].
  destruct (term_hit re_search o s line fline) as [hit|e'] eqn:Hhit; simpl.
  - intros H. destruct (IH _ H) as (-> & Hre & _). done.
  - intros [= <-]. destruct (term_hit_raise _ _ _ _ Hhit). done.
Qed.

Lemma any_match_true (terms : list string) (line fline : string) (b : bool) :
  any_match re_search o terms line fline true = Ok b -> b = true.
Proof.
  induction terms as [|s terms IH]; simpl; [by intros [= <-]|].
  destruct (term_hit re_search o s line fline) as [[]|]; simpl;
    [exact IH | exact IH | discriminate].
Qed.

Lemma match_terms_nil (line fline : string) (m : gmap string Z) (mt : bool) :
  match_terms re_search o [] line fline m mt = Ok (m, mt).
Proof.
  unfold match_terms. destruct (search_exclusive o); simpl; [|reflexivity].
  by rewrite andb_false_r.
Qed.

Lemma match_terms_true (terms : list string) (line fline : string)
    (m m1 : gmap string Z) (b : bool) :
  match_terms re_search o terms line fline m true = Ok (m1, b) -> b = true.
Proof.
  unfold match_terms. destruct (search_exclusive o).
  - destruct (mark_matches re_search o terms line fline m); simpl;
      [|discriminate].
    intros [= _ <-]. by destruct (_ && _).
  - destruct (any_match re_search o terms line fline true) eqn:Hany; simpl;
      [|discriminate].
    intros [= _ <-]. by apply any_match_true in Hany.
Qed.

Lemma match_terms_raise (terms : list string) (line fline : string)
    (m : gmap string Z) (mt : bool) (e : exn) :
  match_terms re_search o terms line fline m mt = Raise e ->
  e = ReError /\ search_regex o = true /\ terms <> [].
Proof.
  unfold match_terms. destruct (search_exclusive o).
  - destruct (mark_matches re_search o terms line fline m) eqn:Hm; simpl;
      [discriminate|].
    intros [= <-]. by apply mark_matches_raise in Hm.
  - destruct (any_match re_search o terms line fline mt) eqn:Hm; simpl;
      [discriminate|].
    intros [= <-]. by apply any_match_raise in Hm.
Qed.

Lemma force_match_spec (fline : string) (mt : bool) :
  force_match o fline mt
  = mt
    || Str.startswith fline (uvm_fatal_string o)
    || always_show_errors o && Str.startswith fline (uvm_error_string o)
    || always_show_warnings o && Str.startswith fline (uvm_warning_string o).
Proof.
  unfold force_match.
  by destruct mt, (Str.startswith fline (uvm_fatal_string o)),
    (always_show_errors o && Str.startswith fline (uvm_error_string o)),
    (always_show_warnings o && Str.startswith fline (uvm_warning_string o)).
Qed.

(** What a turn that goes on has done. *)
Lemma step_continue (terms : list string) (w : nat) (st st' : state T)
    (raw : string) :
  step re_search separation emit o terms w st raw = Ok (Continue st') ->
  forall st1, st1 = boundary separation emit o st raw ->
  ends_test o raw = false
  /\ messages st' = messages st1
  /\ buffer st' = buffer st1 ++ [(Str.ljust (S (line_number st)) w, stored_line raw)]
  /\ text st' = text st1
  /\ last st' = last st1
  /\ context st' = context st1
  /\ line_number st' = S (line_number st)
  /\ match_terms re_search o terms (stored_line raw) (compared_line o raw)
       (matches st1) (force_match o (compared_line o raw) (matched st1))
     = Ok (matches st', matched st').
Proof.
  unfold step. intros H st1 ->.
  destruct (ends_test o raw); [discriminate|].
  destruct (match_terms _ _ _ _ _ _ _) as [[m1 mt1]|e]; simpl in H;
    [|discriminate].
  by injection H as <-.
Qed.

(** What a turn that returns has done. *)
Lemma step_return (terms : list string) (w : nat) (st : state T)
    (raw : string) (out : list T) :
  step re_search separation emit o terms w st raw = Ok (Return out) ->
  ends_test o raw = true /\ out = text (close_block separation emit o st).
Proof.
  unfold step, boundary. destruct (ends_test o raw).
  - rewrite orb_true_r. by intros [= <-].
  - destruct (match_terms _ _ _ _ _ _ _) as [[m1 mt1]|e]; discriminate.
Qed.

(** A turn fails only in [re.search]. *)
Lemma step_raise (terms : list string) (w : nat) (st : state T)
    (raw : string) (e : exn) :
  step re_search separation emit o terms w st raw = Raise e ->
  e = ReError /\ search_regex o = true /\ terms <> [].
Proof.
  unfold step. destruct (ends_test o raw); [discriminate|].
  destruct (match_terms _ _ _ _ _ _ _) as [[m1 mt1]|e'] eqn:Hm; simpl;
    [discriminate|].
  intros [= <-]. by apply match_terms_raise in Hm.
Qed.

Lemma step_ends_test (terms : list string) (w : nat) (st : state T)
    (raw : string) :
  ends_test o raw = true ->
  step re_search separation emit o terms w st raw
  = Ok (Return (text (close_block separation emit o st))).
Proof.
  unfold step, boundary. intros ->. by rewrite orb_true_r.
Qed.

End Facts.

(** ** The whole loop *)

Section Loop.

Variable re_search : string -> string -> option bool.
Context {T : Type}.
Variables (separation : T) (emit : entry -> T).
Variable o : options.
Variable terms : list string.
Variable w : nat.

Local Abbreviation step' := (step re_search separation emit o terms w).
Local Abbreviation loop' := (loop re_search separation emit o terms w).

(** Invariants: [P] holds of the state between turns, [Q] of the result,
    over files whose lines all satisfy [L]. *)
Lemma loop_invariant (L : string -> Prop) (P : state T -> Prop)
    (Q : list T -> Prop) :
  (forall st raw st', L raw -> P st -> step' st raw = Ok (Continue st') -> P st') ->
  (forall st raw, L raw -> P st -> ends_test o raw = true ->
                  Q (text (close_block separation emit o st))) ->
  (forall st, P st -> Q (finish separation emit o st)) ->
  forall file st out,
    Forall L file -> P st -> loop' st file = Ok out -> Q out.
Proof.
  intros Hstep Hret Hfin file.
  induction file as [|raw file IH]; intros st out HL HP; simpl.
  - intros [= <-]. by apply Hfin.
  - apply Forall_cons in HL as [Hraw HL].
    destruct (step' st raw) as [[st'|out']|e] eqn:Hs; simpl.
    + apply IH; [done|]. by eapply Hstep.
    + intros [= <-]. apply step_return in Hs as [Hend ->]. by eapply Hret.
    + discriminate.
Qed.

(** The loop fails only in [re.search]. *)
Lemma loop_raise (file : list string) (st : state T) (e : exn) :
  loop' st file = Raise e ->
  e = ReError /\ search_regex o = true /\ terms <> [].
Proof.
  revert st. induction file as [|raw file IH]; intros st; simpl; [discriminate|].
  destruct (step' st raw) as [[st'|out']|e'] eqn:Hs; simpl.
  - apply IH.
  - discriminate.
  - intros [= <-]. by apply step_raise in Hs.
Qed.

(** Nothing behind a line that ends the test is looked at. *)
Lemma loop_stops (pre : list string) (raw : string) (post post' : list string)
    (st : state T) :
  ends_test o raw = true ->
  loop' st (pre ++ raw :: post) = loop' st (pre ++ raw :: post').
Proof.
  intros Hend. revert st.
  induction pre as [|a pre IH]; intros st; simpl.
  - by rewrite step_ends_test.
  - destruct (step' st a) as [[st'|out']|e]; simpl; [apply IH|done|done].
Qed.

(** Over lines that do not end the test the loop fails or goes on. *)
Lemma loop_prefix (P : state T -> Prop) (pre rest : list string) (st : state T) :
  (forall st raw st', P st -> step' st raw = Ok (Continue st') -> P st') ->
  Forall (fun raw => ends_test o raw = false) pre ->
  P st ->
  (exists e, loop' st (pre ++ rest) = Raise e)
  \/ (exists st', P st'
                  /\ line_number st' = (line_number st + length pre)%nat
                  /\ loop' st (pre ++ rest) = loop' st' rest).
Proof.
  intros Hstep. revert st.
  induction pre as [|a pre IH]; intros st Hpre HP; simpl.
  - right. exists st. by rewrite Nat.add_0_r.
  - apply Forall_cons in Hpre as [Ha Hpre].
    destruct (step' st a) as [[st'|out']|e] eqn:Hs; simpl.
    + destruct (IH st' Hpre (Hstep _ _ _ HP Hs)) as [Hr|(st'' & HP' & Hn & Hl)];
        [by left|].
      right. exists st''. split; [done|]. split; [|done].
      pose proof (step_continue _ _ _ _ _ _ _ _ _ Hs _ eq_refl)
        as (_ & _ & _ & _ & _ & _ & Hnum & _).
      rewrite Hn, Hnum. lia.
    + apply step_return in Hs as [Hend _]. congruence.
    + left. by exists e.
Qed.

(** The loop over a file, read off the turns over its first lines. *)
Lemma loop_run (pre rest : list string) (st : state T) :
  loop' st (pre ++ rest)
  = match run re_search separation emit o terms w st pre with
    | Ok (Continue st') => loop' st' rest
    | Ok (Return out) => Ok out
    | Raise e => Raise e
    end.
Proof.
  revert st. induction pre as [|a pre IH]; intros st; simpl; [done|].
  destruct (step' st a) as [[st'|out']|e]; simpl; [apply IH|done|done].
Qed.

End Loop.

(** ** Separation lines *)


Lemma separated_stored (l : list event) :
  forallb is_stored l = true -> separated l = true.
Proof.
  induction l as [|[|e] l IH]; simpl; [done|discriminate|exact IH].
Qed.

Lemma separated_app_stored (t l : list event) :
  separated t = true -> forallb is_stored l = true -> separated (t ++ l) = true.
Proof.
  intros Ht Hl. induction t as [|[|e] t IH]; simpl in *.
  - by apply separated_stored.
  - destruct t as [|[|e'] t]; simpl in *; [discriminate|discriminate|by apply IH].
  - by apply IH.
Qed.

Lemma separated_app_separation (t l : list event) :
  separated t = true -> forallb is_stored l = true -> l <> [] ->
  separated (t ++ Separation :: l) = true.
Proof.
  intros Ht Hl Hne. induction t as [|[|e] t IH]; simpl in *.
  - destruct l as [|[|e] l]; simpl in *; [done|discriminate|].
    by apply separated_stored.
  - destruct t as [|[|e'] t]; simpl in *; [discriminate|discriminate|by apply IH].
  - by apply IH.
Qed.

Lemma separated_lookup (evs : list event) (i : nat) :
  separated evs = true -> evs !! i = Some Separation ->
  exists e, evs !! S i = Some (Stored e).
Proof.
  revert i. induction evs as [|ev evs IH]; intros i Hs Hi; [done|].
  destruct i as [|i].
  - injection Hi as ->. simpl in Hs.
    destruct evs as [|[|e] evs]; [discriminate|discriminate|by exists e].
  - simpl in Hi. apply IH; [|done].
    destruct ev; [|done]. simpl in Hs. by destruct evs as [|[|e] evs].
Qed.

(** A run of stored lines appended to what is printed, behind a
    separation line unless the previous boundary printed ([last]). *)
Lemma append_run (t l : list event) (lst : bool) :
  separated t = true -> opens_separated t = true ->
  (lst = true -> t <> []) ->
  forallb is_stored l = true -> l <> [] ->
  let t' := (if lst then t else t ++ [Separation]) ++ l in
  separated t' = true /\ opens_separated t' = true /\ t' <> [].
Proof.
  intros Hs Ho Hlst Hl Hne. destruct lst; simpl.
  - split; [by apply separated_app_stored|].
    destruct t as [|ev t]; [by specialize (Hlst eq_refl)|]. done.
  - rewrite <- app_assoc. simpl. split; [by apply separated_app_separation|].
    destruct t as [|ev t]; done.
Qed.

Lemma print_messages_stored (ms : list (list entry)) :
  forallb is_stored (print_messages Stored ms) = true.
Proof.
  unfold print_messages. induction ms as [|m ms IH]; [reflexivity|].
  simpl. rewrite forallb_app, IH, andb_true_r.
  induction m as [|e m IHm]; [reflexivity|exact IHm].
Qed.

Lemma print_messages_app {T : Type} (emit : entry -> T) (ms ms' : list (list entry)) :
  print_messages emit (ms ++ ms') = print_messages emit ms ++ print_messages emit ms'.
Proof.
  unfold print_messages. by rewrite map_app, concat_app.
Qed.

Lemma print_messages_one {T : Type} (emit : entry -> T) (m : list entry) :
  print_messages emit [m] = map emit m.
Proof.
  unfold print_messages. simpl. by rewrite app_nil_r.
Qed.


Section Separation.

Variable re_search : string -> string -> option bool.
Variable o : options.
Variable terms : list string.
Variable w : nat.
Hypothesis context_nonnegative : 0 <= search_context o.

Lemma close_block_separated (st : state event) :
  separation_invariant st ->
  let st1 := close_block Separation Stored o st in
  separated (text st1) = true
  /\ opens_separated (text st1) = true
  /\ (last st1 = true -> text st1 <> []).
Proof.
  intros (Hs & Ho & Hlast & Hbuf). unfold close_block. simpl.
  destruct (matched st || (0 <? context st)) eqn:Hp; simpl; [|done].
  assert (Hne : buffer st <> []).
  { apply Hbuf. apply orb_true_iff in Hp as [Hp|Hp]; [by left|right].
    by apply Z.ltb_lt. }
  destruct (buffer st) as [|e b] eqn:Hb; [done|]. simpl.
  rewrite slice_from_snoc by done.
  rewrite print_messages_app, print_messages_one.
  pose proof (append_run (text st)
                (print_messages Stored
                   (drop (Z.to_nat (Z.of_nat (length (messages st)) - search_context o))
                         (messages st)) ++ map Stored (e :: b))
                (last st) Hs Ho Hlast) as H.
  simpl in H. destruct H as (H1 & H2 & H3).
  - rewrite forallb_app, print_messages_stored. simpl.
    clear. induction b; [done|]. done.
  - intros Heq. by apply app_eq_nil in Heq as [_ ?].
  - done.
Qed.

Lemma step_separated (st st' : state event) (raw : string) :
  separation_invariant st ->
  step re_search Separation Stored o terms w st raw = Ok (Continue st') ->
  separation_invariant st'.
Proof.
  intros Hinv Hs.
  pose proof (step_continue _ _ _ _ _ _ _ _ _ Hs _ eq_refl)
    as (_ & _ & Hbuf & Htext & Hlast & _).
  unfold separation_invariant. rewrite Htext, Hlast, Hbuf.
  assert (H : let st1 := boundary Separation Stored o st raw in
              separated (text st1) = true
              /\ opens_separated (text st1) = true
              /\ (last st1 = true -> text st1 <> [])).
  { unfold boundary. destruct (starts_message o raw || ends_test o raw).
    - by apply close_block_separated.
    - destruct Hinv as (? & ? & ? & _). done. }
  destruct H as (H1 & H2 & H3). repeat split; try done.
  intros _ Heq. by apply app_eq_nil in Heq as [_ ?].
Qed.

Lemma finish_separated (st : state event) :
  separation_invariant st ->
  let out := finish Separation Stored o st in
  separated out = true /\ opens_separated out = true.
Proof.
  intros (Hs & Ho & Hlast & Hbuf). unfold finish.
  destruct (matched st || (0 <? context st)) eqn:Hp; simpl; [|done].
  assert (Hne : buffer st <> []).
  { apply Hbuf. apply orb_true_iff in Hp as [Hp|Hp]; [by left|right].
    by apply Z.ltb_lt. }
  match goal with
  | |- context [?t ++ ?l ++ map Stored (buffer st)] =>
      pose proof (append_run (text st) (l ++ map Stored (buffer st))
                    (last st) Hs Ho Hlast) as H
  end.
  simpl in H. destruct H as (H1 & H2 & _).
  - rewrite forallb_app, print_messages_stored. simpl.
    clear. induction (buffer st); [done|]. done.
  - intros Heq. apply app_eq_nil in Heq as [_ Heq].
    by apply map_eq_nil in Heq.
  - done.
Qed.

Lemma loop_separated (file : list string) (st : state event) (out : list event) :
  separation_invariant st ->
  loop re_search Separation Stored o terms w st file = Ok out ->
  separated out = true /\ opens_separated out = true.
Proof.
  intros Hinv Hl.
  refine (loop_invariant re_search Separation Stored o terms w
            (fun _ => True) separation_invariant
            (fun out => separated out = true /\ opens_separated out = true)
            _ _ _ file st out _ Hinv Hl).
  - intros st0 raw st' _. apply step_separated.
  - intros st0 raw _ Hst0 _.
    destruct (close_block_separated st0 Hst0) as (? & ? & _). done.
  - intros st0. apply finish_separated.
  - by apply Forall_forall.
Qed.

End Separation.

Lemma initial_separated : separation_invariant initial.
Proof.
  unfold separation_invariant, initial. simpl. repeat split; try done.
  intros [|]; [done|lia].
Qed.

(** ** A stored line of a matched block reaches the output *)


Section Shown.

Variable re_search : string -> string -> option bool.
Context {T : Type}.
Variables (separation : T) (emit : entry -> T).
Variable o : options.
Variable terms : list string.
Variable w : nat.
Hypothesis context_nonnegative : 0 <= search_context o.

Lemma close_block_text (st : state T) :
  exists l, text (close_block separation emit o st) = text st ++ l.
Proof.
  unfold close_block. simpl.
  destruct (matched st || (0 <? context st)); [|exists []; by rewrite app_nil_r].
  destruct (last st); [by eexists|].
  rewrite <- app_assoc. by eexists.
Qed.

Lemma close_block_kept (e : entry) (st : state T) :
  kept emit e st -> In (emit e) (text (close_block separation emit o st)).
Proof.
  intros [[Hin Hm]|Hin].
  - unfold close_block. simpl. rewrite Hm. simpl.
    destruct (buffer st) as [|e0 b] eqn:Hb; [done|]. simpl.
    rewrite slice_from_snoc by done.
    rewrite print_messages_app, print_messages_one.
    apply in_or_app. right. apply in_or_app. right. by apply in_map.
  - destruct (close_block_text st) as [l ->]. apply in_or_app. by left.
Qed.

Lemma force_match_true (fline : string) : force_match o fline true = true.
Proof. by rewrite force_match_spec. Qed.

Lemma force_match_forced (fline : string) (mt : bool) :
  force_match o fline false = true -> force_match o fline mt = true.
Proof.
  rewrite !force_match_spec.
  by destruct mt, (Str.startswith fline (uvm_fatal_string o)),
    (always_show_errors o && Str.startswith fline (uvm_error_string o)),
    (always_show_warnings o && Str.startswith fline (uvm_warning_string o)).
Qed.

Lemma step_kept (e : entry) (st st' : state T) (raw : string) :
  kept emit e st ->
  step re_search separation emit o terms w st raw = Ok (Continue st') ->
  kept emit e st'.
Proof.
  intros Hk Hs.
  pose proof (step_continue _ _ _ _ _ _ _ _ _ Hs _ eq_refl)
    as (_ & _ & Hbuf & Htext & _ & _ & _ & Hm).
  unfold kept. rewrite Htext, Hbuf. unfold boundary in *.
  destruct (starts_message o raw || ends_test o raw).
  - right. by apply close_block_kept.
  - destruct Hk as [[Hin Hmt]|Hin]; [left|by right].
    split; [apply in_or_app; by left|].
    rewrite Hmt, force_match_true in Hm. by apply match_terms_true in Hm.
Qed.

Lemma finish_kept (e : entry) (st : state T) :
  kept emit e st -> In (emit e) (finish separation emit o st).
Proof.
  intros [[Hin Hm]|Hin]; unfold finish.
  - rewrite Hm. simpl. apply in_or_app. right. apply in_or_app. right.
    by apply in_map.
  - destruct (matched st || (0 <? context st)); [|done].
    apply in_or_app. left. destruct (last st); [done|].
    apply in_or_app. by left.
Qed.

Lemma loop_kept (e : entry) (file : list string) (st : state T) (out : list T) :
  kept emit e st ->
  loop re_search separation emit o terms w st file = Ok out ->
  In (emit e) out.
Proof.
  intros Hk Hl.
  refine (loop_invariant re_search separation emit o terms w
            (fun _ => True) (kept emit e) (fun out => In (emit e) out)
            _ _ _ file st out _ Hk Hl).
  - intros st0 raw st' _. apply step_kept.
  - intros st0 raw _ Hst0 _. by apply close_block_kept.
  - intros st0. apply finish_kept.
  - by apply Forall_forall.
Qed.

Lemma step_forced (st st' : state T) (raw : string) :
  force_match o (compared_line o raw) false = true ->
  step re_search separation emit o terms w st raw = Ok (Continue st') ->
  kept emit (Str.ljust (S (line_number st)) w, stored_line raw) st'.
Proof.
  intros Hf Hs.
  pose proof (step_continue _ _ _ _ _ _ _ _ _ Hs _ eq_refl)
    as (_ & _ & Hbuf & _ & _ & _ & _ & Hm).
  left. rewrite Hbuf. split; [apply in_or_app; right; by left|].
  rewrite (force_match_forced _ _ Hf) in Hm. by apply match_terms_true in Hm.
Qed.

(** A line that the loop reaches and that the always-show rules accept
    is in the result, if there is one. *)
Lemma forced_line_shown (pre : list string) (raw : string) (post : list string) :
  Forall (fun r => ends_test o r = false) (pre ++ [raw]) ->
  force_match o (compared_line o raw) false = true ->
  match loop re_search separation emit o terms w initial (pre ++ raw :: post) with
  | Ok out => In (emit (Str.ljust (S (length pre)) w, stored_line raw)) out
  | Raise e => e = ReError /\ search_regex o = true /\ terms <> []
  end.
Proof.
  intros Hno Hf.
  destruct (loop _ _ _ _ _ _ _ _) as [out|e] eqn:Hl;
    [|by apply loop_raise in Hl].
  apply Forall_app in Hno as [Hpre Hraw%Forall_inv].
  destruct (loop_prefix re_search separation emit o terms w (fun _ => True)
              pre (raw :: post) initial) as [[e He]|(st & _ & Hn & Heq)];
    [done|done|done|congruence|].
  rewrite Heq in Hl. simpl in Hl, Hn.
  destruct (step re_search separation emit o terms w st raw)
    as [[st'|out']|e] eqn:Hs; simpl in Hl.
  - apply step_forced in Hs; [|done]. rewrite Hn in Hs.
    by eapply loop_kept.
  - apply step_return in Hs as [Hend _]. congruence.
  - discriminate.
Qed.

End Shown.

(** ** The markers *)

Lemma prefix_append (p q s : string) :
  String.prefix (p +:+ q) s = true -> String.prefix p s = true.
Proof.
  revert s. induction p as [|a p IH]; intros [|b s]; simpl; try done.
  destruct (ascii_dec a b); [apply IH|done].
Qed.

Lemma prefix_differ (p q q' s : string) (a b : ascii) :
  String.prefix (p +:+ String a q) s = true ->
  String.prefix (p +:+ String b q') s = true ->
  a = b.
Proof.
  revert s. induction p as [|c p IH]; intros [|d s]; simpl; try done.
  - destruct (ascii_dec a d), (ascii_dec b d); congruence.
  - destruct (ascii_dec c d); [apply IH|done].
Qed.

(** The three message kinds start with the message marker and exclude one
    another. *)
Lemma marker_prefixes (o : options) (fline : string) :
  (Str.startswith fline (uvm_fatal_string o) = true ->
   Str.startswith fline (uvm_message_string o) = true
   /\ Str.startswith fline (uvm_error_string o) = false
   /\ Str.startswith fline (uvm_warning_string o) = false)
  /\ (Str.startswith fline (uvm_error_string o) = true ->
      Str.startswith fline (uvm_message_string o) = true
      /\ Str.startswith fline (uvm_fatal_string o) = false
      /\ Str.startswith fline (uvm_warning_string o) = false)
  /\ (Str.startswith fline (uvm_warning_string o) = true ->
      Str.startswith fline (uvm_message_string o) = true
      /\ Str.startswith fline (uvm_fatal_string o) = false
      /\ Str.startswith fline (uvm_error_string o) = false).
Proof.
  unfold uvm_message_string, uvm_warning_string, uvm_error_string,
    uvm_fatal_string, fold_case, Str.startswith.
  destruct (search_case_sensitive o).
  - repeat split.
    + exact (prefix_append "# UVM_" "FATAL" _ H).
    + destruct (String.prefix UVM_ERROR fline) eqn:H'; [|done].
      by pose proof (prefix_differ "# UVM_" "ATAL" "RROR" _ _ _ H H').
    + destruct (String.prefix UVM_WARNING fline) eqn:H'; [|done].
      by pose proof (prefix_differ "# UVM_" "ATAL" "ARNING" _ _ _ H H').
    + exact (prefix_append "# UVM_" "ERROR" _ H).
    + destruct (String.prefix UVM_FATAL fline) eqn:H'; [|done].
      by pose proof (prefix_differ "# UVM_" "RROR" "ATAL" _ _ _ H H').
    + destruct (String.prefix UVM_WARNING fline) eqn:H'; [|done].
      by pose proof (prefix_differ "# UVM_" "RROR" "ARNING" _ _ _ H H').
    + exact (prefix_append "# UVM_" "WARNING" _ H).
    + destruct (String.prefix UVM_FATAL fline) eqn:H'; [|done].
      by pose proof (prefix_differ "# UVM_" "ARNING" "ATAL" _ _ _ H H').
    + destruct (String.prefix UVM_ERROR fline) eqn:H'; [|done].
      by pose proof (prefix_differ "# UVM_" "ARNING" "RROR" _ _ _ H H').
  - repeat split.
    + exact (prefix_append "# uvm_" "fatal" _ H).
    + destruct (String.prefix (Str.lower UVM_ERROR) fline) eqn:H'; [|done].
      by pose proof (prefix_differ "# uvm_" "atal" "rror" _ _ _ H H').
    + destruct (String.prefix (Str.lower UVM_WARNING) fline) eqn:H'; [|done].
      by pose proof (prefix_differ "# uvm_" "atal" "arning" _ _ _ H H').
    + exact (prefix_append "# uvm_" "error" _ H).
    + destruct (String.prefix (Str.lower UVM_FATAL) fline) eqn:H'; [|done].
      by pose proof (prefix_differ "# uvm_" "rror" "atal" _ _ _ H H').
    + destruct (String.prefix (Str.lower UVM_WARNING) fline) eqn:H'; [|done].
      by pose proof (prefix_differ "# uvm_" "rror" "arning" _ _ _ H H').
    + exact (prefix_append "# uvm_" "warning" _ H).
    + destruct (String.prefix (Str.lower UVM_FATAL) fline) eqn:H'; [|done].
      by pose proof (prefix_differ "# uvm_" "arning" "atal" _ _ _ H H').
    + destruct (String.prefix (Str.lower UVM_ERROR) fline) eqn:H'; [|done].
      by pose proof (prefix_differ "# uvm_" "arning" "rror" _ _ _ H H').
Qed.

(** ** The width of the line numbers *)

Lemma slice_from_map {A B : Type} (g : A -> B) (k : Z) (l : list A) :
  map g (slice_from k l) = slice_from k (map g l).
Proof.
  unfold slice_from. rewrite length_map.
  destruct (k <? 0); by rewrite skipn_map.
Qed.

Section Widths.

Variable re_search : string -> string -> option bool.
Context {T : Type}.
Variables (separation : T) (emit : entry -> T).
Variable o : options.
Variable terms : list string.
Variables w w' : nat.

(** What is printed for a stored line does not show its number. *)
Hypothesis emit_line : forall e e', snd e = snd e' -> emit e = emit e'.

Lemma map_emit_same (b b' : list entry) :
  map snd b = map snd b' -> map emit b = map emit b'.
Proof.
  revert b'. induction b as [|e b IH]; intros [|e' b']; simpl; try done.
  intros [= He Hb]. f_equal; [by apply emit_line | by apply IH].
Qed.

Lemma print_messages_same (ms ms' : list (list entry)) :
  map (map snd) ms = map (map snd) ms' ->
  print_messages emit ms = print_messages emit ms'.
Proof.
  unfold print_messages.
  revert ms'. induction ms as [|m ms IH]; intros [|m' ms']; simpl; try done.
  intros [= Hm Hms]. f_equal; [by apply map_emit_same | by apply IH].
Qed.

Lemma close_block_same (st st' : state T) :
  same_lines st st' ->
  same_lines (close_block separation emit o st) (close_block separation emit o st').
Proof.
  intros (Hms & Hb & Ht & Hm & Hmt & Hl & Hc).
  assert (Hlen : length (buffer st) = length (buffer st')).
  { apply (f_equal (@length string)) in Hb. by rewrite !length_map in Hb. }
  assert (H2 : map (map snd)
                 (slice_from ((search_context o + 1) * -1)
                    (if (0 <? length (buffer st))%nat
                     then messages st ++ [buffer st] else messages st))
               = map (map snd)
                   (slice_from ((search_context o + 1) * -1)
                      (if (0 <? length (buffer st'))%nat
                       then messages st' ++ [buffer st'] else messages st'))).
  { rewrite !slice_from_map, Hlen. f_equal.
    destruct (0 <? length (buffer st'))%nat; [|done].
    rewrite !map_app. simpl. by rewrite Hms, Hb. }
  unfold same_lines, close_block. simpl. rewrite <- Hmt, <- Hc, <- Hl, <- Ht, <- Hm.
  destruct (matched st || (0 <? context st)); repeat split; try done.
  by rewrite (print_messages_same _ _ H2).
Qed.

Lemma boundary_same (st st' : state T) (raw : string) :
  same_lines st st' ->
  same_lines (boundary separation emit o st raw) (boundary separation emit o st' raw).
Proof.
  intros H. unfold boundary.
  destruct (starts_message o raw || ends_test o raw); [by apply close_block_same|done].
Qed.

Lemma step_same (st st' : state T) (raw : string) :
  same_lines st st' ->
  match step re_search separation emit o terms w st raw,
        step re_search separation emit o terms w' st' raw with
  | Ok (Continue a), Ok (Continue b) => same_lines a b
  | Ok (Return out), Ok (Return out') => out = out'
  | Raise e, Raise e' => e = e'
  | _, _ => False
  end.
Proof.
  intros H. apply (boundary_same _ _ raw) in H.
  destruct H as (Hms & Hb & Ht & Hm & Hmt & Hl & Hc).
  unfold step. destruct (ends_test o raw); [done|].
  rewrite <- Hm, <- Hmt.
  destruct (match_terms _ _ _ _ _ _ _) as [[m1 mt1]|e]; simpl; [|done].
  unfold same_lines. simpl. repeat split; try done.
  rewrite !map_app. simpl. by rewrite Hb.
Qed.

Lemma finish_same (st st' : state T) :
  same_lines st st' ->
  finish separation emit o st = finish separation emit o st'.
Proof.
  intros (Hms & Hb & Ht & Hm & Hmt & Hl & Hc).
  unfold finish. rewrite <- Hmt, <- Hc, <- Hl, <- Ht.
  destruct (matched st || (0 <? context st)); [|done].
  f_equal. f_equal; [|by apply map_emit_same].
  apply print_messages_same. rewrite !slice_from_map. f_equal.
  destruct (messages st) as [|m ms], (messages st') as [|m' ms'];
    simpl in *; by simplify_eq.
Qed.

(** The result does not depend on the width of the line numbers. *)
Lemma loop_same (file : list string) (st st' : state T) :
  same_lines st st' ->
  loop re_search separation emit o terms w st file
  = loop re_search separation emit o terms w' st' file.
Proof.
  revert st st'. induction file as [|raw file IH]; intros st st' H; simpl.
  - by rewrite (finish_same _ _ H).
  - pose proof (step_same _ _ raw H) as Hs.
    destruct (step re_search separation emit o terms w st raw) as [[a|out]|e],
             (step re_search separation emit o terms w' st' raw) as [[b|out']|e'];
      simpl; try done; [by apply IH | by subst | by subst].
Qed.

End Widths.

(** ** Separation lines in the result *)


(** C2 (counterexample).  In the worked example the separation line
    stands before the very first printed run; and with context 1 a
    separation line stands between lines 2 and 3 of a file, which are
    adjacent. *)
Lemma separation_before_first_run :
  search_events literal_search example_file [] {[ "SHOW_ERRORS" := PyBool true ]}
  = Ok [Separation; Stored ("3", "# UVM_ERROR bad thing")]
  /\ search literal_search example_file [] {[ "SHOW_ERRORS" := PyBool true ]}
     = Ok (with_newlines ["..."; "# UVM_ERROR bad thing"])
  /\ search_events literal_search adjacent_runs_file []
       {[ "SEARCH_CONTEXT" := PyInt 1 ]}
     = Ok [Separation; Stored ("1", "# UVM_FATAL one"); Stored ("2", "# UVM_INFO two");
           Separation; Stored ("3", "# UVM_INFO three");
           Stored ("4", "# UVM_FATAL four"); Stored ("5", "# UVM_INFO five")].
Proof. repeat split; reflexivity. Qed.

(** C2 (amended).  With a context count of 0 or more, the result of
    [search] is the rendering of what [search_events] appends, in which
    the first entry, if there is one, is a separation line (also before
    the very first printed run) and every separation line is directly
    followed by a stored line: never two in a row, never at the end. *)
Theorem separation_lines (re : string -> string -> option bool)
    (file terms : list string) (opts : gmap string pyval) (o : options) :
  decode_options opts = Ok o ->
  0 <= search_context o ->
  match search_events re file terms opts with
  | Ok evs =>
      search re file terms opts = Ok (map (render (show_line_numbers o)) evs)
      /\ (forall ev, head evs = Some ev -> ev = Separation)
      /\ (forall i, evs !! i = Some Separation ->
                    exists e, evs !! S i = Some (Stored e))
  | Raise e => search re file terms opts = Raise e
  end.
Proof.
  intros Ho Hc. rewrite (search_renders_events _ _ _ _ _ Ho).
  destruct (search_events re file terms opts) as [evs|e] eqn:Hev; [|done].
  split; [done|].
  unfold search_events in Hev. rewrite Ho in Hev. simpl in Hev.
  destruct (loop_separated _ _ _ _ Hc _ _ _ initial_separated Hev) as [Hs Hopen].
  split.
  - intros ev Hhd. destruct evs as [|[|e] evs]; simpl in *; by simplify_eq.
  - intros i. by apply separated_lookup.
Qed.

Lemma separation_lines_witness :
  0 <= 1
  /\ search literal_search adjacent_runs_file [] {[ "SEARCH_CONTEXT" := PyInt 1 ]}
     = Ok (with_newlines
             ["..."; "# UVM_FATAL one"; "# UVM_INFO two"; "...";
              "# UVM_INFO three"; "# UVM_FATAL four"; "# UVM_INFO five"]).
Proof.
  split; [lia|].
  pose proof (separation_lines literal_search adjacent_runs_file []
                {[ "SEARCH_CONTEXT" := PyInt 1 ]}
                {| search_regex := false; search_case_sensitive := false;
                   search_exclusive := false; always_show_errors := false;
                   always_show_warnings := false; show_line_numbers := false;
                   search_context := 1 |} eq_refl ltac:(simpl; lia)) as H.
  destruct (search_events literal_search adjacent_runs_file []
              {[ "SEARCH_CONTEXT" := PyInt 1 ]}) as [evs|e] eqn:Hev;
    vm_compute in Hev; [|discriminate].
  injection Hev as <-. destruct H as (H & _). exact H.
Defined.

(** ** The end of the test *)

(** C3.  Once a line whose compared copy holds the end-of-test marker is
    reached, [search] returns what is printed when this line has closed the
    running block, unless the loop has returned or failed before.  So the
    lines behind it may be replaced by any others and the result, a list or
    an exception, is the same; only when line numbers are shown must the
    number of lines of the file keep its number of digits, the width of the
    line-number column. *)
Theorem end_of_test_stops (re : string -> string -> option bool)
    (opts : gmap string pyval) (o : options) (terms : list string)
    (pre : list string) (raw : string) (post post' : list string) :
  decode_options opts = Ok o ->
  ends_test o raw = true ->
  search re (pre ++ raw :: post) terms opts
  = match run re (SEPERATION +:+ Str.nl) (render_entry (show_line_numbers o)) o
            (map (fold_case o) terms) (line_number_width (pre ++ raw :: post))
            initial pre with
    | Ok (Continue st) =>
        Ok (text (close_block (SEPERATION +:+ Str.nl)
                    (render_entry (show_line_numbers o)) o st))
    | Ok (Return out) => Ok out
    | Raise e => Raise e
    end
  /\ (show_line_numbers o = false
      \/ line_number_width (pre ++ raw :: post)
         = line_number_width (pre ++ raw :: post') ->
      search re (pre ++ raw :: post) terms opts
      = search re (pre ++ raw :: post') terms opts).
Proof.
  intros Ho Hend. unfold search. rewrite Ho. simpl. unfold scan. split.
  - rewrite loop_run.
    destruct (run _ _ _ _ _ _ _ _) as [[st|out]|e]; try done.
    simpl. by rewrite step_ends_test.
  - intros [Hshow|Hw].
    + rewrite (loop_stops _ _ _ _ _ _ pre raw post post' _ Hend).
      apply loop_same; [|done].
      intros e e' He. rewrite Hshow. unfold render_entry. by rewrite He.
    + rewrite Hw. by apply loop_stops.
Qed.

Lemma end_of_test_stops_witness :
  ends_test {| search_regex := false; search_case_sensitive := false;
               search_exclusive := false; always_show_errors := false;
               always_show_warnings := false; show_line_numbers := true;
               search_context := 0 |} "# --- UVM Report Summary ---" = true
  /\ (true = false
      \/ line_number_width (["# UVM_FATAL stop"] ++ "# --- UVM Report Summary ---"
                              :: ["# UVM_FATAL late"; "# UVM_INFO x"])
         = line_number_width (["# UVM_FATAL stop"] ++ "# --- UVM Report Summary ---"
                                :: []))
  /\ search literal_search
       (["# UVM_FATAL stop"] ++ "# --- UVM Report Summary ---"
          :: ["# UVM_FATAL late"; "# UVM_INFO x"])
       ["x"] {[ "SHOW_LINE_NUMBERS" := PyBool true ]}
     = search literal_search
         (["# UVM_FATAL stop"] ++ "# --- UVM Report Summary ---" :: [])
         ["x"] {[ "SHOW_LINE_NUMBERS" := PyBool true ]}.
Proof.
  split; [reflexivity|].
  assert (H : line_number_width
                (["# UVM_FATAL stop"] ++ "# --- UVM Report Summary ---"
                   :: ["# UVM_FATAL late"; "# UVM_INFO x"])
              = line_number_width
                  (["# UVM_FATAL stop"] ++ "# --- UVM Report Summary ---" :: []))
    by reflexivity.
  split; [by right|].
  refine (proj2 (end_of_test_stops literal_search
                   {[ "SHOW_LINE_NUMBERS" := PyBool true ]}
                   {| search_regex := false; search_case_sensitive := false;
                      search_exclusive := false; always_show_errors := false;
                      always_show_warnings := false; show_line_numbers := true;
                      search_context := 0 |} ["x"] ["# UVM_FATAL stop"]
                   "# --- UVM Report Summary ---"
                   ["# UVM_FATAL late"; "# UVM_INFO x"] [] eq_refl eq_refl)
                (or_intror H)).
Defined.

(** ** The always-show rules and the terms *)

Lemma any_match_orb (re : string -> string -> option bool) (o : options)
    (terms : list string) (line fline : string) (mt b : bool) :
  any_match re o terms line fline mt = Ok b ->
  exists hit, any_match re o terms line fline false = Ok hit /\ b = mt || hit.
Proof.
  revert mt. induction terms as [|s terms IH]; intros mt; simpl.
  - intros [= <-]. exists false. by rewrite orb_false_r.
  - destruct (term_hit re o s line fline) as [[]|]; simpl; [|apply IH|done].
    intros H. exists true. rewrite orb_true_r.
    pose proof (any_match_true _ _ _ _ _ _ H) as ->. done.
Qed.

Lemma match_terms_orb (re : string -> string -> option bool) (o : options)
    (terms : list string) (line fline : string) (m m1 : gmap string Z)
    (mt b : bool) :
  match_terms re o terms line fline m mt = Ok (m1, b) ->
  exists hit, match_terms re o terms line fline m false = Ok (m1, hit)
              /\ b = mt || hit.
Proof.
  unfold match_terms. destruct (search_exclusive o).
  - destruct (mark_matches re o terms line fline m) as [m'|]; simpl; [|done].
    intros [= <- <-]. eexists. split; [reflexivity|].
    destruct (_ && _); by rewrite ?orb_true_r, ?orb_false_r.
  - destruct (any_match re o terms line fline mt) as [b'|] eqn:Hany; simpl;
      [|done].
    intros [= <- <-]. apply any_match_orb in Hany as (hit & -> & ->).
    by exists hit.
Qed.

(** The flag after a line that the loop stores: the always-show rules on
    top of what the block had, and the terms on top of that. *)
Lemma step_matched (re : string -> string -> option bool) {T : Type}
    (separation : T) (emit : entry -> T) (o : options) (terms : list string)
    (w : nat) (st st' : state T) (raw : string) :
  step re separation emit o terms w st raw = Ok (Continue st') ->
  exists hit,
    match_terms re o terms (stored_line raw) (compared_line o raw)
      (matches (boundary separation emit o st raw)) false
    = Ok (matches st', hit)
    /\ matched st'
       = force_match o (compared_line o raw)
           (matched (boundary separation emit o st raw)) || hit.
Proof.
  intros Hs.
  pose proof (step_continue _ _ _ _ _ _ _ _ _ Hs _ eq_refl)
    as (_ & _ & _ & _ & _ & _ & _ & Hm).
  by apply match_terms_orb in Hm.
Qed.

Lemma boundary_message {T : Type} (separation : T) (emit : entry -> T)
    (o : options) (st : state T) (raw : string) :
  starts_message o raw = true ->
  matched (boundary separation emit o st raw) = false
  /\ matches (boundary separation emit o st raw) = matches st.
Proof.
  unfold boundary. by intros ->.
Qed.


Lemma decode_options_exclusive (opts : gmap string pyval) (o : options) (v : pyval) :
  decode_options opts = Ok o ->
  decode_options (<["SEARCH_EXCLUSIVE" := v]> opts)
  = Ok (with_exclusive (eq_True v) o).
Proof.
  unfold decode_options.
  rewrite lookup_insert_ne by discriminate.
  rewrite (enabled_insert_ne _ _ "SEARCH_REGEX") by discriminate.
  rewrite (enabled_insert_ne _ _ "SEARCH_CASE_SENSITIVE") by discriminate.
  rewrite (enabled_insert_ne _ _ "SHOW_ERRORS") by discriminate.
  rewrite (enabled_insert_ne _ _ "SHOW_WARNINGS") by discriminate.
  rewrite (enabled_insert_ne _ _ "SHOW_LINE_NUMBERS") by discriminate.
  rewrite enabled_insert_eq.
  destruct (opts !! "SEARCH_CONTEXT") as [[]|]; simpl; try done;
    by intros [= <-].
Qed.

Section NoTerms.

Variables re re' : string -> string -> option bool.
Context {T : Type}.
Variables (separation : T) (emit : entry -> T).
Variable o : options.
Variable w : nat.

(** Without terms a turn of the loop sets the flag by the always-show
    rules alone, and does not fail. *)
Lemma step_no_terms (st : state T) (raw : string) :
  step re separation emit o [] w st raw
  = Ok (let st1 := boundary separation emit o st raw in
        if ends_test o raw then Return (text st1)
        else Continue
               {| messages := messages st1;
                  buffer := buffer st1
                            ++ [(Str.ljust (S (line_number st)) w, stored_line raw)];
                  text := text st1;
                  matches := matches st1;
                  matched := force_match o (compared_line o raw) (matched st1);
                  last := last st1;
                  context := context st1;
                  line_number := S (line_number st) |}).
Proof.
  unfold step. destruct (ends_test o raw); [done|].
  by rewrite match_terms_nil.
Qed.

Lemma loop_no_terms (file : list string) (st : state T) :
  exists out, loop re separation emit o [] w st file = Ok out.
Proof.
  destruct (loop re separation emit o [] w st file) as [out|e] eqn:Hl;
    [by exists out|].
  by apply loop_raise in Hl as (_ & _ & ?).
Qed.

Lemma loop_no_terms_exclusive (x : bool) (file : list string) (st : state T) :
  loop re' separation emit (with_exclusive x o) [] w st file
  = loop re separation emit o [] w st file.
Proof.
  revert st. induction file as [|raw file IH]; intros st; simpl;
    [reflexivity|].
  assert (Hs : step re' separation emit (with_exclusive x o) [] w st raw
               = step re separation emit o [] w st raw).
  { unfold step.
    change (ends_test (with_exclusive x o) raw) with (ends_test o raw).
    destruct (ends_test o raw); [reflexivity|].
    by rewrite !match_terms_nil. }
  rewrite Hs.
  destruct (step re separation emit o [] w st raw) as [[st'|out]|e]; simpl;
    [apply IH|reflexivity|reflexivity].
Qed.

End NoTerms.

(** C8 (counterexample).  With a context count of -2 the flag of the
    fatal message is set, but the history is cut to nothing when the
    message is closed: the fatal line is not in the result.  And a line
    that starts with the fatal marker and holds the end-of-test marker
    makes the loop return before the always-show rules are reached: the
    flag is not set and nothing is printed. *)
Lemma fatal_line_not_shown :
  (forall re, search re ["# UVM_FATAL b"; "# UVM_INFO c"] []
                {[ "SEARCH_CONTEXT" := PyInt (-2) ]}
              = Ok (with_newlines ["..."]))
  /\ Str.startswith
       (compared_line default_options "# UVM_FATAL stop # --- UVM Report Summary ---")
       (uvm_fatal_string default_options) = true
  /\ (forall re, step re Separation Stored default_options [] 1 initial
                   "# UVM_FATAL stop # --- UVM Report Summary ---"
                 = Ok (Return []))
  /\ (forall re, search re ["# UVM_FATAL stop # --- UVM Report Summary ---"] [] ∅
                 = Ok []).
Proof. repeat split; reflexivity. Qed.

(** C8 (amended).  For every line that the loop stores, that is, every
    line in front of the first line that holds the end-of-test marker: if
    its compared copy starts with the fatal marker the flag of its block
    is set, whatever the terms do; if it starts with the error marker the
    flag is set if and only if [always_show_errors] holds or the terms
    match, and the same for the warning marker and [always_show_warnings];
    the always-show rules by themselves accept exactly these lines.  With
    a context count of 0 or more, a line accepted by the rules and not
    behind the end of the test is in the result of [search], which fails
    only in [re.search]. *)
Theorem always_shown_messages (re : string -> string -> option bool)
    (opts : gmap string pyval) (o : options) :
  decode_options opts = Ok o ->
  (forall (T : Type) (separation : T) (emit : entry -> T) (terms : list string)
          (w : nat) (st st' : state T) (raw : string),
      step re separation emit o terms w st raw = Ok (Continue st') ->
      (Str.startswith (compared_line o raw) (uvm_fatal_string o) = true ->
       matched st' = true)
      /\ (Str.startswith (compared_line o raw) (uvm_error_string o) = true ->
          (terms = [] -> matched st' = always_show_errors o)
          /\ exists hit,
              match_terms re o terms (stored_line raw) (compared_line o raw)
                (matches st) false = Ok (matches st', hit)
              /\ matched st' = always_show_errors o || hit)
      /\ (Str.startswith (compared_line o raw) (uvm_warning_string o) = true ->
          (terms = [] -> matched st' = always_show_warnings o)
          /\ exists hit,
              match_terms re o terms (stored_line raw) (compared_line o raw)
                (matches st) false = Ok (matches st', hit)
              /\ matched st' = always_show_warnings o || hit))
  /\ (forall fline,
        force_match o fline false
        = Str.startswith fline (uvm_fatal_string o)
          || always_show_errors o && Str.startswith fline (uvm_error_string o)
          || always_show_warnings o && Str.startswith fline (uvm_warning_string o))
  /\ (forall (terms pre : list string) (raw : string) (post : list string),
        0 <= search_context o ->
        Forall (fun r => ends_test o r = false) (pre ++ [raw]) ->
        force_match o (compared_line o raw) false = true ->
        match search re (pre ++ raw :: post) terms opts with
        | Ok out =>
            In (render_entry (show_line_numbers o)
                  (Str.ljust (S (length pre))
                     (line_number_width (pre ++ raw :: post)),
                   stored_line raw)) out
        | Raise e => e = ReError /\ search_regex o = true /\ terms <> []
        end).
Proof.
  intros Ho. split; [|split].
  - intros T separation emit terms w st st' raw Hs.
    destruct (step_matched _ _ _ _ _ _ _ _ _ Hs) as (hit & Hm & Hflag).
    destruct (marker_prefixes o (compared_line o raw)) as (Hfatal & Herror & Hwarning).
    rewrite force_match_spec in Hflag.
    split; [|split].
    + intros Hf. rewrite Hflag, Hf. by rewrite orb_true_r.
    + intros He. destruct (Herror He) as (Hmsg & Hnf & Hnw).
      destruct (boundary_message separation emit o st raw Hmsg) as [Hmt Hms].
      rewrite Hmt, Hnf, He, Hnw, andb_false_r, andb_true_r in Hflag.
      simpl in Hflag. rewrite orb_false_r in Hflag. rewrite Hms in Hm.
      split; [|by exists hit].
      intros ->. rewrite match_terms_nil in Hm. injection Hm as _ <-.
      by rewrite Hflag, orb_false_r.
    + intros Hw. destruct (Hwarning Hw) as (Hmsg & Hnf & Hne).
      destruct (boundary_message separation emit o st raw Hmsg) as [Hmt Hms].
      rewrite Hmt, Hnf, Hw, Hne, andb_false_r, andb_true_r in Hflag.
      simpl in Hflag. rewrite Hms in Hm.
      split; [|by exists hit].
      intros ->. rewrite match_terms_nil in Hm. injection Hm as _ <-.
      by rewrite Hflag, orb_false_r.
  - intros fline. by rewrite force_match_spec.
  - intros terms pre raw post Hc Hno Hf. unfold search. rewrite Ho. simpl.
    unfold scan.
    pose proof (forced_line_shown re (SEPERATION +:+ Str.nl)
                  (render_entry (show_line_numbers o)) o
                  (map (fold_case o) terms)
                  (line_number_width (pre ++ raw :: post)) Hc pre raw post Hno Hf)
      as H.
    destruct (loop _ _ _ _ _ _ _ _) as [out|e]; [done|].
    destruct H as (-> & Hre & Hne). repeat split; try done.
    intros ->. done.
Qed.

Lemma always_shown_messages_witness :
  0 <= 0
  /\ Forall (fun r => ends_test
                        {| search_regex := false; search_case_sensitive := false;
                           search_exclusive := false; always_show_errors := true;
                           always_show_warnings := false; show_line_numbers := false;
                           search_context := 0 |} r = false)
       (["# UVM_INFO hello"; "line X"] ++ ["# UVM_ERROR bad thing"])
  /\ match search literal_search
             (["# UVM_INFO hello"; "line X"] ++ "# UVM_ERROR bad thing"
                :: ["# --- UVM Report Summary ---"])
             ["nothing"] {[ "SHOW_ERRORS" := PyBool true ]} with
     | Ok out => In ("# UVM_ERROR bad thing" +:+ Str.nl) out
     | Raise e => e = ReError /\ false = true /\ ["nothing"] <> []
     end.
Proof.
  assert (Hno : Forall (fun r => ends_test
                        {| search_regex := false; search_case_sensitive := false;
                           search_exclusive := false; always_show_errors := true;
                           always_show_warnings := false; show_line_numbers := false;
                           search_context := 0 |} r = false)
       (["# UVM_INFO hello"; "line X"] ++ ["# UVM_ERROR bad thing"])).
  { repeat constructor. }
  split; [lia|]. split; [exact Hno|].
  exact (proj2 (proj2 (always_shown_messages literal_search
                         {[ "SHOW_ERRORS" := PyBool true ]} _ eq_refl))
           ["nothing"] ["# UVM_INFO hello"; "line X"] "# UVM_ERROR bad thing"
           ["# --- UVM Report Summary ---"] ltac:(simpl; lia) Hno eq_refl).
Defined.

(** ** The context count *)

(** C6 (counterexample).  With a context count of -1 the history is not
    cut at all and the message before the match is printed; with 0 it is
    not. *)
Lemma negative_context_differs :
  search literal_search ["# UVM_INFO a"; "# UVM_FATAL b"; "# UVM_INFO c"] []
    {[ "SEARCH_CONTEXT" := PyInt (-1) ]}
  = Ok (with_newlines ["..."; "# UVM_INFO a"; "# UVM_FATAL b"])
  /\ search literal_search ["# UVM_INFO a"; "# UVM_FATAL b"; "# UVM_INFO c"] []
       {[ "SEARCH_CONTEXT" := PyInt 0 ]}
     = Ok (with_newlines ["..."; "# UVM_FATAL b"])
  /\ search literal_search ["# UVM_INFO a"; "# UVM_FATAL b"; "# UVM_INFO c"] []
       {[ "SEARCH_CONTEXT" := PyInt (-1) ]}
     <> search literal_search ["# UVM_INFO a"; "# UVM_FATAL b"; "# UVM_INFO c"] []
          {[ "SEARCH_CONTEXT" := PyInt 0 ]}.
Proof.
  split; [reflexivity|]. split; [reflexivity|]. vm_compute. discriminate.
Qed.

(** * Further properties of [search] *)

(** ** The printed lines are lines of the file, in their order *)

Lemma stored_entries_app (w n : nat) (l l' : list string) :
  stored_entries w n (l ++ l')
  = stored_entries w n l ++ stored_entries w (n + length l) l'.
Proof.
  revert n. induction l as [|raw l IH]; intros n; simpl.
  - by rewrite Nat.add_0_r.
  - rewrite IH. do 3 f_equal. lia.
Qed.

Lemma stored_of_app (evs evs' : list event) :
  stored_of (evs ++ evs') = stored_of evs ++ stored_of evs'.
Proof.
  induction evs as [|[|e] evs IH]; simpl; [done|done|by rewrite IH].
Qed.

Lemma stored_of_map (b : list entry) : stored_of (map Stored b) = b.
Proof. induction b as [|e b IH]; simpl; [done|by rewrite IH]. Qed.

Lemma stored_of_print_messages (ms : list (list entry)) :
  stored_of (print_messages Stored ms) = concat ms.
Proof.
  unfold print_messages. induction ms as [|m ms IH]; simpl; [done|].
  by rewrite stored_of_app, stored_of_map, IH.
Qed.

Lemma slice_from_suffix {A : Type} (k : Z) (l : list A) :
  exists front, l = front ++ slice_from k l.
Proof.
  unfold slice_from. destruct (k <? 0); eexists; symmetry; apply take_drop.
Qed.

Section Accounted.

Variable re_search : string -> string -> option bool.
Variable o : options.
Variable terms : list string.
Variable w : nat.

Lemma close_block_accounted (read : list string) (st : state event) :
  accounted w read st ->
  accounted w read (close_block Separation Stored o st).
Proof.
  intros (Hn & gone & Hall & Hsub). split; [done|].
  unfold close_block. simpl.
  set (history := if (0 <? length (buffer st))%nat
                  then messages st ++ [buffer st] else messages st).
  assert (Hhist : concat history = concat (messages st) ++ buffer st).
  { unfold history. destruct (buffer st) as [|e b]; simpl.
    - by rewrite app_nil_r.
    - by rewrite concat_app; simpl; rewrite app_nil_r. }
  destruct (slice_from_suffix ((search_context o + 1) * -1) history)
    as [front Hfront].
  rewrite Hfront, concat_app in Hhist.
  destruct (matched st || (0 <? context st)); simpl.
  - exists (gone ++ concat front
              ++ concat (slice_from ((search_context o + 1) * -1) history)).
    split; [by rewrite app_nil_r, Hall, <- Hhist|].
    rewrite stored_of_app, stored_of_print_messages.
    apply sublist_app; [|by apply sublist_inserts_l].
    destruct (last st); [done|].
    by rewrite stored_of_app; simpl; rewrite app_nil_r.
  - exists (gone ++ concat front). split; [|by apply sublist_inserts_r].
    by rewrite app_nil_r, Hall, <- Hhist, <- app_assoc.
Qed.

Lemma step_accounted (read : list string) (st st' : state event) (raw : string) :
  accounted w read st ->
  step re_search Separation Stored o terms w st raw = Ok (Continue st') ->
  accounted w (read ++ [raw]) st'.
Proof.
  intros Hacc Hs.
  pose proof (step_continue _ _ _ _ _ _ _ _ _ Hs _ eq_refl)
    as (_ & Hms & Hbuf & Htext & _ & _ & Hnum & _).
  assert (Hb : accounted w read (boundary Separation Stored o st raw)).
  { unfold boundary. destruct (_ || _); [by apply close_block_accounted|done]. }
  destruct Hacc as (Hn & _). destruct Hb as (_ & gone & Hall & Hsub).
  split; [rewrite length_app; simpl; lia|].
  exists gone. rewrite Hms, Hbuf, Htext. split; [|done].
  rewrite stored_entries_app, Hall. simpl.
  by rewrite Hn, <- !app_assoc.
Qed.

Lemma finish_accounted (read : list string) (st : state event) :
  accounted w read st ->
  stored_of (finish Separation Stored o st) `sublist_of` stored_entries w 0 read.
Proof.
  intros (Hn & gone & Hall & Hsub). rewrite Hall. unfold finish.
  destruct (matched st || (0 <? context st));
    [|by apply sublist_inserts_r].
  rewrite !stored_of_app, stored_of_print_messages, stored_of_map.
  apply sublist_app.
  - destruct (last st); [done|].
    by rewrite stored_of_app; simpl; rewrite app_nil_r.
  - apply sublist_app; [|done].
    destruct (slice_from_suffix ((search_context o + 1) * -1)
                (match messages st with [] => [] | _ :: rest => rest end))
      as [front Hfront].
    destruct (messages st) as [|m ms]; simpl in *.
    + symmetry in Hfront. apply app_eq_nil in Hfront as [_ ->]. done.
    + rewrite Hfront at 2. rewrite concat_app.
      by do 2 apply sublist_inserts_l.
Qed.

Lemma loop_accounted (file read : list string) (st : state event)
    (evs : list event) :
  accounted w read st ->
  loop re_search Separation Stored o terms w st file = Ok evs ->
  stored_of evs `sublist_of` stored_entries w 0 (read ++ scanned_lines o file).
Proof.
  revert read st. induction file as [|raw file IH]; intros read st Hacc; simpl.
  - intros [= <-]. rewrite app_nil_r. by apply finish_accounted.
  - destruct (step re_search Separation Stored o terms w st raw)
      as [[st'|out]|e] eqn:Hs; simpl; [| |done].
    + pose proof (step_continue _ _ _ _ _ _ _ _ _ Hs _ eq_refl) as (-> & _).
      intros Hl. rewrite (cons_middle raw), app_assoc.
      by apply (IH _ st'); [apply (step_accounted _ st)|].
    + apply step_return in Hs as [-> ->]. intros [= <-]. rewrite app_nil_r.
      destruct (close_block_accounted _ _ Hacc) as (_ & gone & -> & Hsub).
      by apply sublist_inserts_r.
Qed.

End Accounted.

Lemma scan_accounted (re : string -> string -> option bool) (o : options)
    (file terms : list string) (evs : list event) :
  scan re Separation Stored o file terms = Ok evs ->
  stored_of evs
  `sublist_of` stored_entries (line_number_width file) 0 (scanned_lines o file).
Proof.
  intros Hev. apply (loop_accounted _ _ _ _ _ [] _ _) in Hev; [done|].
  split; [done|]. exists []. split; [done|]. simpl. apply sublist_nil_l.
Qed.

(** X1.  What [search] prints, separation lines apart, is a sublist of the
    lines in front of the first line that ends the test, each with its
    trailing whitespace and escapes removed and numbered by its position in
    the file: the lines come in the order of the file, none twice, and
    neither the line that ends the test nor any line behind it is
    printed. *)
Theorem printed_lines_in_file_order (re : string -> string -> option bool)
    (file terms : list string) (opts : gmap string pyval) (o : options)
    (evs : list event) :
  decode_options opts = Ok o ->
  search_events re file terms opts = Ok evs ->
  search re file terms opts = Ok (map (render (show_line_numbers o)) evs)
  /\ stored_of evs
     `sublist_of` stored_entries (line_number_width file) 0 (scanned_lines o file).
Proof.
  intros Ho Hev. split.
  - by rewrite (search_renders_events _ _ _ _ _ Ho), Hev.
  - unfold search_events in Hev. rewrite Ho in Hev. simpl in Hev.
    by apply scan_accounted in Hev.
Qed.

Lemma printed_lines_in_file_order_witness :
  search literal_search adjacent_runs_file ["three"]
    {[ "SHOW_LINE_NUMBERS" := PyBool true ]}
  = Ok (map (render true)
          [Separation; Stored ("1", "# UVM_FATAL one"); Separation;
           Stored ("3", "# UVM_INFO three"); Stored ("4", "# UVM_FATAL four")])
  /\ stored_of [Separation; Stored ("1", "# UVM_FATAL one"); Separation;
                Stored ("3", "# UVM_INFO three"); Stored ("4", "# UVM_FATAL four")]
     `sublist_of` stored_entries (line_number_width adjacent_runs_file) 0
                    (scanned_lines
                       {| search_regex := false; search_case_sensitive := false;
                          search_exclusive := false; always_show_errors := false;
                          always_show_warnings := false; show_line_numbers := true;
                          search_context := 0 |} adjacent_runs_file).
Proof.
  exact (printed_lines_in_file_order literal_search adjacent_runs_file ["three"]
           {[ "SHOW_LINE_NUMBERS" := PyBool true ]}
           {| search_regex := false; search_case_sensitive := false;
              search_exclusive := false; always_show_errors := false;
              always_show_warnings := false; show_line_numbers := true;
              search_context := 0 |}
           [Separation; Stored ("1", "# UVM_FATAL one"); Separation;
            Stored ("3", "# UVM_INFO three"); Stored ("4", "# UVM_FATAL four")]
           eq_refl eq_refl).
Defined.

(** ** No match, no output *)

Section NoHits.

Variable re_search : string -> string -> option bool.
Context {T : Type}.
Variables (separation : T) (emit : entry -> T).
Variable o : options.
Variable terms : list string.
Variable w : nat.

Lemma mark_matches_no_hit (line fline : string) (m : gmap string Z) :
  Forall (fun s => term_hit re_search o s line fline = Ok false) terms ->
  mark_matches re_search o terms line fline m = Ok m.
Proof.
  induction 1 as [|s l Hs _ IH]; simpl; [done|]. by rewrite Hs.
Qed.

Lemma any_match_no_hit (line fline : string) (mt : bool) :
  Forall (fun s => term_hit re_search o s line fline = Ok false) terms ->
  any_match re_search o terms line fline mt = Ok mt.
Proof.
  induction 1 as [|s l Hs _ IH]; simpl; [done|]. by rewrite Hs.
Qed.

Lemma match_terms_no_hit (line fline : string) (mt : bool) :
  Forall (fun s => term_hit re_search o s line fline = Ok false) terms ->
  match_terms re_search o terms line fline ∅ mt = Ok (∅, mt).
Proof.
  intros H. unfold match_terms. destruct (search_exclusive o).
  - rewrite (mark_matches_no_hit _ _ _ H). simpl. rewrite map_size_empty.
    by destruct terms.
  - by rewrite (any_match_no_hit _ _ _ H).
Qed.

Lemma close_block_quiet (st : state T) :
  matched st = false -> context st <= 0 ->
  close_block separation emit o st
  = {| messages := messages (close_block separation emit o st);
       buffer := []; text := text st; matches := matches st; matched := false;
       last := false; context := context st; line_number := line_number st |}.
Proof.
  intros Hm Hc. unfold close_block. simpl. rewrite Hm. simpl.
  destruct (0 <? context st) eqn:Hpos; [apply Z.ltb_lt in Hpos; lia|done].
Qed.

Lemma loop_no_hits (file : list string) (st : state T) :
  Forall (fun raw =>
            force_match o (compared_line o raw) false = false
            /\ Forall (fun s => term_hit re_search o s (stored_line raw)
                                  (compared_line o raw) = Ok false) terms)
         (scanned_lines o file) ->
  matched st = false -> context st <= 0 -> text st = [] -> matches st = ∅ ->
  loop re_search separation emit o terms w st file = Ok [].
Proof.
  revert st. induction file as [|raw file IH]; intros st Hfile Hm Hc Ht Hms; simpl.
  - unfold finish. rewrite Hm. simpl.
    destruct (0 <? context st) eqn:Hpos; [apply Z.ltb_lt in Hpos; lia|].
    by rewrite Ht.
  - assert (Hb : let st1 := boundary separation emit o st raw in
                 matched st1 = false /\ context st1 <= 0 /\ text st1 = []
                 /\ matches st1 = ∅).
    { unfold boundary. destruct (_ || _); [|done].
      rewrite (close_block_quiet _ Hm Hc). done. }
    destruct Hb as (Hm1 & Hc1 & Ht1 & Hms1).
    unfold step. simpl in Hfile.
    destruct (ends_test o raw); [by rewrite Ht1|].
    apply Forall_cons in Hfile as [[Hforce Hterms] Hfile].
    rewrite Hm1, Hms1, Hforce, (match_terms_no_hit _ _ _ Hterms). simpl.
    by apply IH.
Qed.

End NoHits.

(** X2.  If, in front of the first line that ends the test, no line is
    accepted by the always-show rules and no term hits any line, [search]
    returns the empty list (in either mode, plain or pattern). *)
Theorem no_match_no_output (re : string -> string -> option bool)
    (file terms : list string) (opts : gmap string pyval) (o : options) :
  decode_options opts = Ok o ->
  Forall (unmatched re o terms) (scanned_lines o file) ->
  search re file terms opts = Ok [].
Proof.
  intros Ho Hfile. unfold search. rewrite Ho. simpl. unfold scan.
  apply loop_no_hits; try done.
  eapply Forall_impl; [exact Hfile|]. intros raw [Hf Ht]. split; [done|].
  by apply Forall_map.
Qed.

Lemma no_match_no_output_witness :
  Forall (unmatched literal_search
            {| search_regex := false; search_case_sensitive := false;
               search_exclusive := true; always_show_errors := false;
               always_show_warnings := true; show_line_numbers := false;
               search_context := 2 |} ["fail"; "timeout"])
    (scanned_lines
       {| search_regex := false; search_case_sensitive := false;
          search_exclusive := true; always_show_errors := false;
          always_show_warnings := true; show_line_numbers := false;
          search_context := 2 |}
       ["# UVM_INFO hello"; "# UVM_ERROR bad"; "# --- UVM Report Summary ---";
        "# UVM_FATAL fail"])
  /\ search literal_search
       ["# UVM_INFO hello"; "# UVM_ERROR bad"; "# --- UVM Report Summary ---";
        "# UVM_FATAL fail"]
       ["fail"; "timeout"]
       {[ "SEARCH_EXCLUSIVE" := PyBool true; "SHOW_WARNINGS" := PyBool true;
          "SEARCH_CONTEXT" := PyInt 2 ]}
     = Ok [].
Proof.
  assert (H : Forall (unmatched literal_search
            {| search_regex := false; search_case_sensitive := false;
               search_exclusive := true; always_show_errors := false;
               always_show_warnings := true; show_line_numbers := false;
               search_context := 2 |} ["fail"; "timeout"])
    (scanned_lines
       {| search_regex := false; search_case_sensitive := false;
          search_exclusive := true; always_show_errors := false;
          always_show_warnings := true; show_line_numbers := false;
          search_context := 2 |}
       ["# UVM_INFO hello"; "# UVM_ERROR bad"; "# --- UVM Report Summary ---";
        "# UVM_FATAL fail"])).
  { repeat constructor. }
  split; [exact H|].
  exact (no_match_no_output literal_search _ _
           {[ "SEARCH_EXCLUSIVE" := PyBool true; "SHOW_WARNINGS" := PyBool true;
              "SEARCH_CONTEXT" := PyInt 2 ]} _ eq_refl H).
Defined.

(** ** A block that matches is printed whole *)

Section Blocks.

Variable re_search : string -> string -> option bool.
Context {T : Type}.
Variables (separation : T) (emit : entry -> T).
Variable o : options.
Variable terms : list string.
Variable w : nat.
Hypothesis context_nonnegative : 0 <= search_context o.

Local Abbreviation step' := (step re_search separation emit o terms w).
Local Abbreviation loop' := (loop re_search separation emit o terms w).

Lemma any_match_hit (line fline : string) (mt b : bool) :
  Exists (fun s => term_hit re_search o s line fline = Ok true) terms ->
  any_match re_search o terms line fline mt = Ok b -> b = true.
Proof.
  intros Hex. revert mt. induction Hex as [s l Hs|s l _ IH]; intros mt; simpl.
  - rewrite Hs. simpl. apply any_match_true.
  - destruct (term_hit re_search o s line fline) as [hit|]; simpl; [|done].
    apply IH.
Qed.

Lemma step_line_matches (st st' : state T) (raw : string) :
  line_matches re_search o terms raw ->
  step' st raw = Ok (Continue st') ->
  matched st' = true.
Proof.
  intros Hm Hs.
  destruct (step_matched _ _ _ _ _ _ _ _ _ Hs) as (hit & Hterms & ->).
  destruct Hm as [Hf|[Hor Hex]].
  - by rewrite (force_match_forced _ _ _ Hf).
  - unfold match_terms in Hterms. rewrite Hor in Hterms.
    destruct (any_match _ _ _ _ _ _) as [b|] eqn:Hany; simpl in Hterms; [|done].
    injection Hterms as _ <-. apply (any_match_hit _ _ _ _ Hex) in Hany as ->.
    by rewrite orb_true_r.
Qed.

Lemma step_continues_block (st st' : state T) (raw : string) :
  continues_block o raw ->
  step' st raw = Ok (Continue st') ->
  buffer st' = buffer st ++ [(Str.ljust (S (line_number st)) w, stored_line raw)]
  /\ line_number st' = S (line_number st)
  /\ (matched st = true -> matched st' = true).
Proof.
  intros [Hmsg Hend] Hs.
  pose proof (step_continue _ _ _ _ _ _ _ _ _ Hs _ eq_refl)
    as (_ & _ & Hbuf & _ & _ & _ & Hnum & Hm).
  unfold boundary in *. rewrite Hmsg, Hend in *. simpl in *.
  split; [done|]. split; [done|].
  intros Hmt. rewrite Hmt, force_match_true in Hm.
  by apply match_terms_true in Hm.
Qed.

(** The lines that continue a block join its buffer, and the flag of the
    block is set if it was or if one of them matches. *)
Lemma loop_body (body rest : list string) (st : state T) :
  Forall (continues_block o) body ->
  (exists e, loop' st (body ++ rest) = Raise e)
  \/ (exists st',
        loop' st (body ++ rest) = loop' st' rest
        /\ buffer st' = buffer st ++ stored_entries w (line_number st) body
        /\ (matched st = true \/ Exists (line_matches re_search o terms) body ->
            matched st' = true)).
Proof.
  intros Hbody. revert st.
  induction Hbody as [|raw body Hraw _ IH]; intros st; simpl.
  - right. exists st. rewrite app_nil_r. split; [done|]. split; [done|].
    intros [?|Hex]; [done|]. by apply Exists_nil in Hex.
  - destruct (step' st raw) as [[st1|out]|e] eqn:Hs; simpl.
    + destruct (step_continues_block _ _ _ Hraw Hs) as (Hbuf & Hnum & Hmt).
      destruct (IH st1) as [Hr|(st' & Hl & Hbuf' & Hm')]; [by left|].
      right. exists st'. split; [done|].
      split; [by rewrite Hbuf', Hbuf, Hnum, <- app_assoc|].
      intros [Hm|Hex]; apply Hm'.
      * left. by apply Hmt.
      * apply Exists_cons in Hex as [Hex|Hex]; [left|by right].
        by eapply step_line_matches.
    + apply step_return in Hs as [Hend _]. destruct Hraw. congruence.
    + left. by exists e.
Qed.

Lemma block_shown (pre : list string) (first : string) (body post : list string) :
  Forall (fun r => ends_test o r = false) (pre ++ [first]) ->
  Forall (continues_block o) body ->
  Exists (line_matches re_search o terms) (first :: body) ->
  match loop' initial (pre ++ first :: body ++ post) with
  | Ok out =>
      Forall (fun e => In (emit e) out) (stored_entries w (length pre) (first :: body))
  | Raise e => e = ReError /\ search_regex o = true /\ terms <> []
  end.
Proof.
  intros Hno Hbody Hex.
  destruct (loop' initial (pre ++ first :: body ++ post)) as [out|e] eqn:Hl;
    [|by apply loop_raise in Hl].
  apply Forall_app in Hno as [Hpre Hfirst%Forall_inv].
  destruct (loop_prefix re_search separation emit o terms w (fun _ => True)
              pre (first :: body ++ post) initial)
    as [[e He]|(st & _ & Hn & Heq)]; [done|done|done|congruence|].
  rewrite Heq in Hl. simpl in Hl, Hn.
  destruct (step' st first) as [[st1|out']|e] eqn:Hs; simpl in Hl;
    [|apply step_return in Hs as [Hend _]; congruence|done].
  pose proof (step_continue _ _ _ _ _ _ _ _ _ Hs _ eq_refl)
    as (_ & _ & Hbuf & _ & _ & _ & Hnum & _).
  destruct (loop_body body post st1 Hbody) as [[e He]|(st2 & Hl2 & Hbuf2 & Hm2)];
    [congruence|].
  rewrite Hl2 in Hl.
  assert (Hmt : matched st2 = true).
  { apply Hm2. apply Exists_cons in Hex as [Hex|Hex]; [left|by right].
    by eapply step_line_matches. }
  apply List.Forall_forall. intros e He.
  apply (loop_kept re_search separation emit o terms w context_nonnegative
           e post st2 out); [|done].
  left. split; [|done]. rewrite Hbuf2, Hbuf, Hnum, Hn.
  simpl in He. destruct He as [<-|He].
  - apply in_or_app. left. apply in_or_app. right. by left.
  - apply in_or_app. by right.
Qed.

End Blocks.

(** X3.  With a context count of 0 or more, take a run of lines that the
    loop reaches, none of which but the first opens a message or ends the
    test.  If one of its lines is accepted by an always-show rule, or the
    search is inclusive and a term hits one of its lines, then every line of
    the run is in the result of [search], which fails only in
    [re.search]. *)
Theorem matching_block_printed_whole (re : string -> string -> option bool)
    (terms : list string) (opts : gmap string pyval) (o : options)
    (pre : list string) (first : string) (body post : list string) :
  decode_options opts = Ok o ->
  0 <= search_context o ->
  Forall (fun r => ends_test o r = false) (pre ++ [first]) ->
  Forall (continues_block o) body ->
  Exists (line_matches re o (map (fold_case o) terms)) (first :: body) ->
  match search re (pre ++ first :: body ++ post) terms opts with
  | Ok out =>
      Forall (fun e => In (render_entry (show_line_numbers o) e) out)
        (stored_entries (line_number_width (pre ++ first :: body ++ post))
           (length pre) (first :: body))
  | Raise e => e = ReError /\ search_regex o = true /\ terms <> []
  end.
Proof.
  intros Ho Hc Hno Hbody Hex. unfold search. rewrite Ho. simpl. unfold scan.
  pose proof (block_shown re (SEPERATION +:+ Str.nl)
                (render_entry (show_line_numbers o)) o (map (fold_case o) terms)
                (line_number_width (pre ++ first :: body ++ post))
                Hc pre first body post Hno Hbody Hex) as H.
  destruct (loop _ _ _ _ _ _ _ _) as [out|e]; [done|].
  destruct H as (-> & Hre & Hne). repeat split; try done. by intros ->.
Qed.

Lemma matching_block_printed_whole_witness :
  0 <= 0
  /\ Forall (fun r => ends_test
                        {| search_regex := false; search_case_sensitive := false;
                           search_exclusive := false; always_show_errors := false;
                           always_show_warnings := false; show_line_numbers := false;
                           search_context := 0 |} r = false)
       ([] ++ ["# UVM_INFO hello"])
  /\ match search literal_search
             ([] ++ "# UVM_INFO hello" :: ["line X"]
                ++ ["# UVM_ERROR bad thing"; "# --- UVM Report Summary ---"])
             ["LINE x"] ∅ with
     | Ok out =>
         Forall (fun e => In (render_entry false e) out)
           [("1", "# UVM_INFO hello"); ("2", "line X")]
     | Raise e => e = ReError /\ false = true /\ ["LINE x"] <> []
     end.
Proof.
  assert (Hno : Forall (fun r => ends_test
                        {| search_regex := false; search_case_sensitive := false;
                           search_exclusive := false; always_show_errors := false;
                           always_show_warnings := false; show_line_numbers := false;
                           search_context := 0 |} r = false)
                  ([] ++ ["# UVM_INFO hello"])).
  { repeat constructor. }
  split; [lia|]. split; [exact Hno|].
  refine (matching_block_printed_whole literal_search ["LINE x"] ∅ _ []
            "# UVM_INFO hello" ["line X"]
            ["# UVM_ERROR bad thing"; "# --- UVM Report Summary ---"]
            eq_refl ltac:(simpl; lia) Hno _ _).
  - repeat constructor.
  - apply Exists_cons_tl, Exists_cons_hd. right. split; [reflexivity|].
    apply Exists_cons_hd. reflexivity.
Defined.

(** ** The history and the pending context stay within the context count *)

Section Bounded.

Variable re_search : string -> string -> option bool.
Context {T : Type}.
Variables (separation : T) (emit : entry -> T).
Variable o : options.
Variable terms : list string.
Variable w : nat.

Lemma run_invariant (P : state T -> Prop) (pre : list string) (st st' : state T) :
  (forall st raw st',
      P st -> step re_search separation emit o terms w st raw = Ok (Continue st') ->
      P st') ->
  P st ->
  run re_search separation emit o terms w st pre = Ok (Continue st') ->
  P st'.
Proof.
  intros Hstep. revert st. induction pre as [|raw pre IH]; intros st HP; simpl.
  - by intros [= <-].
  - destruct (step re_search separation emit o terms w st raw)
      as [[st1|out]|e] eqn:Hs; simpl; [|done|done].
    apply IH. by eapply Hstep.
Qed.

Lemma step_within_context (st st' : state T) (raw : string) :
  0 <= search_context o ->
  within_context o st ->
  step re_search separation emit o terms w st raw = Ok (Continue st') ->
  within_context o st'.
Proof.
  intros Hc [Hlen Hctx] Hs.
  pose proof (step_continue _ _ _ _ _ _ _ _ _ Hs _ eq_refl)
    as (_ & Hms & _ & _ & _ & Hcx & _).
  unfold within_context. rewrite Hms, Hcx. unfold boundary.
  destruct (_ || _); [|done].
  split; [by apply close_block_trims|].
  unfold close_block. simpl.
  destruct (matched st); [lia|].
  destruct (0 <? context st) eqn:Hpos; [apply Z.ltb_lt in Hpos|]; lia.
Qed.

End Bounded.

(** X4.  With a context count of 0 or more, after any number of lines that
    the loop has read without returning, the history holds at most
    [search_context + 1] messages, and the count of pending context
    messages lies between 0 and [search_context]. *)
Theorem history_within_context (re : string -> string -> option bool)
    {T : Type} (separation : T) (emit : entry -> T) (o : options)
    (terms : list string) (w : nat) (pre : list string) (st : state T) :
  0 <= search_context o ->
  run re separation emit o terms w initial pre = Ok (Continue st) ->
  Z.of_nat (length (messages st)) <= search_context o + 1
  /\ 0 <= context st <= search_context o.
Proof.
  intros Hc Hrun.
  apply (run_invariant re separation emit o terms w (within_context o)
           pre initial st); [|split; simpl; lia|done].
  intros st0 raw st1. by apply step_within_context.
Qed.

Lemma history_within_context_witness :
  0 <= 1
  /\ exists st : state event,
      run literal_search Separation Stored
        {| search_regex := false; search_case_sensitive := false;
           search_exclusive := false; always_show_errors := false;
           always_show_warnings := false; show_line_numbers := false;
           search_context := 1 |} [] 1 initial
        ["# UVM_INFO a"; "# UVM_INFO b"; "# UVM_INFO c"; "# UVM_FATAL d";
         "# UVM_INFO e"]
      = Ok (Continue st)
      /\ Z.of_nat (length (messages st)) <= 1 + 1
      /\ 0 <= context st <= 1.
Proof.
  split; [lia|]. eexists. split; [vm_compute; reflexivity|].
  apply (history_within_context literal_search Separation Stored
           {| search_regex := false; search_case_sensitive := false;
              search_exclusive := false; always_show_errors := false;
              always_show_warnings := false; show_line_numbers := false;
              search_context := 1 |} [] 1
           ["# UVM_INFO a"; "# UVM_INFO b"; "# UVM_INFO c"; "# UVM_FATAL d";
            "# UVM_INFO e"]); [simpl; lia|reflexivity].
Defined.

(** ** What the scanner asks [re.search] *)

Section Agree.

Variables re re' : string -> string -> option bool.
Context {T : Type}.
Variables (separation : T) (emit : entry -> T).
Variable o : options.
Variable terms : list string.
Variable w : nat.

Lemma term_hit_agree (s line fline : string) :
  (search_regex o = true -> re s line = re' s line) ->
  term_hit re o s line fline = term_hit re' o s line fline.
Proof.
  unfold term_hit. destruct (search_regex o); [|done]. by intros ->.
Qed.

Lemma mark_matches_agree (l : list string) (line fline : string) (m : gmap string Z) :
  (search_regex o = true -> Forall (fun s => re s line = re' s line) l) ->
  mark_matches re o l line fline m = mark_matches re' o l line fline m.
Proof.
  revert m. induction l as [|s l IH]; intros m H; simpl; [done|].
  rewrite (term_hit_agree s line fline)
    by (intros Hre; by apply Forall_inv in H).
  destruct (term_hit re' o s line fline); simpl; [|done].
  apply IH. intros Hre. specialize (H Hre). by apply Forall_inv_tail in H.
Qed.

Lemma any_match_agree (l : list string) (line fline : string) (mt : bool) :
  (search_regex o = true -> Forall (fun s => re s line = re' s line) l) ->
  any_match re o l line fline mt = any_match re' o l line fline mt.
Proof.
  revert mt. induction l as [|s l IH]; intros mt H; simpl; [done|].
  rewrite (term_hit_agree s line fline)
    by (intros Hre; by apply Forall_inv in H).
  destruct (term_hit re' o s line fline); simpl; [|done].
  apply IH. intros Hre. specialize (H Hre). by apply Forall_inv_tail in H.
Qed.

Lemma match_terms_agree (line fline : string) (m : gmap string Z) (mt : bool) :
  (search_regex o = true -> Forall (fun s => re s line = re' s line) terms) ->
  match_terms re o terms line fline m mt = match_terms re' o terms line fline m mt.
Proof.
  intros H. unfold match_terms.
  by rewrite (mark_matches_agree _ _ _ _ H), (any_match_agree _ _ _ _ H).
Qed.

Lemma step_agree (st : state T) (raw : string) :
  (ends_test o raw = false -> search_regex o = true ->
   Forall (fun s => re s (stored_line raw) = re' s (stored_line raw)) terms) ->
  step re separation emit o terms w st raw
  = step re' separation emit o terms w st raw.
Proof.
  intros H. unfold step. destruct (ends_test o raw); [done|].
  by rewrite match_terms_agree by (by apply H).
Qed.

(** The result depends on [re.search] only through what it answers for the
    terms and the stored lines in front of the first line that ends the
    test. *)
Lemma loop_agree (file : list string) (st : state T) :
  (search_regex o = true ->
   Forall (fun raw => Forall (fun s => re s (stored_line raw)
                                       = re' s (stored_line raw)) terms)
          (scanned_lines o file)) ->
  loop re separation emit o terms w st file
  = loop re' separation emit o terms w st file.
Proof.
  revert st. induction file as [|raw file IH]; intros st H; simpl; [done|].
  simpl in H.
  rewrite step_agree.
  2:{ intros Hend Hre. specialize (H Hre). rewrite Hend in H.
      by apply Forall_inv in H. }
  destruct (step re' separation emit o terms w st raw) as [[st'|out]|e] eqn:Hs;
    simpl; [|done|done].
  apply IH. intros Hre. specialize (H Hre).
  pose proof (step_continue _ _ _ _ _ _ _ _ _ Hs _ eq_refl) as (Hend & _).
  rewrite Hend in H. by apply Forall_inv_tail in H.
Qed.

End Agree.

(** ** When [search] fails *)

(** X5.  Where [search] raises.  A [SEARCH_CONTEXT] entry that holds
    [None] makes it raise [TypeError], whatever the file and the terms.  A
    plain-text search and a search without terms do not call [re.search]:
    their result is the same for every [re.search].  [re.error] comes out
    of [search] only in pattern mode with at least one term; and in
    pattern mode, if the first line does not end the test and [re.search]
    rejects the first term, [search] raises [re.error]. *)
Theorem search_failures (re : string -> string -> option bool)
    (file terms : list string) (opts : gmap string pyval) :
  (opts !! "SEARCH_CONTEXT" = Some PyNone ->
   search re file terms opts = Raise TypeError)
  /\ (forall re', enabled opts "SEARCH_REGEX" = false \/ terms = [] ->
                  search re' file terms opts = search re file terms opts)
  /\ (search re file terms opts = Raise ReError ->
      enabled opts "SEARCH_REGEX" = true /\ terms <> [])
  /\ (forall o raw rest t ts,
        decode_options opts = Ok o -> search_regex o = true ->
        file = raw :: rest -> terms = t :: ts ->
        ends_test o raw = false -> re t (stored_line raw) = None ->
        search re file terms opts = Raise ReError).
Proof.
  split; [|split; [|split]].
  - intros Hctx. unfold search, decode_options. by rewrite Hctx.
  - intros re' H. unfold search.
    destruct (decode_options opts) as [o|e] eqn:Ho; [|done]. simpl.
    destruct (decode_options_flags _ _ Ho) as (Hre & _).
    unfold scan. destruct H as [H| ->].
    + apply loop_agree. intros Hre'. congruence.
    + simpl. destruct (loop_no_terms re' (SEPERATION +:+ Str.nl)
                         (render_entry (show_line_numbers o)) o
                         (line_number_width file) file initial) as [out Hout].
      rewrite Hout. symmetry.
      destruct (loop re _ _ o [] _ initial file) as [out'|e] eqn:Hl.
      * rewrite <- Hout.
        rewrite <- (loop_no_terms_exclusive re re' _ _ o _
                      (search_exclusive o) file initial) in Hl.
        replace (with_exclusive (search_exclusive o) o) with o in Hl
          by (by destruct o).
        congruence.
      * by apply loop_raise in Hl as (_ & _ & ?).
  - unfold search. destruct (decode_options opts) as [o|e] eqn:Ho; simpl.
    + intros Hl. apply loop_raise in Hl as (_ & Hre & Hne).
      destruct (decode_options_flags _ _ Ho) as (<- & _).
      split; [done|]. by intros ->.
    + intros [= ->]. unfold decode_options in Ho.
      destruct (opts !! "SEARCH_CONTEXT") as [[]|]; simpl in Ho; done.
  - intros o raw rest t ts Ho Hre -> -> Hend Hnone. unfold search.
    rewrite Ho. simpl. unfold scan. simpl. unfold step. rewrite Hend.
    assert (Hcase : search_case_sensitive o = true).
    { destruct (decode_options_flags _ _ Ho) as (Hr & -> & _).
      by rewrite <- Hr, Hre, orb_true_r. }
    rewrite (fold_case_sensitive _ t Hcase).
    unfold match_terms. simpl. unfold term_hit. rewrite Hre, Hnone.
    by destruct (search_exclusive o).
Qed.

Lemma search_failures_witness :
  search failing_search ["# UVM_INFO a"] ["a"; "("]
    {[ "SEARCH_CONTEXT" := PyNone ]}
  = Raise TypeError
  /\ search failing_search ["# UVM_INFO a"] ["("; "a"]
       {[ "SEARCH_REGEX" := PyBool false ]}
     = search literal_search ["# UVM_INFO a"] ["("; "a"]
         {[ "SEARCH_REGEX" := PyBool false ]}
  /\ search failing_search ["# UVM_INFO a"] ["("; "a"]
       {[ "SEARCH_REGEX" := PyBool true ]}
     = Raise ReError.
Proof.
  split; [|split].
  - exact (proj1 (search_failures failing_search ["# UVM_INFO a"] ["a"; "("]
                    {[ "SEARCH_CONTEXT" := PyNone ]}) eq_refl).
  - exact (proj1 (proj2 (search_failures literal_search ["# UVM_INFO a"] ["("; "a"]
                           {[ "SEARCH_REGEX" := PyBool false ]}))
             failing_search (or_introl eq_refl)).
  - exact (proj2 (proj2 (proj2 (search_failures failing_search ["# UVM_INFO a"]
                                  ["("; "a"] {[ "SEARCH_REGEX" := PyBool true ]})))
             {| search_regex := true; search_case_sensitive := true;
                search_exclusive := false; always_show_errors := false;
                always_show_warnings := false; show_line_numbers := false;
                search_context := 0 |}
             "# UVM_INFO a" [] "(" ["a"] eq_refl eq_refl eq_refl eq_refl eq_refl
             eq_refl).
Defined.

(** ** Line numbers *)

Lemma decode_options_empty : decode_options ∅ = Ok default_options.
Proof. reflexivity. Qed.

Lemma decode_options_line_numbers (opts : gmap string pyval) (o : options)
    (v : pyval) :
  decode_options opts = Ok o ->
  decode_options (<["SHOW_LINE_NUMBERS" := v]> opts)
  = Ok (with_line_numbers (eq_True v) o).
Proof.
  unfold decode_options.
  rewrite lookup_insert_ne by discriminate.
  rewrite (enabled_insert_ne _ _ "SEARCH_REGEX") by discriminate.
  rewrite (enabled_insert_ne _ _ "SEARCH_CASE_SENSITIVE") by discriminate.
  rewrite (enabled_insert_ne _ _ "SEARCH_EXCLUSIVE") by discriminate.
  rewrite (enabled_insert_ne _ _ "SHOW_ERRORS") by discriminate.
  rewrite (enabled_insert_ne _ _ "SHOW_WARNINGS") by discriminate.
  rewrite enabled_insert_eq.
  destruct (opts !! "SEARCH_CONTEXT") as [[]|]; simpl; try done;
    by intros [= <-].
Qed.

Lemma mark_matches_line_numbers (re : string -> string -> option bool)
    (x : bool) (o : options) (terms : list string) (line fline : string)
    (m : gmap string Z) :
  mark_matches re (with_line_numbers x o) terms line fline m
  = mark_matches re o terms line fline m.
Proof.
  revert m. induction terms as [|s l IH]; intros m; simpl; [done|].
  change (term_hit re (with_line_numbers x o) s line fline)
    with (term_hit re o s line fline).
  destruct (term_hit re o s line fline); simpl; [apply IH|done].
Qed.

Lemma any_match_line_numbers (re : string -> string -> option bool)
    (x : bool) (o : options) (terms : list string) (line fline : string)
    (mt : bool) :
  any_match re (with_line_numbers x o) terms line fline mt
  = any_match re o terms line fline mt.
Proof.
  revert mt. induction terms as [|s l IH]; intros mt; simpl; [done|].
  change (term_hit re (with_line_numbers x o) s line fline)
    with (term_hit re o s line fline).
  destruct (term_hit re o s line fline); simpl; [apply IH|done].
Qed.

Lemma match_terms_line_numbers (re : string -> string -> option bool)
    (x : bool) (o : options) (terms : list string) (line fline : string)
    (m : gmap string Z) (mt : bool) :
  match_terms re (with_line_numbers x o) terms line fline m mt
  = match_terms re o terms line fline m mt.
Proof.
  unfold match_terms. simpl.
  by rewrite mark_matches_line_numbers, any_match_line_numbers.
Qed.

Lemma loop_line_numbers (re : string -> string -> option bool) {T : Type}
    (separation : T) (emit : entry -> T) (x : bool) (o : options)
    (terms : list string) (w : nat) (file : list string) (st : state T) :
  loop re separation emit (with_line_numbers x o) terms w st file
  = loop re separation emit o terms w st file.
Proof.
  revert st. induction file as [|raw file IH]; intros st; simpl; [reflexivity|].
  assert (Hs : step re separation emit (with_line_numbers x o) terms w st raw
               = step re separation emit o terms w st raw).
  { unfold step. rewrite match_terms_line_numbers. reflexivity. }
  rewrite Hs.
  destruct (step re separation emit o terms w st raw) as [[st'|out]|e]; simpl;
    [apply IH|reflexivity|reflexivity].
Qed.

(** X6.  The [SHOW_LINE_NUMBERS] entry does not change which lines and
    separation lines are printed, only how a line is rendered: whatever the
    entry holds, [search_events] gives the same entries, and [search] gives
    their rendering with or without the numbers. *)
Theorem line_numbers_only_render (re : string -> string -> option bool)
    (file terms : list string) (opts : gmap string pyval) (o : options)
    (v : pyval) :
  decode_options opts = Ok o ->
  search_events re file terms (<["SHOW_LINE_NUMBERS" := v]> opts)
  = search_events re file terms opts
  /\ search re file terms (<["SHOW_LINE_NUMBERS" := v]> opts)
     = map_result (map (render (eq_True v))) (search_events re file terms opts).
Proof.
  intros Ho.
  assert (Hev : search_events re file terms (<["SHOW_LINE_NUMBERS" := v]> opts)
                = search_events re file terms opts).
  { unfold search_events. rewrite (decode_options_line_numbers _ _ v Ho), Ho.
    simpl. unfold scan. apply loop_line_numbers. }
  split; [done|].
  rewrite (search_renders_events _ _ _ _ _ (decode_options_line_numbers _ _ v Ho)).
  by rewrite Hev.
Qed.

Lemma line_numbers_only_render_witness :
  search literal_search example_file ["hello"]
    (<["SHOW_LINE_NUMBERS" := PyBool true]> ∅)
  = map_result (map (render true)) (search_events literal_search example_file ["hello"] ∅).
Proof.
  exact (proj2 (line_numbers_only_render literal_search example_file ["hello"] ∅
                  default_options (PyBool true) decode_options_empty)).
Defined.

Lemma string_of_uint_length (d : Decimal.uint) :
  String.length (NilEmpty.string_of_uint d) = Decimal.nb_digits d.
Proof. induction d; simpl; congruence. Qed.

Lemma nb_digits_succ (d : Decimal.uint) :
  (Decimal.nb_digits d <= Decimal.nb_digits (Decimal.Little.succ d))%nat.
Proof. induction d; simpl; lia. Qed.

Lemma to_little_uint_succ (n : nat) (acc : Decimal.uint) :
  Nat.to_little_uint n (Decimal.Little.succ acc)
  = Decimal.Little.succ (Nat.to_little_uint n acc).
Proof.
  revert acc. induction n as [|n IH]; intros acc; simpl; [done|]. by rewrite IH.
Qed.

(** A smaller number has no more digits. *)
Lemma of_nat_length_mono (n m : nat) :
  (n <= m)%nat -> (String.length (Str.of_nat n) <= String.length (Str.of_nat m))%nat.
Proof.
  unfold Str.of_nat, Nat.to_uint. rewrite !string_of_uint_length, !nb_digits_rev.
  induction 1 as [|m _ IH]; [done|].
  change (Nat.to_little_uint (S m) Decimal.zero)
    with (Nat.to_little_uint m (Decimal.Little.succ Decimal.zero)).
  rewrite to_little_uint_succ.
  pose proof (nb_digits_succ (Nat.to_little_uint m Decimal.zero)). lia.
Qed.

Lemma length_append (s s' : string) :
  String.length (s +:+ s') = (String.length s + String.length s')%nat.
Proof. induction s as [|c s IH]; simpl; [done|by rewrite IH]. Qed.

Lemma spaces_length (n : nat) : String.length (Str.spaces n) = n.
Proof. induction n as [|n IH]; simpl; [done|by rewrite IH]. Qed.

Lemma ljust_length (n w : nat) :
  String.length (Str.ljust n w) = max w (String.length (Str.of_nat n)).
Proof.
  unfold Str.ljust. rewrite length_append, spaces_length. lia.
Qed.

Lemma stored_entries_width (w n : nat) (l : list string) (m : nat) :
  (n + length l <= m)%nat -> w = String.length (Str.of_nat m) ->
  Forall (fun e => String.length (fst e) = w) (stored_entries w n l).
Proof.
  revert n. induction l as [|raw l IH]; intros n Hn Hw; simpl; [done|].
  simpl in Hn. constructor; [|apply IH; [lia|done]].
  simpl. rewrite ljust_length.
  pose proof (of_nat_length_mono (S n) m ltac:(lia)). lia.
Qed.

Lemma scanned_lines_length (o : options) (file : list string) :
  (length (scanned_lines o file) <= length file)%nat.
Proof.
  induction file as [|raw file IH]; simpl; [done|].
  destruct (ends_test o raw); simpl; lia.
Qed.

Lemma stored_of_elem (evs : list event) (e : entry) :
  In (Stored e) evs -> e ∈ stored_of evs.
Proof.
  induction evs as [|[|e'] evs IH]; simpl; [done| |].
  - intros [?|?]; [done|by apply IH].
  - intros [[= ->]|?]; [left|right; by apply IH].
Qed.

(** X7.  Every line number that [search] prints is padded to one and the
    same width, the number of digits of the number of lines of the file, so
    that the printed lines are aligned. *)
Theorem line_numbers_aligned (re : string -> string -> option bool)
    (file terms : list string) (opts : gmap string pyval) (evs : list event)
    (e : entry) :
  search_events re file terms opts = Ok evs ->
  In (Stored e) evs ->
  String.length (fst e) = String.length (Str.of_nat (length file)).
Proof.
  intros Hev Hin. unfold search_events in Hev.
  destruct (decode_options opts) as [o|] eqn:Ho; simpl in Hev; [|done].
  apply scan_accounted in Hev. apply stored_of_elem in Hin.
  pose proof (elem_of_sublist _ _ _ Hin Hev) as He.
  pose proof (stored_entries_width (line_number_width file) 0
                (scanned_lines o file) (length file)
                (scanned_lines_length o file) eq_refl) as Hall.
  rewrite Forall_forall in Hall. by apply Hall.
Qed.

Lemma line_numbers_aligned_witness :
  String.length (fst (Str.ljust 3 1, "# UVM_ERROR bad thing"))
  = String.length (Str.of_nat (length example_file)).
Proof.
  apply (line_numbers_aligned literal_search example_file []
           {[ "SHOW_ERRORS" := PyBool true ]}
           [Separation; Stored (Str.ljust 3 1, "# UVM_ERROR bad thing")]);
    [reflexivity|right; by left].
Defined.

(** ** The letter case of the terms *)

(** X8.  When the search is not case sensitive, two lists of terms that
    differ in letter case only give the same result. *)
Theorem term_case_ignored (re : string -> string -> option bool)
    (file terms terms' : list string) (opts : gmap string pyval) (o : options) :
  decode_options opts = Ok o ->
  search_case_sensitive o = false ->
  map Str.lower terms = map Str.lower terms' ->
  search re file terms opts = search re file terms' opts.
Proof.
  intros Ho Hcase Hterms. unfold search. rewrite Ho. simpl. unfold scan.
  assert (H : forall l, map (fold_case o) l = map Str.lower l).
  { intros l. apply map_ext. intros s. unfold fold_case. by rewrite Hcase. }
  by rewrite !H, Hterms.
Qed.

Lemma term_case_ignored_witness :
  map Str.lower ["WARN"; "Bad"] = map Str.lower ["warn"; "bAD"]
  /\ search literal_search example_file ["WARN"; "Bad"] ∅
     = search literal_search example_file ["warn"; "bAD"] ∅.
Proof.
  split; [reflexivity|].
  apply (term_case_ignored literal_search example_file _ _ ∅ default_options
           decode_options_empty); reflexivity.
Defined.

(** * Properties of the search form *)

(** ** The options that the form hands to [search] *)

(** X9.  The dictionary that [search_file] builds always decodes, to the
    settings of the form: pattern mode when the search type is
    "regex_search", case sensitivity when the check box is set or in
    pattern mode, exclusive search when the inclusivity reads "And", and
    the context count as it stands. *)
Theorem form_options_decode (f : SearchGUI.form) :
  decode_options (SearchGUI.search_options f)
  = Ok {| search_regex := String.eqb (SearchGUI.search_type f) "regex_search";
          search_case_sensitive :=
            SearchGUI.search_case_sensitive f
            || String.eqb (SearchGUI.search_type f) "regex_search";
          search_exclusive := String.eqb (SearchGUI.search_inclusivity f) "And";
          always_show_errors := SearchGUI.search_always_show_errors f;
          always_show_warnings := SearchGUI.search_always_show_warnings f;
          show_line_numbers := SearchGUI.search_show_line_numbers f;
          search_context := SearchGUI.search_context f |}.
Proof.
  unfold decode_options, enabled, SearchGUI.search_options.
  destruct (String.eqb (SearchGUI.search_type f) "regex_search");
    simplify_map_eq; simpl;
    by destruct (SearchGUI.search_case_sensitive f).
Qed.

Lemma form_options_decode_witness :
  decode_options (SearchGUI.search_options SearchGUI.init)
  = Ok {| search_regex := false; search_case_sensitive := false;
          search_exclusive := false; always_show_errors := true;
          always_show_warnings := true; show_line_numbers := true;
          search_context := 0 |}.
Proof. exact (form_options_decode SearchGUI.init). Defined.

(** ** The terms that the form hands to [search] *)

Lemma filled_nonempty (entries : list (nat * string)) :
  Forall (fun s => s <> "") (SearchGUI.filled entries).
Proof.
  induction entries as [|[k v] entries IH]; simpl; [done|].
  destruct (String.eqb v "") eqn:Hv; [done|].
  constructor; [|done]. intros ->. discriminate.
Qed.

Lemma filled_sublist (entries : list (nat * string)) :
  SearchGUI.filled entries `sublist_of` map snd entries.
Proof.
  induction entries as [|[k v] entries IH]; simpl; [done|].
  destruct (String.eqb v ""); [by apply sublist_cons|by apply sublist_skip].
Qed.

Lemma filled_complete (entries : list (nat * string)) (s : string) :
  In s (map snd entries) -> s <> "" -> In s (SearchGUI.filled entries).
Proof.
  intros Hin Hne. induction entries as [|[k v] entries IH]; simpl in *; [done|].
  destruct Hin as [->|Hin].
  - destruct (String.eqb s "") eqn:Hs; [by apply String.eqb_eq in Hs|by left].
  - destruct (String.eqb v ""); [by apply IH|right; by apply IH].
Qed.

(** X10.  The terms that [search_file] hands to [search] are the search
    fields that are not empty, in the order of the fields: no term is the
    empty string, every field that is not empty is a term, and there are
    no more terms than fields. *)
Theorem form_terms (f : SearchGUI.form) :
  Forall (fun s => s <> "") (SearchGUI.search_strings f)
  /\ SearchGUI.search_strings f
     `sublist_of` map snd (SearchGUI.search_string_entries f)
  /\ (forall s, In s (map snd (SearchGUI.search_string_entries f)) -> s <> "" ->
                In s (SearchGUI.search_strings f))
  /\ (length (SearchGUI.search_strings f)
      <= length (SearchGUI.search_string_entries f))%nat.
Proof.
  unfold SearchGUI.search_strings.
  split; [apply filled_nonempty|]. split; [apply filled_sublist|].
  split; [apply filled_complete|].
  pose proof (sublist_length _ _ (filled_sublist (SearchGUI.search_string_entries f))) as H.
  by rewrite length_map in H.
Qed.

(** ** The search fields *)

Lemma keys_dict_set_fresh {V : Type} (key : nat) (v : V) (d : list (nat * V)) :
  ~ In key (SearchGUI.keys d) ->
  SearchGUI.keys (SearchGUI.dict_set key v d) = SearchGUI.keys d ++ [key].
Proof.
  induction d as [|[k v'] d IH]; simpl; [done|]. intros Hin.
  destruct (Nat.eqb_spec k key) as [->|Hne]; [by destruct Hin; left|].
  simpl. f_equal. apply IH. intros H. apply Hin. by right.
Qed.

Lemma keys_dict_del {V : Type} (key : nat) (d d' : list (nat * V)) :
  SearchGUI.dict_del key d = Some d' ->
  SearchGUI.keys d' = del_first key (SearchGUI.keys d).
Proof.
  revert d'. induction d as [|[k v] d IH]; intros d'; simpl; [done|].
  destruct (k =? key)%nat; [by intros [= <-]|].
  destruct (SearchGUI.dict_del key d) as [rest|]; [|done].
  intros [= <-]. simpl. f_equal. by apply IH.
Qed.

Lemma dict_del_present {V : Type} (key : nat) (d : list (nat * V)) :
  In key (SearchGUI.keys d) -> exists d', SearchGUI.dict_del key d = Some d'.
Proof.
  induction d as [|[k v] d IH]; simpl; [done|]. intros Hin.
  destruct (Nat.eqb_spec k key) as [->|Hne]; [by eexists|].
  destruct Hin as [?|Hin]; [done|].
  destruct (IH Hin) as [d' ->]. by eexists.
Qed.

Lemma dict_del_absent {V : Type} (key : nat) (d : list (nat * V)) :
  ~ In key (SearchGUI.keys d) -> SearchGUI.dict_del key d = None.
Proof.
  induction d as [|[k v] d IH]; simpl; [done|]. intros Hin.
  destruct (Nat.eqb_spec k key) as [->|Hne]; [by destruct Hin; left|].
  rewrite IH; [done|]. intros H. apply Hin. by right.
Qed.

Lemma del_first_sublist (key : nat) (l : list nat) :
  del_first key l `sublist_of` l.
Proof.
  induction l as [|k l IH]; simpl; [done|].
  destruct (k =? key)%nat; [by apply sublist_cons|by apply sublist_skip].
Qed.

Lemma del_first_length (key : nat) (l : list nat) :
  In key l -> S (length (del_first key l)) = length l.
Proof.
  induction l as [|k l IH]; simpl; [done|]. intros Hin.
  destruct (Nat.eqb_spec k key) as [->|Hne]; [done|].
  destruct Hin as [?|Hin]; [done|]. simpl. by rewrite IH.
Qed.

Lemma keys_length {V : Type} (d : list (nat * V)) :
  length (SearchGUI.keys d) = length d.
Proof. unfold SearchGUI.keys. apply length_map. Qed.

Local Opaque Nat.leb Nat.ltb.

Lemma additional_fields_ok (f : SearchGUI.form) :
  SearchGUI.form_ok f -> SearchGUI.BUTTON_ADD_SEARCH f = true ->
  SearchGUI.form_ok (SearchGUI.search_additional_fields f).
Proof.
  intros (Hkeys & Hnd & Hlt & Hlen & Hbtn & Hincl) Hon.
  assert (Hfresh : ~ In (SearchGUI.search_frame_next f)
                        (SearchGUI.keys (SearchGUI.search_string_entries f))).
  { intros Hin. rewrite List.Forall_forall in Hlt. apply Hlt in Hin. lia. }
  assert (Hfresh' : ~ In (SearchGUI.search_frame_next f)
                         (SearchGUI.keys (SearchGUI.SEARCH_OR f))).
  { intros Hin. apply Hfresh. rewrite Hkeys. by right. }
  assert (Hlen8 : (length (SearchGUI.SEARCH_OR f) <= 8)%nat).
  { destruct (Nat.eq_dec (length (SearchGUI.SEARCH_OR f)) 9%nat) as [H9|]; [|lia].
    apply Hbtn in H9. congruence. }
  assert (Hnew : length (SearchGUI.dict_set (SearchGUI.search_frame_next f) tt
                           (SearchGUI.SEARCH_OR f))
                 = S (length (SearchGUI.SEARCH_OR f))).
  { rewrite <- !keys_length, (keys_dict_set_fresh _ _ _ Hfresh'), length_app.
    simpl. lia. }
  unfold SearchGUI.form_ok, SearchGUI.search_additional_fields. simpl.
  rewrite (keys_dict_set_fresh _ _ _ Hfresh), (keys_dict_set_fresh _ _ _ Hfresh').
  rewrite Hnew, Hon.
  split; [by rewrite Hkeys|].
  split.
  { apply NoDup_app. split; [done|]. split; [|apply NoDup_singleton].
    intros k Hk Hk'. apply list_elem_of_singleton in Hk' as ->.
    apply Hfresh. by apply list_elem_of_In. }
  split.
  { apply Forall_app. split; [|constructor; [lia|constructor]].
    eapply Forall_impl; [exact Hlt|]. intros k Hk. simpl in Hk. lia. }
  split; [lia|]. split; [|done].
  destruct (9 <=? S (length (SearchGUI.SEARCH_OR f)))%nat eqn:H9.
  - apply Nat.leb_le in H9. split; [lia|done].
  - apply Nat.leb_gt in H9. split; [done|lia].
Qed.

Lemma fewer_fields_ok (f : SearchGUI.form) (key : nat) :
  SearchGUI.form_ok f -> In key (SearchGUI.keys (SearchGUI.SEARCH_OR f)) ->
  exists f', SearchGUI.search_fewer_fields key f = Some f' /\ SearchGUI.form_ok f'.
Proof.
  intros (Hkeys & Hnd & Hlt & Hlen & Hbtn & Hincl) Hin.
  assert (Hne : key <> 0%nat).
  { intros ->. rewrite Hkeys in Hnd. apply NoDup_cons in Hnd as [Hnd _].
    apply Hnd. by apply list_elem_of_In. }
  destruct (dict_del_present key (SearchGUI.SEARCH_OR f) Hin) as [sfe Hsfe].
  destruct (dict_del_present key (SearchGUI.search_string_entries f))
    as [entries Hentries]; [rewrite Hkeys; by right|].
  unfold SearchGUI.search_fewer_fields. rewrite Hsfe, Hentries.
  eexists. split; [reflexivity|].
  pose proof (keys_dict_del _ _ _ Hsfe) as Hk1.
  pose proof (keys_dict_del _ _ _ Hentries) as Hk2.
  assert (Hlen' : S (length sfe) = length (SearchGUI.SEARCH_OR f)).
  { rewrite <- !keys_length, Hk1. by apply del_first_length. }
  unfold SearchGUI.form_ok. simpl. rewrite Hk2.
  split.
  { rewrite Hkeys, Hk1. by destruct key. }
  split; [eapply sublist_NoDup; [done|apply del_first_sublist]|].
  split.
  { apply Forall_forall. intros k Hk. rewrite Forall_forall in Hlt. apply Hlt.
    eapply elem_of_sublist; [exact Hk|apply del_first_sublist]. }
  split; [lia|]. split; [|done].
  destruct (length sfe <? 9)%nat eqn:H9.
  - apply Nat.ltb_lt in H9. split; [done|lia].
  - apply Nat.ltb_ge in H9. lia.
Qed.

Local Transparent Nat.leb Nat.ltb.

(** X11.  The form keeps its search fields in order.  The form that the
    constructor leaves is well formed; pressing "+" while the button is
    enabled and removing a row that exists keep it so, and so does the
    And/Or button, which pressed twice restores the inclusivity; removing
    a row that does not exist raises [KeyError].  In a well formed form
    there are between 1 and 10 search fields, under distinct keys, so that
    [search] gets at most 10 terms. *)
Theorem form_keeps_fields :
  SearchGUI.form_ok SearchGUI.init
  /\ (forall f, SearchGUI.form_ok f -> SearchGUI.BUTTON_ADD_SEARCH f = true ->
                SearchGUI.form_ok (SearchGUI.search_additional_fields f))
  /\ (forall f key, SearchGUI.form_ok f ->
                    In key (SearchGUI.keys (SearchGUI.SEARCH_OR f)) ->
                    exists f', SearchGUI.search_fewer_fields key f = Some f'
                               /\ SearchGUI.form_ok f')
  /\ (forall f key, ~ In key (SearchGUI.keys (SearchGUI.SEARCH_OR f)) ->
                    SearchGUI.search_fewer_fields key f = None)
  /\ (forall f, SearchGUI.form_ok f ->
                SearchGUI.form_ok (SearchGUI.toggle_search_inclusivity f)
                /\ SearchGUI.search_inclusivity
                     (SearchGUI.toggle_search_inclusivity
                        (SearchGUI.toggle_search_inclusivity f))
                   = SearchGUI.search_inclusivity f)
  /\ (forall f, SearchGUI.form_ok f ->
                (1 <= length (SearchGUI.search_string_entries f) <= 10)%nat
                /\ NoDup (SearchGUI.keys (SearchGUI.search_string_entries f))
                /\ (length (SearchGUI.search_strings f) <= 10)%nat).
Proof.
  split; [|split; [|split; [|split; [|split]]]].
  - unfold SearchGUI.form_ok, SearchGUI.init. simpl.
    split; [done|]. split; [apply NoDup_singleton|].
    split; [by repeat constructor|]. split; [lia|]. split; [|by left].
    split; [done|lia].
  - apply additional_fields_ok.
  - intros f key. apply fewer_fields_ok.
  - intros f key Hin. unfold SearchGUI.search_fewer_fields.
    by rewrite (dict_del_absent _ _ Hin).
  - intros f (Hkeys & Hnd & Hlt & Hlen & Hbtn & Hincl). split.
    + unfold SearchGUI.form_ok, SearchGUI.toggle_search_inclusivity. simpl.
      repeat split; try done; try apply Hbtn.
      destruct (String.eqb _ _); [by right|by left].
    + simpl. by destruct Hincl as [-> | ->].
  - intros f (Hkeys & Hnd & Hlt & Hlen & Hbtn & Hincl).
    assert (Hn : length (SearchGUI.search_string_entries f)
                 = S (length (SearchGUI.SEARCH_OR f))).
    { rewrite <- !keys_length, Hkeys. done. }
    split; [lia|]. split; [done|].
    pose proof (sublist_length _ _
                  (filled_sublist (SearchGUI.search_string_entries f))) as H.
    rewrite length_map in H. unfold SearchGUI.search_strings. lia.
Qed.

Lemma form_keeps_fields_witness :
  SearchGUI.form_ok SearchGUI.init
  /\ SearchGUI.BUTTON_ADD_SEARCH SearchGUI.init = true
  /\ SearchGUI.form_ok (SearchGUI.search_additional_fields SearchGUI.init)
  /\ In 1%nat (SearchGUI.keys
                 (SearchGUI.SEARCH_OR (SearchGUI.search_additional_fields SearchGUI.init)))
  /\ exists f', SearchGUI.search_fewer_fields 1
                  (SearchGUI.search_additional_fields SearchGUI.init) = Some f'
                /\ SearchGUI.form_ok f'.
Proof.
  destruct form_keeps_fields as (Hinit & Hadd & Hdel & _).
  assert (H1 : SearchGUI.form_ok (SearchGUI.search_additional_fields SearchGUI.init))
    by (apply Hadd; [exact Hinit|reflexivity]).
  assert (H2 : In 1%nat (SearchGUI.keys
                 (SearchGUI.SEARCH_OR (SearchGUI.search_additional_fields SearchGUI.init))))
    by (left; reflexivity).
  split; [exact Hinit|]. split; [reflexivity|]. split; [exact H1|].
  split; [exact H2|]. exact (Hdel _ _ H1 H2).
Defined.

(** ** An empty term *)

Lemma contains_empty (s : string) : Str.contains "" s = true.
Proof. by destruct s. Qed.

(** X13.  In an inclusive plain-text search with a context count of 0 or
    more, an empty term hits every line: every line in front of the first
    line that ends the test is in the result ([search_file] never hands
    such a term to [search], see X10). *)
Theorem empty_term_hits_every_line (re : string -> string -> option bool)
    (terms : list string) (opts : gmap string pyval) (o : options)
    (pre : list string) (raw : string) (post : list string) :
  decode_options opts = Ok o ->
  search_regex o = false ->
  search_exclusive o = false ->
  0 <= search_context o ->
  In "" terms ->
  Forall (fun r => ends_test o r = false) (pre ++ [raw]) ->
  exists out,
    search re (pre ++ raw :: post) terms opts = Ok out
    /\ In (render_entry (show_line_numbers o)
             (Str.ljust (S (length pre)) (line_number_width (pre ++ raw :: post)),
              stored_line raw)) out.
Proof.
  intros Ho Hre Hor Hc Hin Hno. unfold search. rewrite Ho. simpl. unfold scan.
  assert (Hex : Exists (line_matches re o (map (fold_case o) terms)) [raw]).
  { apply Exists_cons_hd. right. split; [done|].
    apply Exists_exists. exists (fold_case o ""). split.
    - apply list_elem_of_In, in_map, Hin.
    - unfold term_hit. rewrite Hre. f_equal.
      replace (fold_case o "") with ""
        by (unfold fold_case; by destruct (search_case_sensitive o)).
      apply contains_empty. }
  pose proof (block_shown re (SEPERATION +:+ Str.nl)
                (render_entry (show_line_numbers o)) o (map (fold_case o) terms)
                (line_number_width (pre ++ raw :: post)) Hc pre raw [] post Hno
                (List.Forall_nil _) Hex) as H.
  simpl in H.
  destruct (loop _ _ _ _ _ _ _ _) as [out|e].
  - exists out. split; [done|]. by apply Forall_inv in H.
  - destruct H as (_ & Hre' & _). congruence.
Qed.

Lemma empty_term_hits_every_line_witness :
  In "" ["x"; ""]
  /\ Forall (fun r => ends_test default_options r = false)
       (["# UVM_INFO hello"] ++ ["line X"])
  /\ exists out,
      search literal_search (["# UVM_INFO hello"] ++ "line X" :: ["# UVM_INFO z"])
        ["x"; ""] ∅ = Ok out
      /\ In (render_entry false
               (Str.ljust 2 (line_number_width
                               (["# UVM_INFO hello"] ++ "line X" :: ["# UVM_INFO z"])),
                stored_line "line X")) out.
Proof.
  assert (H1 : In "" ["x"; ""]) by (right; by left).
  assert (H2 : Forall (fun r => ends_test default_options r = false)
                 (["# UVM_INFO hello"] ++ ["line X"])) by (repeat constructor).
  split; [exact H1|]. split; [exact H2|].
  exact (empty_term_hits_every_line literal_search ["x"; ""] ∅ default_options
           ["# UVM_INFO hello"] "line X" ["# UVM_INFO z"]
           decode_options_empty eq_refl eq_refl ltac:(simpl; lia) H1 H2).
Defined.

(** ** One message of context on either side of a match *)


Section Context.

Variable re_search : string -> string -> option bool.
Context {T : Type}.
Variables (separation : T) (emit : entry -> T).
Variable o : options.
Variable terms : list string.
Variable w : nat.
Hypothesis context_positive : 1 <= search_context o.

Local Abbreviation step' := (step re_search separation emit o terms w).
Local Abbreviation loop' := (loop re_search separation emit o terms w).










End Context.





(** ** The stored line *)

Lemma rstrip_split (s : string) :
  exists ws, s = Str.rstrip s +:+ ws /\ all_space ws = true.
Proof.
  induction s as [|c r (ws & Hr & Hws)]; simpl; [by exists ""|].
  destruct (Str.rstrip r) as [|c' r'] eqn:Hrs.
  - change ("" +:+ ws) with ws in Hr. subst r.
    destruct (Str.isspace c) eqn:Hc.
    + exists (String c ws). simpl. by rewrite Hc, Hws.
    + by exists ws.
  - exists ws. split; [|done]. exact (f_equal (String c) Hr).
Qed.

Lemma rstrip_last (s t : string) (c : ascii) :
  Str.rstrip s = t +:+ String c "" -> Str.isspace c = false.
Proof.
  revert t. induction s as [|a r IH]; intros t; simpl; [by destruct t|].
  destruct (Str.rstrip r) as [|c' r'] eqn:Hrs.
  - destruct (Str.isspace a) eqn:Ha; [by destruct t|].
    destruct t as [|b t]; simpl; [by intros [= <-]|].
    intros [= _ H]. by destruct t.
  - destruct t as [|b t]; simpl; [done|].
    intros [= _ H]. by apply (IH t).
Qed.

Lemma sub_escapes_escape_free (s : string) :
  escape_free s = true -> Str.sub_escapes false s = s.
Proof.
  induction s as [|c r IH]; simpl; [done|].
  intros [Hc Hr]%andb_true_iff. apply negb_true_iff in Hc.
  rewrite Hc, (IH Hr). simpl. by destruct r as [|[[] [] [] [] [] [] [] []] r'].
Qed.

Lemma escape_free_append (s t : string) :
  escape_free (s +:+ t) = escape_free s && escape_free t.
Proof.
  induction s as [|c r IH]; simpl; [done|]. by rewrite IH, andb_assoc.
Qed.

(** X16.  The line that the loop stores is the line of the file without
    its trailing white space, and nothing else is removed from a line that
    holds no escape character: such a line is its stored line followed by
    white space only, and its stored line does not end in white space. *)
Theorem stored_line_of_plain_line (raw : string) :
  escape_free raw = true ->
  stored_line raw = Str.rstrip raw
  /\ (exists ws, raw = stored_line raw +:+ ws /\ all_space ws = true)
  /\ (forall t c, stored_line raw = t +:+ String c "" -> Str.isspace c = false).
Proof.
  intros Hfree. destruct (rstrip_split raw) as (ws & Hraw & Hws).
  assert (Hs : stored_line raw = Str.rstrip raw).
  { unfold stored_line. apply sub_escapes_escape_free.
    rewrite Hraw, escape_free_append in Hfree.
    by apply andb_true_iff in Hfree as [? _]. }
  rewrite Hs. split; [done|]. split; [by exists ws|].
  intros t c. apply rstrip_last.
Qed.

Lemma stored_line_of_plain_line_witness :
  escape_free ("# UVM_INFO ok  " +:+ Str.nl) = true
  /\ stored_line ("# UVM_INFO ok  " +:+ Str.nl)
     = Str.rstrip ("# UVM_INFO ok  " +:+ Str.nl).
Proof.
  split; [reflexivity|].
  exact (proj1 (stored_line_of_plain_line ("# UVM_INFO ok  " +:+ Str.nl) eq_refl)).
Defined.

(** ** Pattern mode *)

Lemma map_fold_case_sensitive (o : options) (terms : list string) :
  search_case_sensitive o = true -> map (fold_case o) terms = terms.
Proof.
  intros Hc. induction terms as [|t terms IH]; [reflexivity|].
  simpl. by rewrite IH, fold_case_sensitive.
Qed.

Lemma decode_options_case_sensitive (opts : gmap string pyval) (v : pyval) :
  enabled opts "SEARCH_REGEX" = true ->
  decode_options (<["SEARCH_CASE_SENSITIVE" := v]> opts) = decode_options opts.
Proof.
  intros Hre. unfold decode_options.
  rewrite lookup_insert_ne by discriminate.
  rewrite (enabled_insert_ne _ _ "SEARCH_REGEX") by discriminate.
  rewrite (enabled_insert_ne _ _ "SEARCH_EXCLUSIVE") by discriminate.
  rewrite (enabled_insert_ne _ _ "SHOW_ERRORS") by discriminate.
  rewrite (enabled_insert_ne _ _ "SHOW_WARNINGS") by discriminate.
  rewrite (enabled_insert_ne _ _ "SHOW_LINE_NUMBERS") by discriminate.
  by rewrite Hre.
Qed.

(** C7.  In pattern mode the decoded options are case sensitive whatever
    [SEARCH_CASE_SENSITIVE] holds: the five markers and the terms are left
    as they are and the compared line is the stored line.  The scanner
    hands the terms, as given, and the stored lines, in their original
    case, to [re.search]: the result of [search] depends on [re.search]
    only through what it answers for a term and the stored line of a line
    in front of the end of the test; in an inclusive search with a context
    count of 0 or more, a message with a line in which [re.search] finds a
    term is printed; when [re.search] finds no term in any line and no
    always-show rule accepts a line, nothing is printed; and when
    [re.search] rejects the first term at the first line, [search] raises.
    The result of [search] does not depend on the [SEARCH_CASE_SENSITIVE]
    entry. *)
Theorem pattern_mode_forces_case_sensitivity
    (opts : gmap string pyval) (o : options) :
  enabled opts "SEARCH_REGEX" = true ->
  decode_options opts = Ok o ->
  search_case_sensitive o = true
  /\ (end_of_test_string o = END_OF_TEST /\ uvm_message_string o = UVM_MESSAGE
      /\ uvm_warning_string o = UVM_WARNING /\ uvm_error_string o = UVM_ERROR
      /\ uvm_fatal_string o = UVM_FATAL)
  /\ (forall terms, map (fold_case o) terms = terms)
  /\ (forall raw, compared_line o raw = stored_line raw)
  /\ (forall re re' file terms,
        (forall t raw, In t terms -> In raw (scanned_lines o file) ->
                       re t (stored_line raw) = re' t (stored_line raw)) ->
        search re file terms opts = search re' file terms opts)
  /\ (forall re terms pre first body post t raw,
        search_exclusive o = false ->
        0 <= search_context o ->
        Forall (fun r => ends_test o r = false) (pre ++ [first]) ->
        Forall (continues_block o) body ->
        In t terms -> In raw (first :: body) ->
        re t (stored_line raw) = Some true ->
        match search re (pre ++ first :: body ++ post) terms opts with
        | Ok out =>
            Forall (fun e => In (render_entry (show_line_numbers o) e) out)
              (stored_entries (line_number_width (pre ++ first :: body ++ post))
                 (length pre) (first :: body))
        | Raise e => e = ReError
        end)
  /\ (forall re file terms,
        (forall t raw, In t terms -> In raw (scanned_lines o file) ->
                       re t (stored_line raw) = Some false) ->
        Forall (fun raw => force_match o (stored_line raw) false = false)
               (scanned_lines o file) ->
        search re file terms opts = Ok [])
  /\ (forall re file t terms raw rest,
        file = raw :: rest -> ends_test o raw = false ->
        re t (stored_line raw) = None ->
        search re file (t :: terms) opts = Raise ReError)
  /\ (forall re file terms v,
        search re file terms (<["SEARCH_CASE_SENSITIVE" := v]> opts)
        = search re file terms opts).
Proof.
  intros Hre Ho.
  destruct (decode_options_flags _ _ Ho) as (Hregex & Hcase & _).
  rewrite Hre in Hregex. rewrite Hre, orb_true_r in Hcase.
  assert (Hline : forall raw, compared_line o raw = stored_line raw).
  { intros raw. unfold compared_line. by rewrite fold_case_sensitive. }
  split; [exact Hcase|].
  split.
  { unfold end_of_test_string, uvm_message_string, uvm_warning_string,
      uvm_error_string, uvm_fatal_string.
    by rewrite !fold_case_sensitive. }
  split; [intros terms; by apply map_fold_case_sensitive|].
  split; [exact Hline|].
  split.
  { intros re re' file terms Hagree. unfold search. rewrite Ho. simpl.
    unfold scan. rewrite (map_fold_case_sensitive _ _ Hcase).
    apply loop_agree. intros _.
    apply List.Forall_forall. intros raw Hraw.
    apply List.Forall_forall. intros t Ht. by apply Hagree. }
  split.
  { intros re terms pre first body post t raw Hor Hc Hno Hbody Ht Hraw Hhit.
    unfold search. rewrite Ho. simpl. unfold scan.
    rewrite (map_fold_case_sensitive _ _ Hcase).
    assert (Hex : Exists (line_matches re o terms) (first :: body)).
    { apply List.Exists_exists. exists raw. split; [done|]. right.
      split; [done|]. apply List.Exists_exists. exists t. split; [done|].
      unfold term_hit. by rewrite Hregex, Hhit. }
    pose proof (block_shown re (SEPERATION +:+ Str.nl)
                  (render_entry (show_line_numbers o)) o terms
                  (line_number_width (pre ++ first :: body ++ post))
                  Hc pre first body post Hno Hbody Hex) as H.
    destruct (loop _ _ _ _ _ _ _ _) as [out|e]; [done|]. by destruct H. }
  split.
  { intros re file terms Hnone Hforce. unfold search. rewrite Ho. simpl.
    unfold scan. rewrite (map_fold_case_sensitive _ _ Hcase).
    apply loop_no_hits; try done.
    apply List.Forall_forall. intros raw Hraw. split.
    - rewrite Hline. by apply (proj1 (List.Forall_forall _ _) Hforce).
    - apply List.Forall_forall. intros t Ht. unfold term_hit.
      by rewrite Hregex, (Hnone t raw Ht Hraw). }
  split.
  { intros re file t terms raw rest -> Hend Hnone. unfold search.
    rewrite Ho. simpl. unfold scan. simpl. unfold step. rewrite Hend.
    rewrite (fold_case_sensitive _ t Hcase).
    unfold match_terms. simpl. unfold term_hit. rewrite Hregex, Hnone.
    by destruct (search_exclusive o). }
  intros re file terms v. unfold search.
  by rewrite decode_options_case_sensitive.
Qed.

Lemma pattern_mode_witness :
  enabled {[ "SEARCH_REGEX" := PyBool true ]} "SEARCH_REGEX" = true
  /\ search literal_search ["# UVM_INFO Abc"; "# UVM_INFO abc"] ["Abc"]
       (<["SEARCH_CASE_SENSITIVE" := PyBool false]> {[ "SEARCH_REGEX" := PyBool true ]})
     = search literal_search ["# UVM_INFO Abc"; "# UVM_INFO abc"] ["Abc"]
         {[ "SEARCH_REGEX" := PyBool true ]}
  /\ match search literal_search
             ([] ++ "# UVM_INFO Abc" :: [] ++ ["# UVM_INFO abc"]) ["Abc"]
             {[ "SEARCH_REGEX" := PyBool true ]} with
     | Ok out => Forall (fun e => In (render_entry false e) out)
                   [("1", "# UVM_INFO Abc")]
     | Raise e => e = ReError
     end.
Proof.
  pose proof (pattern_mode_forces_case_sensitivity {[ "SEARCH_REGEX" := PyBool true ]}
                {| search_regex := true; search_case_sensitive := true;
                   search_exclusive := false; always_show_errors := false;
                   always_show_warnings := false; show_line_numbers := false;
                   search_context := 0 |} eq_refl eq_refl)
    as (_ & _ & _ & _ & _ & Hhit & _ & _ & Hcase).
  split; [reflexivity|]. split; [apply Hcase|].
  refine (Hhit literal_search ["Abc"] [] "# UVM_INFO Abc" [] ["# UVM_INFO abc"]
            "Abc" "# UVM_INFO Abc" eq_refl _ _ _ _ _ eq_refl).
  - simpl. lia.
  - repeat constructor.
  - constructor.
  - by left.
  - by left.
Defined.

(** ** A negative context count *)

Lemma in_print_messages {T : Type} (emit : entry -> T) (e : entry)
    (ms : list (list entry)) :
  In e (concat ms) -> In (emit e) (print_messages emit ms).
Proof.
  unfold print_messages. induction ms as [|m ms IH]; simpl; [done|].
  intros [H|H]%in_app_or; apply in_or_app; [left; by apply in_map|right; by apply IH].
Qed.

Section Runs.

Variable re_search : string -> string -> option bool.
Context {T : Type}.
Variables (separation : T) (emit : entry -> T).
Variable o : options.
Variable terms : list string.
Variable w : nat.

Local Abbreviation step' := (step re_search separation emit o terms w).
Local Abbreviation loop' := (loop re_search separation emit o terms w).
Local Abbreviation run' := (run re_search separation emit o terms w).

Lemma run_app_continue (a b : list string) (st st' : state T) :
  run' st (a ++ b) = Ok (Continue st') ->
  exists st1, run' st a = Ok (Continue st1) /\ run' st1 b = Ok (Continue st').
Proof.
  revert st. induction a as [|raw a IH]; intros st; simpl.
  - intros H. by exists st.
  - destruct (step' st raw) as [[st1|out]|e]; simpl; [apply IH|done|done].
Qed.

Lemma run_no_return (pre : list string) (st : state T) (out : list T) :
  Forall (fun raw => ends_test o raw = false) pre ->
  run' st pre <> Ok (Return out).
Proof.
  intros Hpre. revert st. induction Hpre as [|raw pre Hraw _ IH]; intros st; simpl;
    [done|].
  destruct (step' st raw) as [[st1|out']|e] eqn:Hs; simpl; [apply IH| |done].
  apply step_return in Hs as [Hend _]. congruence.
Qed.

Lemma run_body_matched (body : list string) (st st' : state T) :
  Forall (continues_block o) body ->
  run' st body = Ok (Continue st') ->
  matched st = true \/ Exists (line_matches re_search o terms) body ->
  matched st' = true.
Proof.
  intros Hbody. revert st. induction Hbody as [|raw body Hraw _ IH]; intros st; simpl.
  - intros [= <-] [?|Hex]; [done|]. by apply Exists_nil in Hex.
  - destruct (step' st raw) as [[st1|out]|e] eqn:Hs; simpl; [|done|done].
    intros Hrun Hm. apply (IH st1 Hrun).
    destruct (step_continues_block _ _ _ _ _ _ _ _ _ Hraw Hs) as (_ & _ & Hmt).
    destruct Hm as [Hm|Hex]; [left; by apply Hmt|].
    apply Exists_cons in Hex as [Hex|Hex]; [left|by right].
    by eapply step_line_matches.
Qed.

(** What is printed stays printed. *)
Lemma loop_printed (t : T) (file : list string) (st : state T) (out : list T) :
  In t (text st) -> loop' st file = Ok out -> In t out.
Proof.
  intros Hin Hl.
  assert (Hclose : forall st0 : state T,
             In t (text st0) -> In t (text (close_block separation emit o st0))).
  { intros st0 H0. destruct (close_block_text separation emit o st0) as [l ->].
    apply in_or_app. by left. }
  refine (loop_invariant re_search separation emit o terms w
            (fun _ => True) (fun st => In t (text st)) (fun out => In t out)
            _ _ _ file st out _ Hin Hl).
  - intros st0 raw st' _ H0 Hs.
    pose proof (step_continue _ _ _ _ _ _ _ _ _ Hs _ eq_refl)
      as (_ & _ & _ & -> & _).
    unfold boundary. destruct (_ || _); [by apply Hclose|done].
  - intros st0 raw _ H0 _. by apply Hclose.
  - intros st0 H0. unfold finish.
    destruct (matched st0 || (0 <? context st0)); [|done].
    apply in_or_app. left. destruct (last st0); [done|].
    apply in_or_app. by left.
  - by apply Forall_forall.
Qed.

(** Over a file with a line that ends the test, what holds of the state
    between turns holds of the result when the block is closed. *)
Lemma loop_invariant_end (P : state T -> Prop) (Q : list T -> Prop)
    (pre : list string) (raw : string) (post : list string) (st : state T)
    (out : list T) :
  (forall st raw st', P st -> step' st raw = Ok (Continue st') -> P st') ->
  (forall st, P st -> Q (text (close_block separation emit o st))) ->
  ends_test o raw = true ->
  P st -> loop' st (pre ++ raw :: post) = Ok out -> Q out.
Proof.
  intros Hstep Hret Hend. revert st.
  induction pre as [|a pre IH]; intros st HP; simpl.
  - rewrite step_ends_test by done. simpl. intros [= <-]. by apply Hret.
  - destruct (step' st a) as [[st'|out']|e] eqn:Hs; simpl.
    + apply IH. by eapply Hstep.
    + intros [= <-]. apply step_return in Hs as [_ ->]. by apply Hret.
    + done.
Qed.

(** *** Count -1: the history is never cut *)

Section MinusOne.

Hypothesis context_minus_one : search_context o = -1.

Lemma close_block_retained (e : entry) (st : state T) :
  retained emit e st ->
  retained emit e (close_block separation emit o st)
  /\ (matched st = true -> In (emit e) (text (close_block separation emit o st))).
Proof.
  intros Hr. unfold retained, close_block. simpl.
  rewrite context_minus_one.
  change (slice_from ((-1 + 1) * -1) ?l) with l.
  set (history := if (0 <? length (buffer st))%nat
                  then messages st ++ [buffer st] else messages st).
  assert (Hh : In (emit e) (text st) \/ In e (concat history)).
  { destruct Hr as [H|[H|H]]; [by left|right|right]; unfold history.
    - destruct (0 <? length (buffer st))%nat; [|done].
      rewrite concat_app. apply in_or_app. by left.
    - destruct (buffer st) as [|e0 b]; [done|]. simpl.
      rewrite concat_app. apply in_or_app. right. simpl. by rewrite app_nil_r. }
  assert (Hp : In (emit e)
                 ((if last st then text st else text st ++ [separation])
                    ++ print_messages emit history)).
  { destruct Hh as [H|H]; apply in_or_app.
    - left. destruct (last st); [done|]. apply in_or_app. by left.
    - right. by apply in_print_messages. }
  destruct (matched st || (0 <? context st)) eqn:Hprint.
  - split; [by left|done].
  - apply orb_false_iff in Hprint as [-> _]. split; [|done].
    destruct Hh as [H|H]; [by left|right; by left].
Qed.

Lemma step_retained (read : list string) (st st' : state T) (raw : string) :
  line_number st = length read ->
  Forall (fun e => retained emit e st) (stored_entries w 0 read) ->
  step' st raw = Ok (Continue st') ->
  line_number st' = length (read ++ [raw])
  /\ Forall (fun e => retained emit e st') (stored_entries w 0 (read ++ [raw])).
Proof.
  intros Hn Hall Hs.
  pose proof (step_continue _ _ _ _ _ _ _ _ _ Hs _ eq_refl)
    as (_ & Hms & Hbuf & Htext & _ & _ & Hnum & _).
  split; [rewrite length_app; simpl; lia|].
  rewrite stored_entries_app. apply Forall_app. split.
  - eapply Forall_impl; [exact Hall|]. intros e He.
    assert (H1 : retained emit e (boundary separation emit o st raw)).
    { unfold boundary. destruct (_ || _); [|done].
      by apply close_block_retained. }
    unfold retained in *. rewrite Hms, Hbuf, Htext.
    destruct H1 as [H|[H|H]]; [by left|right; by left|].
    right. right. apply in_or_app. by left.
  - simpl. apply Forall_cons. split; [|done].
    right. right. rewrite Hbuf, Hn. apply in_or_app. right. by left.
Qed.

Lemma run_retained (pre read : list string) (st st' : state T) :
  line_number st = length read ->
  Forall (fun e => retained emit e st) (stored_entries w 0 read) ->
  run' st pre = Ok (Continue st') ->
  Forall (fun e => retained emit e st') (stored_entries w 0 (read ++ pre)).
Proof.
  revert read st. induction pre as [|raw pre IH]; intros read st Hn Hall; simpl.
  - intros [= <-]. by rewrite app_nil_r.
  - destruct (step' st raw) as [[st1|out]|e] eqn:Hs; simpl; [|done|done].
    destruct (step_retained _ _ _ _ Hn Hall Hs) as [Hn1 Hall1].
    intros Hrun. rewrite (cons_middle raw), app_assoc. by apply (IH _ st1).
Qed.

(** When a line closes a block that has matched, every line read so far
    is printed. *)
Lemma history_flushed (pre : list string) (first : string) (body : list string)
    (closing : string) (post : list string) :
  Forall (fun r => ends_test o r = false) (pre ++ [first]) ->
  Forall (continues_block o) body ->
  Exists (line_matches re_search o terms) (first :: body) ->
  starts_message o closing || ends_test o closing = true ->
  match loop' initial (pre ++ first :: body ++ closing :: post) with
  | Ok out =>
      Forall (fun e => In (emit e) out) (stored_entries w 0 (pre ++ first :: body))
  | Raise e => e = ReError /\ search_regex o = true /\ terms <> []
  end.
Proof.
  intros Hno Hbody Hex Hclosing.
  destruct (loop' initial _) as [out|e] eqn:Hl; [|by apply loop_raise in Hl].
  replace (pre ++ first :: body ++ closing :: post)
    with ((pre ++ first :: body) ++ closing :: post) in Hl
    by (by rewrite <- app_assoc).
  rewrite loop_run in Hl.
  assert (Hnoend : Forall (fun r => ends_test o r = false) (pre ++ first :: body)).
  { rewrite (cons_middle first), app_assoc. apply Forall_app. split; [done|].
    eapply Forall_impl; [exact Hbody|]. by intros r [_ ?]. }
  destruct (run re_search separation emit o terms w initial (pre ++ first :: body))
    as [[st|out']|e] eqn:Hrun; [| |done].
  2:{ by apply run_no_return in Hrun. }
  pose proof (run_retained (pre ++ first :: body) [] initial st eq_refl
                (List.Forall_nil _) Hrun) as Hall.
  simpl in Hall.
  assert (Hmt : matched st = true).
  { apply run_app_continue in Hrun as (st0 & _ & Hrun). simpl in Hrun.
    destruct (step' st0 first) as [[st1|out']|e] eqn:Hs; simpl in Hrun; [|done|done].
    apply (run_body_matched _ _ _ Hbody Hrun).
    apply Exists_cons in Hex as [Hex|Hex]; [left|by right].
    by eapply step_line_matches. }
  assert (Hflush : Forall (fun e => In (emit e) (text (close_block separation emit o st)))
                     (stored_entries w 0 (pre ++ first :: body))).
  { eapply Forall_impl; [exact Hall|]. intros e He.
    by apply close_block_retained. }
  simpl in Hl.
  destruct (step' st closing) as [[st5|out']|e'] eqn:Hs5; simpl in Hl.
  - pose proof (step_continue _ _ _ _ _ _ _ _ _ Hs5 _ eq_refl)
      as (_ & _ & _ & Htext5 & _).
    unfold boundary in Htext5. rewrite Hclosing in Htext5.
    eapply Forall_impl; [exact Hflush|]. intros e He.
    apply (loop_printed (emit e) post st5 out); [|done]. by rewrite Htext5.
  - apply step_return in Hs5 as [_ ->]. by injection Hl as <-.
  - done.
Qed.

End MinusOne.

(** *** Count -2 or less: the history is cut to nothing *)

Section MinusTwo.

Hypothesis context_below : search_context o <= -2.

Lemma close_block_only_separations (st : state T) :
  only_separations separation st ->
  only_separations separation (close_block separation emit o st).
Proof.
  intros [Hms Ht]. unfold only_separations, close_block. simpl. rewrite Hms.
  assert (Hs : slice_from ((search_context o + 1) * -1)
                 (if (0 <? length (buffer st))%nat then [] ++ [buffer st] else [])
               = []).
  { rewrite slice_from_negative by lia. apply drop_ge.
    destruct (0 <? length (buffer st))%nat; simpl; lia. }
  rewrite Hs. destruct (matched st || (0 <? context st)); [|done].
  split; [done|]. unfold print_messages. simpl. rewrite app_nil_r.
  destruct (last st); [done|]. apply Forall_app. split; [done|].
  by apply Forall_cons.
Qed.

Lemma loop_only_separations (pre : list string) (raw : string)
    (post : list string) (out : list T) :
  ends_test o raw = true ->
  loop' initial (pre ++ raw :: post) = Ok out ->
  Forall (fun t => t = separation) out.
Proof.
  intros Hend Hl.
  refine (loop_invariant_end (only_separations separation)
            (fun out => Forall (fun t => t = separation) out)
            pre raw post initial out _ _ Hend _ Hl).
  - intros st a st' HP Hs.
    pose proof (step_continue _ _ _ _ _ _ _ _ _ Hs _ eq_refl)
      as (_ & Hms & _ & Htext & _).
    unfold only_separations. rewrite Hms, Htext. unfold boundary.
    destruct (_ || _); [by apply close_block_only_separations|done].
  - intros st HP. by apply close_block_only_separations.
  - split; [done|]. simpl. done.
Qed.

End MinusTwo.

End Runs.

(** C6 (amended).  The context count is not clamped: a negative count [c]
    is decoded as it is, and a block close cuts the history by
    [messages[-(c+1):]], that is, removes its first [-(c+1)] entries.
    With -1 nothing is ever removed: when a line closes a message that has
    matched, every line read so far is in the result.  With -2 or less the
    history is cut to nothing at every block close: over a file that
    reaches a line that ends the test, nothing but separation lines is
    printed.  As with 0, the count of pending context messages never
    becomes positive. *)
Theorem context_is_not_clamped (c : Z) :
  c < 0 ->
  (forall opts : gmap string pyval,
      exists o, decode_options (<["SEARCH_CONTEXT" := PyInt c]> opts) = Ok o
                /\ search_context o = c)
  /\ (forall (T : Type) (separation : T) (emit : entry -> T) (o : options)
             (st : state T),
        search_context o = c ->
        let history := if (0 <? length (buffer st))%nat
                       then messages st ++ [buffer st] else messages st in
        let cut := drop (Z.to_nat (- (c + 1))) history in
        messages (close_block separation emit o st)
        = (if matched st || (0 <? context st) then [] else cut)
        /\ text (close_block separation emit o st)
           = (if matched st || (0 <? context st)
              then (if last st then text st else text st ++ [separation])
                     ++ print_messages emit cut
              else text st))
  /\ (c = -1 ->
      forall (re : string -> string -> option bool) (terms : list string)
             (opts : gmap string pyval) (o : options)
             (pre : list string) (first : string) (body : list string)
             (closing : string) (post : list string),
        decode_options opts = Ok o ->
        search_context o = c ->
        Forall (fun r => ends_test o r = false) (pre ++ [first]) ->
        Forall (continues_block o) body ->
        Exists (line_matches re o (map (fold_case o) terms)) (first :: body) ->
        starts_message o closing || ends_test o closing = true ->
        match search re (pre ++ first :: body ++ closing :: post) terms opts with
        | Ok out =>
            Forall (fun e => In (render_entry (show_line_numbers o) e) out)
              (stored_entries
                 (line_number_width (pre ++ first :: body ++ closing :: post))
                 0 (pre ++ first :: body))
        | Raise e => e = ReError /\ search_regex o = true /\ terms <> []
        end)
  /\ (c <= -2 ->
      forall (re : string -> string -> option bool) (terms : list string)
             (opts : gmap string pyval) (o : options)
             (pre : list string) (raw : string) (post : list string)
             (out : list string),
        decode_options opts = Ok o ->
        search_context o = c ->
        ends_test o raw = true ->
        search re (pre ++ raw :: post) terms opts = Ok out ->
        Forall (fun s => s = SEPERATION +:+ Str.nl) out)
  /\ (forall (re : string -> string -> option bool) (T : Type) (separation : T)
             (emit : entry -> T) (o : options) (terms : list string) (w : nat)
             (st st' : state T) (raw : string),
        search_context o = c ->
        context st <= 0 ->
        step re separation emit o terms w st raw = Ok (Continue st') ->
        context st' <= 0).
Proof.
  intros Hc. split; [|split; [|split; [|split]]].
  - intros opts. unfold decode_options. rewrite lookup_insert_eq. simpl.
    by eexists.
  - intros T separation emit o st Ho. simpl. unfold close_block. simpl.
    rewrite Ho, slice_from_negative by done.
    by destruct (matched st || (0 <? context st)).
  - intros -> re terms opts o pre first body closing post Ho Hctx Hno Hbody Hex
      Hclosing.
    unfold search. rewrite Ho. simpl. unfold scan.
    pose proof (history_flushed re (SEPERATION +:+ Str.nl)
                  (render_entry (show_line_numbers o)) o (map (fold_case o) terms)
                  (line_number_width (pre ++ first :: body ++ closing :: post))
                  Hctx pre first body closing post Hno Hbody Hex Hclosing) as H.
    destruct (loop _ _ _ _ _ _ _ _) as [out|e]; [done|].
    destruct H as (-> & Hre & Hne). repeat split; try done. by intros ->.
  - intros Hc2 re terms opts o pre raw post out Ho Hctx Hend. unfold search.
    rewrite Ho. simpl. unfold scan.
    apply loop_only_separations; [lia|done].
  - intros re T separation emit o terms w st st' raw Ho Hctx Hs.
    pose proof (step_continue _ _ _ _ _ _ _ _ _ Hs _ eq_refl)
      as (_ & _ & _ & _ & _ & -> & _).
    unfold boundary. destruct (_ || _); [|done].
    unfold close_block. simpl.
    destruct (matched st); [lia|].
    destruct (0 <? context st) eqn:Hpos; [apply Z.ltb_lt in Hpos; lia|done].
Qed.

Lemma context_is_not_clamped_witness :
  -1 < 0
  /\ match search literal_search
             (["# UVM_INFO a"] ++ "# UVM_FATAL b" :: [] ++ "# UVM_INFO c" :: [])
             [] {[ "SEARCH_CONTEXT" := PyInt (-1) ]} with
     | Ok out =>
         Forall (fun e => In (render_entry false e) out)
           [("1", "# UVM_INFO a"); ("2", "# UVM_FATAL b")]
     | Raise e => e = ReError /\ false = true /\ [] <> @nil string
     end.
Proof.
  split; [lia|].
  refine (proj1 (proj2 (proj2 (context_is_not_clamped (-1) ltac:(lia)))) eq_refl
            literal_search [] {[ "SEARCH_CONTEXT" := PyInt (-1) ]}
            {| search_regex := false; search_case_sensitive := false;
               search_exclusive := false; always_show_errors := false;
               always_show_warnings := false; show_line_numbers := false;
               search_context := -1 |}
            ["# UVM_INFO a"] "# UVM_FATAL b" [] "# UVM_INFO c" []
            eq_refl eq_refl _ _ _ eq_refl).
  - repeat constructor.
  - constructor.
  - apply Exists_cons_hd. by left.
Defined.

(** ** Without terms: what is printed lies near an always-shown message *)

Lemma count_messages_app (o : options) (a b : list string) :
  count_messages o (a ++ b) = (count_messages o a + count_messages o b)%nat.
Proof. induction a as [|x a IH]; simpl; [done|]. rewrite IH. lia. Qed.

Lemma block_index_app (o : options) (read more : list string) (i : nat) :
  (i < length read)%nat ->
  block_index o (read ++ more) i = block_index o read i.
Proof.
  destruct read as [|a r]; simpl; [lia|]. intros Hi. unfold block_index. simpl.
  by rewrite take_app_le by lia.
Qed.

Lemma in_block_app (o : options) (w : nat) (read more : list string) (b : nat)
    (e : entry) :
  in_block o w read b e -> in_block o w (read ++ more) b e.
Proof.
  intros (i & raw & Hi & -> & Hb). exists i, raw.
  split; [by apply lookup_app_l_Some|]. split; [done|].
  rewrite block_index_app; [done|]. by eapply lookup_lt_Some.
Qed.

Lemma block_forced_app (o : options) (read more : list string) (b : nat) :
  block_forced o read b -> block_forced o (read ++ more) b.
Proof.
  intros (i & raw & Hi & Hf & Hb). exists i, raw.
  split; [by apply lookup_app_l_Some|]. split; [done|].
  rewrite block_index_app; [done|]. by eapply lookup_lt_Some.
Qed.

Lemma near_forced_app (o : options) (w : nat) (read more : list string)
    (e : entry) :
  near_forced o w read e -> near_forced o w (read ++ more) e.
Proof.
  intros (b & f & Hb & Hf & H1 & H2). exists b, f.
  split; [by apply in_block_app|]. split; [by apply block_forced_app|]. done.
Qed.

Lemma allowed_app {T : Type} (separation : T) (emit : entry -> T) (o : options)
    (w : nat) (read more : list string) (l : list T) :
  Forall (allowed separation emit (near_forced o w read)) l ->
  Forall (allowed separation emit (near_forced o w (read ++ more))) l.
Proof.
  intros H. eapply Forall_impl; [exact H|].
  intros t [->|(e & -> & He)]; [by left|right].
  exists e. split; [done|]. by apply near_forced_app.
Qed.

Lemma current_block_snoc (o : options) (read : list string) (raw : string) :
  read <> [] ->
  current_block o (read ++ [raw])
  = (current_block o read + if starts_message o raw then 1 else 0)%nat.
Proof.
  destruct read as [|a r]; [done|]. intros _. unfold current_block. simpl.
  rewrite count_messages_app. simpl. lia.
Qed.

Lemma block_index_last (o : options) (read : list string) (raw : string) :
  block_index o (read ++ [raw]) (length read) = current_block o (read ++ [raw]).
Proof.
  unfold block_index, current_block. f_equal. apply take_ge.
  destruct read as [|a r]; simpl; [lia|]. rewrite length_app. simpl. lia.
Qed.

Lemma in_block_last (o : options) (w : nat) (read : list string) (raw : string) :
  in_block o w (read ++ [raw]) (current_block o (read ++ [raw]))
    (Str.ljust (S (length read)) w, stored_line raw).
Proof.
  exists (length read), raw. split; [by apply list_lookup_middle|].
  split; [done|]. apply block_index_last.
Qed.

Lemma block_forced_last (o : options) (read : list string) (raw : string) :
  force_match o (compared_line o raw) false = true ->
  block_forced o (read ++ [raw]) (current_block o (read ++ [raw])).
Proof.
  intros Hf. exists (length read), raw. split; [by apply list_lookup_middle|].
  split; [done|]. apply block_index_last.
Qed.

Lemma force_match_cases (o : options) (fline : string) (mt : bool) :
  force_match o fline mt = true ->
  mt = true \/ force_match o fline false = true.
Proof.
  rewrite !force_match_spec. destruct mt; [by left|by right].
Qed.

Lemma snoc_cases {A : Type} (ms1 : list A) (m : A) (ms2 l : list A) (x : A) :
  ms1 ++ m :: ms2 = l ++ [x] ->
  (ms2 = [] /\ m = x /\ ms1 = l)
  \/ exists ms2', ms2 = ms2' ++ [x] /\ l = ms1 ++ m :: ms2'.
Proof.
  destruct ms2 as [|y ms2' _] using rev_ind.
  - intros H. apply app_inj_tail in H as [-> ->]. by left.
  - intros H. right. exists ms2'.
    change (ms1 ++ m :: ms2' ++ [y]) with (ms1 ++ (m :: ms2') ++ [y]) in H.
    rewrite app_assoc in H. apply app_inj_tail in H as [<- ->]. done.
Qed.

Lemma in_print_messages_inv {T : Type} (emit : entry -> T) (t : T)
    (ms : list (list entry)) :
  In t (print_messages emit ms) ->
  exists ms1 m ms2 e, ms = ms1 ++ m :: ms2 /\ In e m /\ t = emit e.
Proof.
  unfold print_messages. intros (x & Hx & Ht)%in_concat.
  apply in_map_iff in Hx as (m & <- & Hm).
  apply in_map_iff in Ht as (e & <- & He).
  apply in_split in Hm as (ms1 & ms2 & ->). by exists ms1, m, ms2, e.
Qed.

Lemma slice_from_nil {A : Type} (k : Z) : slice_from k (@nil A) = [].
Proof. unfold slice_from. destruct (k <? 0); apply drop_nil. Qed.

Section NearForced.

Variable re_search : string -> string -> option bool.
Context {T : Type}.
Variables (separation : T) (emit : entry -> T).
Variable o : options.
Variable w : nat.
Hypothesis context_nonnegative : 0 <= search_context o.

Local Abbreviation bounded' := (bounded separation emit o w).
Local Abbreviation allowed' := (fun read => allowed separation emit (near_forced o w read)).

(** The messages that a block close keeps or prints lie within
    [search_context] messages in front of the block. *)
Lemma history_bounded (read : list string) (st : state T)
    (ms1 : list (list entry)) (m : list entry) (ms2 : list (list entry)) :
  bounded' read st ->
  slice_from ((search_context o + 1) * -1) (messages st ++ [buffer st])
  = ms1 ++ m :: ms2 ->
  Forall (fun e => exists b, in_block o w read b e
                             /\ (b + S (length ms2))%nat = S (current_block o read)) m
  /\ Z.of_nat (length ms2) <= search_context o.
Proof.
  intros (Hn & Hbuf & Hb & Hms & Hlen & Htext & Hm & Hctx).
  rewrite slice_from_snoc by done. intros H. symmetry in H.
  apply snoc_cases in H as [(-> & -> & _)|(ms2' & -> & Hd)].
  - split; [|simpl; lia]. eapply Forall_impl; [exact Hb|]. intros e He.
    exists (current_block o read). split; [done|]. simpl. lia.
  - pose proof (take_drop
                  (Z.to_nat (Z.of_nat (length (messages st)) - search_context o))
                  (messages st)) as Htd.
    rewrite Hd, app_assoc in Htd. symmetry in Htd.
    split.
    + eapply Forall_impl; [exact (Hms _ _ _ Htd)|]. intros e (b & Hin & Hbe).
      exists b. split; [done|]. rewrite length_app. simpl. lia.
    + apply (f_equal (@length _)) in Hd. rewrite length_drop in Hd.
      rewrite !length_app in Hd. simpl in Hd. rewrite length_app. simpl. lia.
Qed.

(** A message that is printed when a block is closed, or at the end, lies
    near a message that an always-show rule accepts. *)
Lemma printing_near (read : list string) (st : state T) (b : nat) (k : nat)
    (e : entry) :
  bounded' read st ->
  matched st || (0 <? context st) = true ->
  in_block o w read b e ->
  (b + k)%nat = current_block o read ->
  Z.of_nat k <= search_context o ->
  near_forced o w read e.
Proof.
  intros (Hn & Hbuf & Hb & Hms & Hlen & Htext & Hm & Hctx) Hp Hin Hk Hle.
  assert (Hf : exists f, block_forced o read f /\ (f <= current_block o read)%nat
                         /\ Z.of_nat (current_block o read)
                            <= Z.of_nat f + search_context o).
  { destruct (matched st) eqn:Em.
    - exists (current_block o read). split; [by apply Hm|]. lia.
    - simpl in Hp. apply Z.ltb_lt in Hp.
      destruct (Hctx Hp) as (f & Hf & Hle1 & Hle2). exists f.
      split; [done|]. lia. }
  destruct Hf as (f & Hf & Hle1 & Hle2). exists b, f.
  split; [done|]. split; [done|]. lia.
Qed.

Lemma close_block_bounded (read : list string) (st : state T) :
  bounded' read st ->
  Forall (allowed' read) (text (close_block separation emit o st))
  /\ (forall ms1 m ms2,
        messages (close_block separation emit o st) = ms1 ++ m :: ms2 ->
        Forall (fun e => exists b, in_block o w read b e
                                   /\ (b + S (length ms2))%nat
                                      = S (current_block o read)) m)
  /\ Z.of_nat (length (messages (close_block separation emit o st)))
     <= search_context o + 1
  /\ (0 < context (close_block separation emit o st) ->
      exists f, block_forced o read f /\ (f <= current_block o read)%nat
                /\ Z.of_nat (S (current_block o read))
                   + context (close_block separation emit o st)
                   <= Z.of_nat f + search_context o + 1).
Proof.
  intros Hbd. pose proof Hbd as (Hn & Hbuf & Hb & Hms & Hlen & Htext & Hm & Hctx).
  pose proof (history_bounded read st) as Hhist.
  unfold close_block. simpl.
  destruct (buffer st) as [|e0 b0] eqn:Ebuf; [done|]. simpl.
  destruct (matched st || (0 <? context st)) eqn:Hp.
  - split; [|split; [|split]].
    + apply Forall_app. split.
      * destruct (last st); [done|]. apply Forall_app. split; [done|].
        apply Forall_cons. split; [by left|done].
      * apply List.Forall_forall. intros t Ht.
        apply in_print_messages_inv in Ht as (ms1 & m & ms2 & e & Heq & He & ->).
        right. exists e. split; [done|].
        destruct (Hhist ms1 m ms2 Hbd Heq) as [HF Hl].
        apply (proj1 (List.Forall_forall _ _) HF) in He as (b & Hin & Hbe).
        apply (printing_near read st b (length ms2) e); try done. lia.
    + intros ms1 m ms2 H. by destruct ms1.
    + simpl. lia.
    + destruct (matched st) eqn:Em.
      * intros _. exists (current_block o read). split; [by apply Hm|]. lia.
      * simpl in Hp. rewrite Hp. apply Z.ltb_lt in Hp. intros _.
        destruct (Hctx Hp) as (f & Hf & Hle1 & Hle2). exists f.
        split; [done|]. lia.
  - apply orb_false_iff in Hp as [Em Hp]. rewrite Em, Hp. apply Z.ltb_ge in Hp.
    split; [done|]. split; [|split].
    + intros ms1 m ms2 H. by destruct (Hhist ms1 m ms2 Hbd H).
    + rewrite slice_from_snoc by done. rewrite length_app, length_drop. simpl. lia.
    + lia.
Qed.

Lemma step_bounded (read : list string) (st st' : state T) (raw : string) :
  bounded' read st ->
  step re_search separation emit o [] w st raw = Ok (Continue st') ->
  bounded' (read ++ [raw]) st'.
Proof.
  intros Hbd Hs. pose proof Hbd as (Hn & Hbuf & Hb & Hms & Hlen & Htext & Hm & Hctx).
  assert (Hread : read <> []).
  { destruct (buffer st) as [|e0 b0] eqn:Ebuf; [done|].
    apply Forall_inv in Hb as (i & raw0 & Hi & _). by destruct read. }
  rewrite step_no_terms in Hs. simpl in Hs.
  destruct (ends_test o raw) eqn:Hend; [done|]. injection Hs as <-.
  pose proof (current_block_snoc o read raw Hread) as Hcb.
  unfold boundary. rewrite Hend, orb_false_r.
  destruct (starts_message o raw) eqn:Hmsg.
  - destruct (close_block_bounded read st Hbd) as (Ht1 & Hms1 & Hlen1 & Hctx1).
    set (st1 := close_block separation emit o st) in *.
    assert (Hb1 : buffer st1 = []) by reflexivity.
    assert (Hm1 : matched st1 = false) by reflexivity.
    clearbody st1. unfold bounded. simpl. rewrite Hb1, Hm1.
    split; [rewrite length_app; simpl; lia|].
    split; [done|].
    split.
    { apply Forall_cons. split; [|done]. rewrite Hn. apply in_block_last. }
    split.
    { intros ms1 m ms2 H. eapply Forall_impl; [exact (Hms1 _ _ _ H)|].
      intros e (b & Hin & Hbe). exists b. split; [by apply in_block_app|]. lia. }
    split; [done|].
    split; [by apply allowed_app|].
    split.
    { intros Hf. apply block_forced_last. by apply force_match_cases in Hf as [?|?]. }
    intros Hpos. destruct (Hctx1 Hpos) as (f & Hf & Hle1 & Hle2). exists f.
    split; [by apply block_forced_app|]. lia.
  - unfold bounded. simpl.
    split; [rewrite length_app; simpl; lia|].
    split; [intros Heq; by apply app_eq_nil in Heq as [_ ?]|].
    split.
    { apply Forall_app. split.
      - rewrite Hcb, Nat.add_0_r. eapply Forall_impl; [exact Hb|].
        intros e. apply in_block_app.
      - apply Forall_cons. split; [|done]. rewrite Hn. apply in_block_last. }
    split.
    { intros ms1 m ms2 H. eapply Forall_impl; [exact (Hms _ _ _ H)|].
      intros e (b & Hin & Hbe). exists b. split; [by apply in_block_app|]. lia. }
    split; [done|].
    split; [by apply allowed_app|].
    split.
    { intros Hf. apply force_match_cases in Hf as [Hf|Hf].
      - rewrite Hcb, Nat.add_0_r. by apply block_forced_app, Hm.
      - by apply block_forced_last. }
    intros Hpos. destruct (Hctx Hpos) as (f & Hf & Hle1 & Hle2). exists f.
    split; [by apply block_forced_app|]. lia.
Qed.

Lemma finish_bounded (read : list string) (st : state T) :
  bounded' read st ->
  Forall (allowed' read) (finish separation emit o st).
Proof.
  intros Hbd. pose proof Hbd as (Hn & Hbuf & Hb & Hms & Hlen & Htext & Hm & Hctx).
  unfold finish. destruct (matched st || (0 <? context st)) eqn:Hp; [|done].
  apply Forall_app. split.
  { destruct (last st); [done|]. apply Forall_app. split; [done|].
    apply Forall_cons. split; [by left|done]. }
  apply Forall_app. split.
  - apply List.Forall_forall. intros t Ht.
    apply in_print_messages_inv in Ht as (ms1 & m & ms2 & e & Heq & He & ->).
    right. exists e. split; [done|].
    destruct (messages st) as [|m0 rest] eqn:Ems.
    { rewrite slice_from_nil in Heq. by destruct ms1. }
    destruct (slice_from_suffix ((search_context o + 1) * -1) rest) as [front Hfront].
    rewrite Heq in Hfront.
    assert (Hsplit : m0 :: rest = (m0 :: front ++ ms1) ++ m :: ms2).
    { rewrite Hfront at 1. simpl. by rewrite <- app_assoc. }
    pose proof (Hms _ _ _ Hsplit) as HF.
    apply (proj1 (List.Forall_forall _ _) HF) in He as (b & Hin & Hbe).
    apply (printing_near read st b (S (length ms2)) e); try done.
    apply (f_equal (@length _)) in Hsplit. simpl in Hsplit, Hlen.
    rewrite !length_app in Hsplit. simpl in Hsplit. lia.
  - apply List.Forall_forall. intros t Ht.
    apply in_map_iff in Ht as (e & <- & He). right. exists e. split; [done|].
    apply (proj1 (List.Forall_forall _ _) Hb) in He.
    apply (printing_near read st (current_block o read) 0 e); try done; lia.
Qed.

Lemma loop_bounded (file read : list string) (st : state T) (out : list T) :
  bounded' read st ->
  loop re_search separation emit o [] w st file = Ok out ->
  Forall (allowed' (read ++ scanned_lines o file)) out.
Proof.
  revert read st. induction file as [|raw file IH]; intros read st Hbd; simpl.
  - intros [= <-]. rewrite app_nil_r. by apply finish_bounded.
  - destruct (step re_search separation emit o [] w st raw)
      as [[st'|out']|e] eqn:Hs; simpl; [| |done].
    + pose proof (step_continue _ _ _ _ _ _ _ _ _ Hs _ eq_refl) as (-> & _).
      intros Hl. rewrite (cons_middle raw), app_assoc.
      apply (IH _ st'); [|done]. by apply (step_bounded _ st).
    + apply step_return in Hs as [-> ->]. intros [= <-]. rewrite app_nil_r.
      by destruct (close_block_bounded read st Hbd) as (? & _).
Qed.

(** Without terms, whatever is printed lies near a message that an
    always-show rule accepts. *)
Lemma scan_bounded (file : list string) (out : list T) :
  loop re_search separation emit o [] w initial file = Ok out ->
  Forall (allowed' (scanned_lines o file)) out.
Proof.
  destruct file as [|raw file]; simpl; [by intros [= <-]|].
  rewrite step_no_terms. simpl.
  assert (Hb : boundary separation emit o initial raw
               = (initial : state T)).
  { unfold boundary. destruct (_ || _); [|done].
    unfold close_block, initial. simpl. by rewrite slice_from_nil. }
  rewrite Hb. simpl.
  destruct (ends_test o raw) eqn:Hend; simpl; [by intros [= <-]|].
  intros Hl. apply (loop_bounded file [raw] _ out) in Hl; [done|].
  unfold bounded. simpl.
  split; [done|]. split; [done|].
  split.
  { apply Forall_cons. split; [|done]. exists 0%nat, raw. done. }
  split; [intros ms1 m ms2 H; by destruct ms1|].
  split; [lia|]. split; [done|].
  split; [|lia].
  intros Hf. exists 0%nat, raw. done.
Qed.

End NearForced.

(** C9 (counterexample).  No terms.  With a context count of -2 the
    message that the error rule accepts is not in the result, a separation
    line only; with -1 the three messages in front of it are printed too,
    none of which a rule accepts. *)
Lemma forced_block_lost :
  (forall re, search re ["# UVM_INFO a"; "# UVM_ERROR b";
                         "# --- UVM Report Summary ---"] []
                {[ "SHOW_ERRORS" := PyBool true; "SEARCH_CONTEXT" := PyInt (-2) ]}
              = Ok (with_newlines ["..."]))
  /\ (forall re, search re ["# UVM_INFO a"; "# UVM_INFO b"; "# UVM_INFO c";
                            "# UVM_ERROR d"; "# --- UVM Report Summary ---"] []
                   {[ "SHOW_ERRORS" := PyBool true; "SEARCH_CONTEXT" := PyInt (-1) ]}
                 = Ok (with_newlines ["..."; "# UVM_INFO a"; "# UVM_INFO b";
                                      "# UVM_INFO c"; "# UVM_ERROR d"])).
Proof. split; intros re; reflexivity. Qed.

(** C9 (amended).  With no terms [search] does not fail; the search for
    the terms leaves the flag and [matches] as they are, in both modes, so
    that the result does not depend on [SEARCH_EXCLUSIVE] nor on
    [re.search]; if the always-show rules accept no line in front of the
    end of the test, nothing is printed.  For a context count of 0 or more:
    every line of a message with a line that the rules accept is printed;
    and every line that is printed is a separation line or a line of a
    message at most [search_context] messages away from a message with a
    line that the rules accept. *)
Theorem empty_term_set (re : string -> string -> option bool)
    (file : list string) (opts : gmap string pyval) (o : options) :
  decode_options opts = Ok o ->
  (exists out, search re file [] opts = Ok out)
  /\ (forall line fline m mt, match_terms re o [] line fline m mt = Ok (m, mt))
  /\ (forall re' v,
        search re' file [] (<["SEARCH_EXCLUSIVE" := v]> opts)
        = search re file [] opts)
  /\ (Forall (fun raw => force_match o (compared_line o raw) false = false)
        (scanned_lines o file) ->
      search re file [] opts = Ok [])
  /\ (forall (pre : list string) (first : string) (body post : list string),
        file = pre ++ first :: body ++ post ->
        0 <= search_context o ->
        Forall (fun r => ends_test o r = false) (pre ++ [first]) ->
        Forall (continues_block o) body ->
        Exists (fun raw => force_match o (compared_line o raw) false = true)
          (first :: body) ->
        exists out,
          search re file [] opts = Ok out
          /\ Forall (fun e => In (render_entry (show_line_numbers o) e) out)
               (stored_entries (line_number_width file) (length pre)
                  (first :: body)))
  /\ (0 <= search_context o ->
      forall out, search re file [] opts = Ok out ->
        Forall (fun s =>
                  s = SEPERATION +:+ Str.nl
                  \/ exists e, s = render_entry (show_line_numbers o) e
                               /\ near_forced o (line_number_width file)
                                    (scanned_lines o file) e) out).
Proof.
  intros Ho. unfold search. rewrite Ho. simpl. unfold scan. simpl.
  split; [apply loop_no_terms|].
  split; [apply match_terms_nil|].
  split.
  { intros re' v. rewrite (decode_options_exclusive _ _ v Ho). simpl.
    apply (loop_no_terms_exclusive re re'). }
  split.
  { intros Hfile. apply loop_no_hits; try done.
    eapply Forall_impl; [exact Hfile|]. by intros raw Hraw. }
  split.
  { intros pre first body post -> Hc Hno Hbody Hex.
    assert (Hex' : Exists (line_matches re o []) (first :: body)).
    { eapply List.Exists_impl; [|exact Hex]. intros raw Hraw. by left. }
    pose proof (block_shown re (SEPERATION +:+ Str.nl)
                  (render_entry (show_line_numbers o)) o []
                  (line_number_width (pre ++ first :: body ++ post))
                  Hc pre first body post Hno Hbody Hex') as H.
    destruct (loop _ _ _ _ _ _ _ _) as [out|e]; [by exists out|].
    by destruct H as (_ & _ & ?). }
  intros Hc out Hout. by apply scan_bounded in Hout.
Qed.

Lemma empty_term_set_witness :
  Forall (fun r => ends_test
                     {| search_regex := false; search_case_sensitive := false;
                        search_exclusive := false; always_show_errors := true;
                        always_show_warnings := false; show_line_numbers := false;
                        search_context := 1 |} r = false)
    (["# UVM_INFO hello"; "line X"] ++ ["# UVM_ERROR bad thing"])
  /\ exists out,
      search literal_search example_file []
        {[ "SHOW_ERRORS" := PyBool true; "SEARCH_CONTEXT" := PyInt 1 ]} = Ok out
      /\ Forall (fun e => In (render_entry false e) out)
           [("3", "# UVM_ERROR bad thing")].
Proof.
  assert (Hno : Forall (fun r => ends_test
                     {| search_regex := false; search_case_sensitive := false;
                        search_exclusive := false; always_show_errors := true;
                        always_show_warnings := false; show_line_numbers := false;
                        search_context := 1 |} r = false)
    (["# UVM_INFO hello"; "line X"] ++ ["# UVM_ERROR bad thing"])).
  { repeat constructor. }
  split; [exact Hno|].
  refine (proj1 (proj2 (proj2 (proj2 (proj2
            (empty_term_set literal_search example_file
               {[ "SHOW_ERRORS" := PyBool true; "SEARCH_CONTEXT" := PyInt 1 ]}
               {| search_regex := false; search_case_sensitive := false;
                  search_exclusive := false; always_show_errors := true;
                  always_show_warnings := false; show_line_numbers := false;
                  search_context := 1 |} eq_refl)))))
            ["# UVM_INFO hello"; "line X"] "# UVM_ERROR bad thing" []
            ["# --- UVM Report Summary ---"] eq_refl _ Hno _ _).
  - simpl. lia.
  - constructor.
  - apply Exists_cons_hd. reflexivity.
Defined.
